(** * Amun API v1: the specification codec and the request handlers

    A shallow embedding of [amun/api_v1.py].  Python objects live in an
    explicit store: dictionaries and lists are heap objects reached through
    references, so that [dict.copy()] (a shallow copy) and the in-place
    updates of the quote walkers alias exactly as they do in the source. *)

From Stdlib Require Import ZArith Ascii String List Lia Bool.
From stdpp Require Import base list strings pretty.
Import ListNotations.

Local Open Scope string_scope.
Local Open Scope Z_scope.

(** ** Strings: the two regular-expression substitutions *)

Definition quote : ascii := "'"%char.

Definition is_quote (c : ascii) : bool := Ascii.eqb c quote.

Definition starts_with_quote (s : string) : bool :=
  match s with
  | String c _ => is_quote c
  | EmptyString => false
  end.

(** [re.sub(r"'(?!')", "''", s)]: the pattern matches one quote character
    when the next character is not a quote (the lookahead consumes nothing,
    and succeeds at the end of the string); every match is replaced by two
    quotes. *)
Fixpoint escape_str (s : string) : string :=
  match s with
  | EmptyString => EmptyString
  | String c rest =>
      if is_quote c && negb (starts_with_quote rest)
      then String quote (String quote (escape_str rest))
      else String c (escape_str rest)
  end.

(** [re.sub(r"''", "'", s)]: leftmost, non-overlapping occurrences of two
    adjacent quotes are each replaced by one quote; scanning resumes after
    the two matched characters. *)
Fixpoint unescape_str (s : string) : string :=
  match s with
  | EmptyString => EmptyString
  | String c rest =>
      match rest with
      | String c' rest' =>
          if is_quote c && is_quote c'
          then String quote (unescape_str rest')
          else String c (unescape_str rest)
      | EmptyString => String c EmptyString
      end
  end.

(** [dockerfile.replace("'", "''")]: every quote is doubled. *)
Fixpoint double_quotes (s : string) : string :=
  match s with
  | EmptyString => EmptyString
  | String c rest =>
      if is_quote c then String quote (String quote (double_quotes rest))
      else String c (double_quotes rest)
  end.

(** A run of [n] quote characters. *)
Fixpoint quotes (n : nat) : string :=
  match n with
  | O => EmptyString
  | S n' => String quote (quotes n')
  end.

(** No three quote characters in a row: every maximal run of quotes is a
    lone quote or one doubled pair. *)
Fixpoint no_triple_quote (s : string) : bool :=
  match s with
  | String c1 ((String c2 (String c3 _)) as rest) =>
      negb (is_quote c1 && is_quote c2 && is_quote c3) && no_triple_quote rest
  | _ => true
  end.

(** Quotes occur in doubled pairs only: every maximal run of quotes has even
    length. *)
Fixpoint quotes_paired_from (parity : bool) (s : string) : bool :=
  match s with
  | EmptyString => negb parity
  | String c rest =>
      if is_quote c then quotes_paired_from (negb parity) rest
      else negb parity && quotes_paired_from false rest
  end.

Definition quotes_paired (s : string) : bool := quotes_paired_from false s.

(** ** The object store *)

Definition loc := nat.

(** Values: immutable scalars, and references to the mutable containers.
    Floating-point scalars are outside the model. *)
Inductive value : Type :=
  | VNone
  | VBool (b : bool)
  | VInt (z : Z)
  | VStr (s : string)
  | VRef (l : loc).

(** A [dict] keeps its items in insertion order; its keys are strings (the
    documents are decoded JSON) and pairwise distinct. *)
Inductive object : Type :=
  | ODict (items : list (string * value))
  | OList (elts : list value).

Abbreviation heap := (list object).

Inductive exn : Type :=
  | RecursionError
  | ValueError
  | TypeError
  | AttributeError
  | KeyError
  | IndexError
  | NameError
  | ScriptObtainingError (msg : string)
  | NotFoundException
  | OtherError (name : string).

Inductive outcome (A : Type) : Type :=
  | Ok (a : A) (h : heap)
  | Raise (e : exn) (h : heap).

Arguments Ok {A} a h.
Arguments Raise {A} e h.

(** Computations over the store that may raise. *)
Definition M (A : Type) : Type := heap -> outcome A.

Definition ret {A} (a : A) : M A := fun h => Ok a h.

Definition raise {A} (e : exn) : M A := fun h => Raise e h.

Definition bind {A B} (m : M A) (k : A -> M B) : M B :=
  fun h =>
    match m h with
    | Ok a h' => k a h'
    | Raise e h' => Raise e h'
    end.

Notation "'let!' x ':=' m 'in' k" := (bind m (fun x => k))
  (at level 10, x pattern, m at level 100, k at level 200).

Notation "'do!' m 'in' k" := (bind m (fun _ => k))
  (at level 10, m at level 100, k at level 200).

(** [try: m  except E: handler] where [catches] selects the exceptions of
    class [E]. *)
Definition try_except {A} (m : M A) (catches : exn -> bool) (handler : exn -> M A) : M A :=
  fun h =>
    match m h with
    | Ok a h' => Ok a h'
    | Raise e h' => if catches e then handler e h' else Raise e h'
    end.

(** *** Dictionaries as insertion-ordered item lists *)

Fixpoint dict_lookup {V} (k : string) (items : list (string * V)) : option V :=
  match items with
  | [] => None
  | (k', v) :: rest => if String.eqb k k' then Some v else dict_lookup k rest
  end.

(** [d[k] = v]: an existing key keeps its position, a new key goes last. *)
Fixpoint dict_assign {V} (k : string) (v : V) (items : list (string * V))
  : list (string * V) :=
  match items with
  | [] => [(k, v)]
  | (k', v') :: rest =>
      if String.eqb k k' then (k, v) :: rest else (k', v') :: dict_assign k v rest
  end.

Definition dict_keys {V} (items : list (string * V)) : list string := map fst items.

Definition has_key {V} (k : string) (items : list (string * V)) : bool :=
  match dict_lookup k items with Some _ => true | None => false end.

(** *** Built-in operations, dispatching on the run-time type *)

(** [{...}] and [[...]]: a fresh object at the end of the store. *)
Definition alloc (o : object) : M value :=
  fun h => Ok (VRef (length h)) (h ++ [o])%list.

Definition new_dict (items : list (string * value)) : M value := alloc (ODict items).

(** Substring test, for [k in s] on a string [s]. *)
Fixpoint is_substring (k s : string) : bool :=
  String.prefix k s ||
  match s with
  | EmptyString => false
  | String _ rest => is_substring k rest
  end.

Definition is_str_equal_to (k : string) (v : value) : bool :=
  match v with VStr s => String.eqb k s | _ => false end.

(** [k in c] for a string [k]. *)
Definition py_contains (k : string) (c : value) : M bool :=
  fun h =>
    match c with
    | VStr s => Ok (is_substring k s) h
    | VRef l =>
        match h !! l with
        | Some (ODict items) => Ok (has_key k items) h
        | Some (OList elts) => Ok (existsb (is_str_equal_to k) elts) h
        | None => Raise TypeError h
        end
    | _ => Raise TypeError h
    end.

(** [c[k]] for a string [k]. *)
Definition py_getitem (c : value) (k : string) : M value :=
  fun h =>
    match c with
    | VRef l =>
        match h !! l with
        | Some (ODict items) =>
            match dict_lookup k items with
            | Some v => Ok v h
            | None => Raise KeyError h
            end
        | _ => Raise TypeError h
        end
    | _ => Raise TypeError h
    end.

(** [c[k] = v] for a string [k]. *)
Definition py_setitem (c : value) (k : string) (v : value) : M unit :=
  fun h =>
    match c with
    | VRef l =>
        match h !! l with
        | Some (ODict items) => Ok tt (<[l := ODict (dict_assign k v items)]> h)
        | _ => Raise TypeError h
        end
    | _ => Raise TypeError h
    end.

(** [c.get(k, default)]; only dictionaries have the method. *)
Definition py_get (c : value) (k : string) (default : value) : M value :=
  fun h =>
    match c with
    | VRef l =>
        match h !! l with
        | Some (ODict items) =>
            match dict_lookup k items with
            | Some v => Ok v h
            | None => Ok default h
            end
        | _ => Raise AttributeError h
        end
    | _ => Raise AttributeError h
    end.

(** [c.copy()]: a new container holding the same item values, so nested
    containers are shared with the original. *)
Definition py_copy (c : value) : M value :=
  fun h =>
    match c with
    | VRef l =>
        match h !! l with
        | Some o => alloc o h
        | None => Raise AttributeError h
        end
    | _ => Raise AttributeError h
    end.

(** [obj[i]] and [obj[i] = v] on a list, as used under [enumerate]. *)
Definition list_item (l : loc) (i : nat) (h : heap) : option value :=
  match h !! l with
  | Some (OList elts) => elts !! i
  | _ => None
  end.

Definition list_setitem (l : loc) (i : nat) (v : value) : M unit :=
  fun h =>
    match h !! l with
    | Some (OList elts) =>
        if bool_decide (i < length elts)%nat
        then Ok tt (<[l := OList (<[i := v]> elts)]> h)
        else Raise IndexError h
    | _ => Raise TypeError h
    end.

(** Truth value of an object: [None], [False], zero, the empty string and
    empty containers are false. *)
Definition truth_value (h : heap) (v : value) : bool :=
  match v with
  | VNone => false
  | VBool b => b
  | VInt z => negb (z =? 0)
  | VStr s => negb (String.eqb s EmptyString)
  | VRef l =>
      match h !! l with
      | Some (ODict items) => negb (Nat.eqb (length items) 0)
      | Some (OList elts) => negb (Nat.eqb (length elts) 0)
      | None => true
      end
  end.

Definition truthy (v : value) : M bool := fun h => Ok (truth_value h v) h.

(** *** [str] and [int] *)

Definition double_quote_char : ascii := ascii_of_nat 34.
Definition backslash_char : ascii := ascii_of_nat 92.

Fixpoint contains_char (c : ascii) (s : string) : bool :=
  match s with
  | EmptyString => false
  | String c' rest => Ascii.eqb c c' || contains_char c rest
  end.

Definition hex_digit (n : nat) : ascii :=
  nth n (list_ascii_of_string "0123456789abcdef") "0"%char.

(** The delimiter [repr] picks for a string: a double quote when the string
    has a single quote and no double quote, a single quote otherwise. *)
Definition repr_delimiter (s : string) : ascii :=
  if contains_char quote s && negb (contains_char double_quote_char s)
  then double_quote_char else quote.

Definition repr_char (q c : ascii) : string :=
  let n := nat_of_ascii c in
  if Ascii.eqb c q || Ascii.eqb c backslash_char
  then String backslash_char (String c EmptyString)
  else if (n =? 9)%nat then String backslash_char "t"
  else if (n =? 10)%nat then String backslash_char "n"
  else if (n =? 13)%nat then String backslash_char "r"
  else if (n <? 32)%nat || (n =? 127)%nat
  then String backslash_char
         (String "x" (String (hex_digit (n / 16)) (String (hex_digit (n mod 16)) EmptyString)))
  else String c EmptyString.

Fixpoint repr_chars (q : ascii) (s : string) : string :=
  match s with
  | EmptyString => EmptyString
  | String c rest => repr_char q c ++ repr_chars q rest
  end.

(** [repr] of a string, for ASCII text.  Which of the other characters
    [repr] escapes is decided by the Unicode database, outside the model
    (they are kept here): the theorems below that state the result of [str]
    on a container ask for ASCII text inside it ([str_modelled]). *)
Definition repr_str (s : string) : string :=
  let q := repr_delimiter s in
  String q (repr_chars q s ++ String q EmptyString).

(** [repr] of a value; [active] holds the containers being printed, which
    print as an ellipsis when met again.  [None] when the nesting exceeds
    [fuel]. *)
Fixpoint py_repr (fuel : nat) (h : heap) (active : list loc) (v : value) : option string :=
  match fuel with
  | O => None
  | S n =>
      match v with
      | VNone => Some "None"
      | VBool true => Some "True"
      | VBool false => Some "False"
      | VInt z => Some (pretty z)
      | VStr s => Some (repr_str s)
      | VRef l =>
          match h !! l with
          | Some (ODict items) =>
              if bool_decide (l ∈ active) then Some "{...}"
              else
                match mapM (fun kv : string * value =>
                              option_map (fun r => repr_str (fst kv) ++ ": " ++ r)
                                         (py_repr n h (l :: active) (snd kv))) items with
                | Some parts => Some ("{" ++ String.concat ", " parts ++ "}")
                | None => None
                end
          | Some (OList elts) =>
              if bool_decide (l ∈ active) then Some "[...]"
              else
                match mapM (py_repr n h (l :: active)) elts with
                | Some parts => Some ("[" ++ String.concat ", " parts ++ "]")
                | None => None
                end
          | None => Some EmptyString
          end
      end
  end.

(** [str(v)]. *)
Definition py_str (fuel : nat) (v : value) : M string :=
  fun h =>
    match v with
    | VStr s => Ok s h
    | _ =>
        match py_repr fuel h [] v with
        | Some r => Ok r h
        | None => Raise RecursionError h
        end
    end.

(** White space as [int] strips it from the ends of the text: the ASCII
    white space 0x09-0x0d and 0x20 (the separators 0x1c-0x1f are white space
    for [str.isspace], not for [int]). *)
Definition is_space (c : ascii) : bool :=
  let n := nat_of_ascii c in
  ((9 <=? n) && (n <=? 13) || (n =? 32))%nat.

Fixpoint lstrip (cs : list ascii) : list ascii :=
  match cs with
  | c :: rest => if is_space c then lstrip rest else cs
  | [] => []
  end.

Definition strip (cs : list ascii) : list ascii := rev (lstrip (rev (lstrip cs))).

Definition digit_value (c : ascii) : option Z :=
  let n := nat_of_ascii c in
  if ((48 <=? n) && (n <=? 57))%nat then Some (Z.of_nat n - 48) else None.

(** Decimal digits, with single underscores allowed between digits;
    [after_digit] tells whether the previous character was a digit. *)
Fixpoint parse_digits (acc : Z) (after_digit : bool) (cs : list ascii) : option Z :=
  match cs with
  | [] => if after_digit then Some acc else None
  | c :: rest =>
      match digit_value c with
      | Some d => parse_digits (10 * acc + d) true rest
      | None =>
          if Ascii.eqb c "_"%char && after_digit then parse_digits acc false rest
          else None
      end
  end.

(** [int(s)] in base 10, for ASCII text: optional white space, an optional
    sign, digits with single underscores between them, optional white space.
    On text with other characters [int] first maps the decimal digits and
    the white space of the Unicode database to ASCII ones, which is outside
    the model: there only an accepted text carries over (what is accepted
    here is ASCII throughout), and the theorems below that rely on a
    rejection ask for ASCII text ([is_ascii]). *)
Definition int_of_string (s : string) : option Z :=
  match strip (list_ascii_of_string s) with
  | c :: rest =>
      if Ascii.eqb c "-"%char then option_map Z.opp (parse_digits 0 false rest)
      else if Ascii.eqb c "+"%char then parse_digits 0 false rest
      else parse_digits 0 false (c :: rest)
  | [] => None
  end.

(** [int(v)]. *)
Definition py_int (v : value) : M Z :=
  fun h =>
    match v with
    | VInt z => Ok z h
    | VBool b => Ok (if b then 1 else 0) h
    | VStr s =>
        match int_of_string s with
        | Some z => Ok z h
        | None => Raise ValueError h
        end
    | _ => Raise TypeError h
    end.

(** ** The quote walkers *)

(** [for k in obj: obj[k] = body(obj[k])] over the keys [ks] of a dict. *)
Fixpoint for_each_key (body : value -> M value) (obj : value) (ks : list string) : M unit :=
  match ks with
  | [] => ret tt
  | k :: ks' =>
      let! v := py_getitem obj k in
      let! v' := body v in
      do! py_setitem obj k v' in
      for_each_key body obj ks'
  end.

(** [for i, v in enumerate(obj): obj[i] = body(v)] over the indices [idx] of
    the list at [l]; the iteration stops when the list has no item [i]. *)
Fixpoint for_each_index (body : value -> M value) (l : loc) (idx : list nat) : M unit :=
  match idx with
  | [] => ret tt
  | i :: idx' =>
      fun h =>
        match list_item l i h with
        | Some v =>
            (let! v' := body v in
             do! list_setitem l i v' in
             for_each_index body l idx') h
        | None => Ok tt h
        end
  end.

(** The common shape of [_escape_single_quotes] and
    [_unescape_single_quotes]: dictionaries and lists are updated in place
    and returned, a string is replaced by [f] of it, anything else is
    returned as it is.  [fuel] is the number of nested calls the interpreter
    still allows; a call made when none is left raises [RecursionError]. *)
Fixpoint walk_strings (f : string -> string) (fuel : nat) (obj : value) : M value :=
  match fuel with
  | O => raise RecursionError
  | S n =>
      match obj with
      | VRef l =>
          fun h =>
            match h !! l with
            | Some (ODict items) =>
                (do! for_each_key (walk_strings f n) obj (dict_keys items) in ret obj) h
            | Some (OList elts) =>
                (do! for_each_index (walk_strings f n) l (seq 0 (length elts)) in ret obj) h
            | None => Ok obj h
            end
      | VStr s => ret (VStr (f s))
      | _ => ret obj
      end
  end.

Definition _escape_single_quotes : nat -> value -> M value := walk_strings escape_str.

Definition _unescape_single_quotes : nat -> value -> M value := walk_strings unescape_str.

(** ** The specification codec *)

Definition int_to_str : list string := ["allowed_failures"; "batch_size"; "parallelism"].

Definition str_to_int : list string := ["allowed_failures"; "batch_size"; "parallelism"].

(** [for key in int_to_str: ... parsed_specification[key] = str(specification[key])] *)
Fixpoint cast_to_str (fuel : nat) (specification parsed_specification : value)
    (keys : list string) : M unit :=
  match keys with
  | [] => ret tt
  | key :: keys' =>
      let! present := py_contains key specification in
      if negb present then cast_to_str fuel specification parsed_specification keys'
      else
        let! v := py_getitem specification key in
        let! s := py_str fuel v in
        do! py_setitem parsed_specification key (VStr s) in
        cast_to_str fuel specification parsed_specification keys'
  end.

(** [if key not in d: d[key] = {}] *)
Definition default_to_empty_dict (key : string) (d : value) : M unit :=
  let! present := py_contains key d in
  if negb present then
    let! e := new_dict [] in
    py_setitem d key e
  else ret tt.

Definition _parse_specification (fuel : nat) (specification : value) : M value :=
  let! parsed_specification := py_copy specification in
  let! parsed_specification := _escape_single_quotes fuel parsed_specification in
  do! cast_to_str fuel specification parsed_specification int_to_str in
  do! default_to_empty_dict "build" parsed_specification in
  do! default_to_empty_dict "run" parsed_specification in
  ret parsed_specification.

(** [for key in str_to_int: ... specification[key] = int(parsed_specification[key])] *)
Fixpoint cast_to_int (parsed_specification specification : value)
    (keys : list string) : M unit :=
  match keys with
  | [] => ret tt
  | key :: keys' =>
      let! present := py_contains key specification in
      if negb present then cast_to_int parsed_specification specification keys'
      else
        let! v := py_getitem parsed_specification key in
        let! z := py_int v in
        do! py_setitem specification key (VInt z) in
        cast_to_int parsed_specification specification keys'
  end.

Definition _unparse_specification (fuel : nat) (parsed_specification : value) : M value :=
  let! specification := py_copy parsed_specification in
  let! specification := _unescape_single_quotes fuel specification in
  do! cast_to_int parsed_specification specification str_to_int in
  ret specification.

(** ** Default resource requests *)

Definition _DEFAULT_REQUESTS : list (string * value) :=
  [("cpu", VStr "500m"); ("memory", VStr "256Mi")].

(** [_DEFAULT_REQUESTS[k]] *)
Definition default_request (k : string) : M value :=
  match dict_lookup k _DEFAULT_REQUESTS with
  | Some v => ret v
  | None => raise KeyError
  end.

(** [current or default], for the result [current] of [dict.get]. *)
Definition or_default (h : heap) (current : option value) (default : value) : value :=
  match current with
  | Some v => if truth_value h v then v else default
  | None => default
  end.

(** [dict_["requests"][k] = dict_["requests"].get(k) or _DEFAULT_REQUESTS[k]];
    the right-hand side is evaluated before the target. *)
Definition assign_request_default (dict_ : value) (k : string) : M unit :=
  let! requests := py_getitem dict_ "requests" in
  let! current := py_get requests k VNone in
  let! keep := truthy current in
  let! chosen := (if keep then ret current else default_request k) in
  let! requests := py_getitem dict_ "requests" in
  py_setitem requests k chosen.

Definition _adjust_default_requests (dict_ : value) : M unit :=
  do! default_to_empty_dict "requests" dict_ in
  do! assign_request_default dict_ "cpu" in
  assign_request_default dict_ "memory".

(** ** Build and inspection parameters *)

Definition hardware_parameters : list (string * string) :=
  [("cpu_family", "CPU_FAMILY"); ("cpu_model", "CPU_MODEL");
   ("physical_cpus", "PHYSICAL_CPUS"); ("processor", "PROCESSOR")].

(** [if key in hardware_specification: parameters[name] = hardware_specification[key]],
    for each of the four hardware keys in turn. *)
Fixpoint copy_hardware_parameters (hardware_specification parameters : value)
    (keys : list (string * string)) : M unit :=
  match keys with
  | [] => ret tt
  | (key, name) :: keys' =>
      let! present := py_contains key hardware_specification in
      do! (if present then
             let! v := py_getitem hardware_specification key in
             py_setitem parameters name v
           else ret tt) in
      copy_hardware_parameters hardware_specification parameters keys'
  end.

Definition _construct_parameters_dict (specification : value) : M (value * bool) :=
  let! parameters := new_dict [] in
  let! empty := new_dict [] in
  let! requests := py_get specification "requests" empty in
  let! has_hardware := py_contains "hardware" requests in
  if has_hardware then
    let! empty1 := new_dict [] in
    let! requests1 := py_get specification "requests" empty1 in
    let! empty2 := new_dict [] in
    let! hardware_specification := py_get requests1 "hardware" empty2 in
    do! copy_hardware_parameters hardware_specification parameters hardware_parameters in
    ret (parameters, true)
  else ret (parameters, false).

(** ** Request handlers

    The collaborators outside this module are taken as given: the Dockerfile
    generator, the clock, the orchestrator client, and the module's global
    namespace at the time of the call. *)

(** Names bound at module level in [api_v1.py]: the attributes every
    module has, the imports, the three module constants and the functions. *)
Definition module_names : list string :=
  ["__name__"; "__doc__"; "__package__"; "__loader__"; "__spec__"; "__file__";
   "__cached__"; "__builtins__";
   "os"; "logging"; "json"; "random"; "re"; "urlparse"; "deprecated";
   "OpenShift"; "WorkflowManager"; "datetime2datetime_str"; "NotFoundException";
   "Configuration"; "create_dockerfile"; "ScriptObtainingError";
   "_LOGGER"; "_OPENSHIFT"; "_DEFAULT_REQUESTS";
   "_construct_parameters_dict"; "_do_create_dockerfile"; "post_generate_dockerfile";
   "_adjust_default_requests"; "_parse_specification"; "_unparse_specification";
   "post_inspection"; "get_inspection_job_log"; "get_inspection_job_logs";
   "get_inspection_build_log"; "get_inspection_status"; "get_inspection_specification"].

(** A global namespace of this module binds module-level names only. *)
Definition module_namespace (globals : list (string * value)) : Prop :=
  forall x, x ∈ dict_keys globals -> x ∈ module_names.

(** A name that the function body never assigns is read from the global
    namespace of the module; a name found neither there nor among the
    built-ins (none of which is called [inspection_id]) raises [NameError]. *)
Definition load_global (globals : list (string * value)) (x : string) : M value :=
  match dict_lookup x globals with
  | Some v => ret v
  | None => raise NameError
  end.

Definition is_ScriptObtainingError (e : exn) : bool :=
  match e with ScriptObtainingError _ => true | _ => false end.

Definition exn_message (e : exn) : string :=
  match e with ScriptObtainingError msg => msg | _ => EmptyString end.

Section Handlers.

Variable create_dockerfile : value -> M (value * value).
Variable datetime2datetime_str : M string.
Variable schedule_inspection : value -> value -> string -> value -> M value.
Variable globals : list (string * value).

Definition _do_create_dockerfile (specification : value) : M (value * value) :=
  try_except (create_dockerfile specification) is_ScriptObtainingError
    (fun exc => ret (VNone, VStr (exn_message exc))).

(** [dockerfile.replace("'", "''")]; only strings have the method. *)
Definition replace_quotes (dockerfile : value) : M value :=
  match dockerfile with
  | VStr s => ret (VStr (double_quotes s))
  | _ => raise AttributeError
  end.

Definition is_None (v : value) : bool :=
  match v with VNone => true | _ => false end.

(** The [return] statement of the success branch (lines 209-217): the
    dictionary display evaluates [inspection_id] first. *)
Definition success_response (specification workflow_id : value) (target : string)
  : M (value * Z) :=
  let! inspection_id := load_global globals "inspection_id" in
  let! body := new_dict [("inspection_id", inspection_id);
                         ("parameters", specification);
                         ("workflow_id", workflow_id);
                         ("workflow_target", VStr target)] in
  ret (body, 202).

(** The body of [post_inspection] up to and including the scheduling call
    (lines 171-203): either the early error response, or the
    specification, workflow identifier and target the success branch goes
    on with. *)
Definition post_inspection_schedule (fuel : nat) (specification : value)
  : M ((value * Z) + (value * value * string)) :=
  let! (dockerfile, run_job_or_error) := _do_create_dockerfile specification in
  if is_None dockerfile then
    let! body := new_dict [("parameters:", specification); ("error", run_job_or_error)] in
    ret (inl (body, 400))
  else
    let run_job := run_job_or_error in
    let! specification := _parse_specification fuel specification in
    let! run := py_getitem specification "run" in
    do! _adjust_default_requests run in
    let! build := py_getitem specification "build" in
    do! _adjust_default_requests build in
    let! empty := new_dict [] in
    let! build := py_get specification "build" empty in
    let! (parameters, use_hw_template) := _construct_parameters_dict build in
    let! created := datetime2datetime_str in
    do! py_setitem specification "@created" (VStr created) in
    let! run_job_set := truthy run_job in
    let target := if run_job_set then "inspection-run-result" else "inspection-build" in
    let! dockerfile := replace_quotes dockerfile in
    let! workflow_id := schedule_inspection dockerfile specification target parameters in
    ret (inr (specification, workflow_id, target)).

Definition post_inspection (fuel : nat) (specification : value) : M (value * Z) :=
  let! reached := post_inspection_schedule fuel specification in
  match reached with
  | inl response => ret response
  | inr (specification, workflow_id, target) =>
      success_response specification workflow_id target
  end.

End Handlers.

(** ** Documents as trees *)

#[local] Set Warnings "-register-all".

Inductive doc : Type :=
  | DNone
  | DBool (b : bool)
  | DInt (z : Z)
  | DStr (s : string)
  | DList (elts : list doc)
  | DDict (items : list (string * doc)).

Fixpoint depth (d : doc) : nat :=
  match d with
  | DList elts => S (list_max (map depth elts))
  | DDict items => S (list_max (map (fun kd => depth (snd kd)) items))
  | _ => O
  end.

(** Apply [f] to every string leaf. *)
Fixpoint map_strings (f : string -> string) (d : doc) : doc :=
  match d with
  | DStr s => DStr (f s)
  | DList elts => DList (map (map_strings f) elts)
  | DDict items => DDict (map (fun kd => (fst kd, map_strings f (snd kd))) items)
  | _ => d
  end.

(** Every string leaf satisfies [p]. *)
Fixpoint all_strings (p : string -> bool) (d : doc) : bool :=
  match d with
  | DStr s => p s
  | DList elts => forallb (all_strings p) elts
  | DDict items => forallb (fun kd => all_strings p (snd kd)) items
  | _ => true
  end.

(** The value a walker returns for [v]: strings are replaced, everything
    else (references included) is returned as it is. *)
Definition map_value (f : string -> string) (v : value) : value :=
  match v with
  | VStr s => VStr (f s)
  | _ => v
  end.

(** What a walker leaves in a container it has visited. *)
Definition map_object (f : string -> string) (o : object) : object :=
  match o with
  | ODict items => ODict (map (fun kv => (fst kv, map_value f (snd kv))) items)
  | OList elts => OList (map (map_value f) elts)
  end.

(** [tree_at h v d fp]: in the store [h] the value [v] is the root of a
    tree-shaped representation of the document [d] (no container is
    reachable along two paths), and [fp] lists the containers it occupies. *)
Inductive tree_at (h : heap) : value -> doc -> list loc -> Prop :=
  | tree_none : tree_at h VNone DNone []
  | tree_bool b : tree_at h (VBool b) (DBool b) []
  | tree_int z : tree_at h (VInt z) (DInt z) []
  | tree_str s : tree_at h (VStr s) (DStr s) []
  | tree_list l elts ds fp :
      h !! l = Some (OList elts) ->
      trees_at h elts ds fp ->
      l ∉ fp ->
      tree_at h (VRef l) (DList ds) (l :: fp)
  | tree_dict l items ditems fp :
      h !! l = Some (ODict items) ->
      map fst ditems = map fst items ->
      NoDup (map fst items) ->
      trees_at h (map snd items) (map snd ditems) fp ->
      l ∉ fp ->
      tree_at h (VRef l) (DDict ditems) (l :: fp)
with trees_at (h : heap) : list value -> list doc -> list loc -> Prop :=
  | trees_nil : trees_at h [] [] []
  | trees_cons v d fp vs ds fps :
      tree_at h v d fp ->
      trees_at h vs ds fps ->
      (forall x, x ∈ fp -> x ∉ fps) ->
      trees_at h (v :: vs) (d :: ds) (fp ++ fps).

Scheme tree_at_mut := Minimality for tree_at Sort Prop
  with trees_at_mut := Minimality for trees_at Sort Prop.

Combined Scheme tree_at_mutind from tree_at_mut, trees_at_mut.

(** The effect of a walker on the containers [fp] of a tree: each has been
    mapped once and nothing else has changed. *)
Definition walk_effect (f : string -> string) (fp : list loc) (h2 h3 : heap) : Prop :=
  length h3 = length h2 /\
  (forall x, x ∈ fp -> h3 !! x = map_object f <$> (h2 !! x)) /\
  (forall x, x ∉ fp -> h3 !! x = h2 !! x).

(** ** The codec on documents

    What the codec computes on a tree-shaped document, as pure functions on
    [doc]; the theorems below relate them to the functions on the store. *)

(** [repr] of a document. *)
Fixpoint doc_repr (d : doc) : string :=
  match d with
  | DNone => "None"
  | DBool true => "True"
  | DBool false => "False"
  | DInt z => pretty z
  | DStr s => repr_str s
  | DList elts => "[" ++ String.concat ", " (map doc_repr elts) ++ "]"
  | DDict items =>
      "{" ++ String.concat ", "
               (map (fun kd => repr_str (fst kd) ++ ": " ++ doc_repr (snd kd)) items) ++ "}"
  end.

Definition doc_str (d : doc) : string :=
  match d with
  | DStr s => s
  | _ => doc_repr d
  end.

Definition doc_int (d : doc) : Z + exn :=
  match d with
  | DInt z => inl z
  | DBool b => inl (if b then 1 else 0)
  | DStr s =>
      match int_of_string s with
      | Some z => inl z
      | None => inr ValueError
      end
  | _ => inr TypeError
  end.

(** An item of the dictionary that was copied, as seen after a walker ran
    on the copy: a string item is as it was (only the copy's slot was
    reassigned), a nested container is shared with the copy and has been
    walked. *)
Definition shared_after (f : string -> string) (d : doc) : doc :=
  match d with
  | DStr s => DStr s
  | _ => map_strings f d
  end.

Definition map_items (g : doc -> doc) (items : list (string * doc)) : list (string * doc) :=
  map (fun kd => (fst kd, g (snd kd))) items.

Fixpoint cast_to_str_items (original current : list (string * doc)) (keys : list string)
  : list (string * doc) :=
  match keys with
  | [] => current
  | key :: keys' =>
      match dict_lookup key original with
      | None => cast_to_str_items original current keys'
      | Some d =>
          cast_to_str_items original (dict_assign key (DStr (doc_str d)) current) keys'
      end
  end.

Definition default_item (key : string) (items : list (string * doc)) : list (string * doc) :=
  if has_key key items then items else dict_assign key (DDict []) items.

Definition parse_items (items : list (string * doc)) : list (string * doc) :=
  default_item "run"
    (default_item "build"
       (cast_to_str_items (map_items (shared_after escape_str) items)
          (map_items (map_strings escape_str) items) int_to_str)).

Fixpoint cast_to_int_items (original current : list (string * doc)) (keys : list string)
  : list (string * doc) + exn :=
  match keys with
  | [] => inl current
  | key :: keys' =>
      if has_key key current then
        match dict_lookup key original with
        | None => inr KeyError
        | Some d =>
            match doc_int d with
            | inl z => cast_to_int_items original (dict_assign key (DInt z) current) keys'
            | inr e => inr e
            end
        end
      else cast_to_int_items original current keys'
  end.

Definition unparse_items (items : list (string * doc)) : list (string * doc) + exn :=
  cast_to_int_items (map_items (shared_after unescape_str) items)
    (map_items (map_strings unescape_str) items) str_to_int.

(** Read the document rooted at [v] back from the store. *)
Fixpoint read_doc (fuel : nat) (h : heap) (v : value) : option doc :=
  match fuel with
  | O => None
  | S n =>
      match v with
      | VNone => Some DNone
      | VBool b => Some (DBool b)
      | VInt z => Some (DInt z)
      | VStr s => Some (DStr s)
      | VRef l =>
          match h !! l with
          | Some (ODict items) =>
              option_map DDict
                (mapM (fun kv : string * value =>
                         option_map (fun d => (fst kv, d)) (read_doc n h (snd kv))) items)
          | Some (OList elts) => option_map DList (mapM (read_doc n h) elts)
          | None => None
          end
      end
  end.

(** Store the documents [ds] one after the other with [store]. *)
Fixpoint store_each {A B} (store : A -> heap -> B * heap) (ds : list A) (h : heap)
  : list B * heap :=
  match ds with
  | [] => ([], h)
  | d :: ds' =>
      let '(v, h1) := store d h in
      let '(vs, h2) := store_each store ds' h1 in
      (v :: vs, h2)
  end.

(** Build a fresh copy of a document at the end of the store, children
    first. *)
Fixpoint store_doc (d : doc) (h : heap) : value * heap :=
  match d with
  | DNone => (VNone, h)
  | DBool b => (VBool b, h)
  | DInt z => (VInt z, h)
  | DStr s => (VStr s, h)
  | DList elts =>
      let '(vs, h') := store_each store_doc elts h in
      (VRef (length h'), (h' ++ [OList vs])%list)
  | DDict items =>
      let '(kvs, h') :=
        store_each (fun (kd : string * doc) h =>
                      let '(v, h1) := store_doc (snd kd) h in ((fst kd, v), h1))
                   items h in
      (VRef (length h'), (h' ++ [ODict kvs])%list)
  end.

(** The keys of every dictionary of the document are pairwise distinct. *)
Fixpoint keys_distinct (d : doc) : bool :=
  match d with
  | DList elts => forallb keys_distinct elts
  | DDict items =>
      bool_decide (NoDup (map fst items)) &&
      forallb (fun kd => keys_distinct (snd kd)) items
  | _ => true
  end.

(** What [store_doc] establishes for one document. *)
Definition stored_as_tree (d : doc) : Prop :=
  forall h, exists fp,
    tree_at (snd (store_doc d h)) (fst (store_doc d h)) d fp /\
    (forall x, x ∈ fp -> (length h <= x)%nat) /\
    (length h <= length (snd (store_doc d h)))%nat /\
    (forall x, (x < length h)%nat -> snd (store_doc d h) !! x = h !! x).

(** Run a computation on a document freshly stored in the empty store and
    read the result back. *)
Definition on_document (fuel : nat) (f : value -> M value) (d : doc) : option doc + exn :=
  let '(v, h) := store_doc d [] in
  match f v h with
  | Ok r h' =>
      match read_doc fuel h' r with
      | Some d' => inl (Some d')
      | None => inl None
      end
  | Raise e _ => inr e
  end.

(** ** [get_inspection_job_log]

    The handler touches no shared object, so it is modelled over documents;
    a statement either falls through, returns from the function, or raises.
    (The [deprecated] decorator only emits a warning before the call, and
    the logging calls are left out.) *)

Inductive completion (A : Type) : Type :=
  | Next (a : A)
  | Return (r : doc * Z)
  | Throw (e : exn).

Arguments Next {A} a.
Arguments Return {A} r.
Arguments Throw {A} e.

Definition then_ {A B} (s : completion A) (k : A -> completion B) : completion B :=
  match s with
  | Next a => k a
  | Return r => Return r
  | Throw e => Throw e
  end.

(** [try: body  except E: handler] *)
Definition try_ {A} (body : completion A) (catches : exn -> bool)
    (handler : exn -> completion A) : completion A :=
  match body with
  | Throw e => if catches e then handler e else Throw e
  | _ => body
  end.

Definition call {A} (r : A + exn) : completion A :=
  match r with
  | inl a => Next a
  | inr e => Throw e
  end.

Definition is_NotFoundException (e : exn) : bool :=
  match e with NotFoundException => true | _ => false end.


Definition doc_truthy (d : doc) : bool :=
  match d with
  | DNone => false
  | DBool b => b
  | DInt z => negb (z =? 0)
  | DStr s => negb (String.eqb s EmptyString)
  | DList elts => negb (Nat.eqb (length elts) 0)
  | DDict items => negb (Nat.eqb (length items) 0)
  end.





Section JobLog.

(** [_OPENSHIFT.get_job_log(inspection_id, Configuration.AMUN_INSPECTION_NAMESPACE)] *)
Variable get_job_log : string -> doc + exn.
Variable json_loads : doc -> doc + exn.


End JobLog.

(** ** The other read-only handlers

    As [get_inspection_job_log], these are modelled over documents, with the
    orchestrator client's methods and [json.loads] as given functions; the
    client's pod log is a string and its list of pod ids a list of strings,
    as the source annotates them. *)

(** [d[k]] on a document. *)
Definition doc_getitem (d : doc) (k : string) : doc + exn :=
  match d with
  | DDict items =>
      match dict_lookup k items with
      | Some v => inl v
      | None => inr KeyError
      end
  | _ => inr TypeError
  end.

(** [d.get(k)] on a document. *)
Definition doc_get (d : doc) (k : string) : doc + exn :=
  match d with
  | DDict items =>
      match dict_lookup k items with
      | Some v => inl v
      | None => inl DNone
      end
  | _ => inr AttributeError
  end.

(** [d == s] for a string [s]. *)
Definition doc_is_str (d : doc) (s : string) : bool :=
  match d with
  | DStr s' => String.eqb s' s
  | _ => false
  end.

(** The value of a call to a function whose body completed as [c], where the
    caller unpacks a pair: a body that falls through returns [None], which
    cannot be unpacked. *)
Definition call_function {A} (c : completion A) : completion (doc * Z) :=
  match c with
  | Return r => Next r
  | Throw e => Throw e
  | Next _ => Throw TypeError
  end.

(** [json.JSONDecodeError], a class of its own below [ValueError]. *)
Definition JSONDecodeError : exn := OtherError "JSONDecodeError".

Definition is_JSONDecodeError (e : exn) : bool :=
  match e with
  | OtherError name => String.eqb name "JSONDecodeError"
  | _ => false
  end.

Definition response (key : string) (v : doc) (parameters : doc) (status : Z) : doc * Z :=
  (DDict [(key, v); ("parameters", parameters)], status).

Definition response_with_status (message : string) (inspection_status parameters : doc)
    (status : Z) : doc * Z :=
  (DDict [("error", DStr message); ("status", inspection_status);
          ("parameters", parameters)], status).

Section ReadHandlers.

(** [_OPENSHIFT.get_pod_log(pod, namespace)] *)
Variable get_pod_log : string -> string + exn.
(** [_OPENSHIFT.get_workflow(label_selector=..., namespace=...)], by label selector *)
Variable get_workflow : string -> doc + exn.
Variable get_pod_status_report : string -> doc + exn.
Variable get_job_status_report : string -> doc + exn.
(** [_OPENSHIFT._get_pod_ids_from_job(inspection_id, namespace)] *)
Variable get_pod_ids_from_job : string -> list string + exn.
Variable json_loads : string -> doc + exn.

Definition get_inspection_build_log (inspection_id : string) : completion doc :=
  let parameters := DDict [("inspection_id", DStr inspection_id)] in
  then_
    (try_ (call (get_pod_log (inspection_id ++ "-1-build"))) is_NotFoundException
       (fun _ =>
          Return (response "error"
                    (DStr "Build log with for the given inspection id was not found")
                    parameters 404)))
    (fun status => Return (response "log" (DStr status) parameters 200)).

Definition get_inspection_status (inspection_id : string) : completion doc :=
  let parameters := DDict [("inspection_id", DStr inspection_id)] in
  then_
    (try_
       (then_ (call (get_workflow ("inspection_id=" ++ inspection_id)))
          (fun wf => call (doc_getitem wf "status")))
       is_NotFoundException
       (fun exc =>
          Return (response "error"
                    (DStr "A Workflow for the given inspection id was not found")
                    parameters 404)))
    (fun workflow_status =>
       then_
         (try_ (call (get_pod_status_report (inspection_id ++ "-1-build")))
            is_NotFoundException
            (fun _ =>
               Return (response "error" (DStr "The given inspection id was not found")
                         parameters 404)))
         (fun build_status =>
            then_
              (try_ (call (get_job_status_report inspection_id)) is_NotFoundException
                 (fun _ => Next DNone))
              (fun job_status =>
                 Return (response "status"
                           (DDict [("build", build_status); ("job", job_status);
                                   ("workflow", workflow_status)])
                           parameters 200)))).

(** [for pod_id in pod_ids: log = get_pod_log(pod_id, ...); pod_logs.append(log)] *)
Fixpoint collect_pod_logs (pod_ids : list string) : completion (list string) :=
  match pod_ids with
  | [] => Next []
  | pod_id :: pod_ids' =>
      then_ (call (get_pod_log pod_id))
        (fun log => then_ (collect_pod_logs pod_ids') (fun logs => Next (log :: logs)))
  end.

(** The loop over [zip(pod_ids, pod_logs)]: a log that [json.loads] rejects
    with [JSONDecodeError] is skipped. *)
Fixpoint load_pod_logs (pod_logs : list string) : completion (list doc) :=
  match pod_logs with
  | [] => Next []
  | pod_log :: pod_logs' =>
      then_
        (try_ (then_ (call (json_loads pod_log)) (fun log => Next (Some log)))
           is_JSONDecodeError (fun _ => Next None))
        (fun loaded =>
           then_ (load_pod_logs pod_logs')
             (fun logs =>
                Next (match loaded with Some log => log :: logs | None => logs end)))
  end.

Definition get_inspection_job_logs (inspection_id : string) : completion doc :=
  let parameters := DDict [("inspection_id", DStr inspection_id)] in
  then_ (call_function (get_inspection_status inspection_id))
    (fun '(response_, _) =>
       then_ (call (doc_getitem response_ "status"))
         (fun inspection_status =>
            then_ (call (doc_getitem inspection_status "build"))
              (fun build =>
                 then_ (call (doc_get build "state"))
                   (fun state =>
                      if negb (doc_is_str state "terminated") then
                        Return (response_with_status
                                  "No logs available yet for the given inspection id"
                                  inspection_status parameters 202)
                      else
                        then_
                          (try_
                             (then_ (call (get_pod_ids_from_job inspection_id))
                                (fun pod_ids =>
                                   then_ (collect_pod_logs pod_ids)
                                     (fun pod_logs => Next (pod_ids, pod_logs))))
                             is_NotFoundException
                             (fun exc =>
                                Return (response_with_status
                                          "No pods for the given inspection id was not found"
                                          inspection_status parameters 404)))
                          (fun '(pod_ids, pod_logs) =>
                             then_ (load_pod_logs pod_logs)
                               (fun inspection_logs =>
                                  if negb (existsb doc_truthy inspection_logs) then
                                    Return (response_with_status
                                              "Inspection run did not produce any logs or it was deleted by OpenShift"
                                              inspection_status parameters 404)
                                  else
                                    Return (response "logs" (DList inspection_logs)
                                              parameters 200))))))).

End ReadHandlers.

(** ** [post_generate_dockerfile] *)

Section GenerateDockerfile.

Variable create_dockerfile : value -> M (value * value).

Definition post_generate_dockerfile (specification : value) : M (value * Z) :=
  let! parameters := new_dict [("specification", specification)] in
  let! (dockerfile, error) := _do_create_dockerfile create_dockerfile specification in
  if is_None dockerfile then
    let! body := new_dict [("parameters", parameters); ("error", error)] in
    ret (body, 400)
  else
    let! body := new_dict [("parameters", parameters); ("dockerfile", dockerfile)] in
    ret (body, 200).

End GenerateDockerfile.

(** The items [_construct_parameters_dict] collects from a hardware
    specification (on the store, and on documents): for each of the four
    hardware keys that is present, in their fixed order, the upper-case name
    with the value found. *)
Definition hardware_items {V} (hitems : list (string * V)) : list (string * V) :=
  omap (fun kn : string * string =>
          option_map (fun v => (snd kn, v)) (dict_lookup (fst kn) hitems))
       hardware_parameters.

(** A quote character occurs in the string. *)
Fixpoint has_quote (s : string) : bool :=
  match s with
  | EmptyString => false
  | String c rest => is_quote c || has_quote rest
  end.

(** No string inside a nested container has a quote; a string item itself
    may. *)
Definition nested_quote_free (d : doc) : bool :=
  match d with
  | DStr _ => true
  | _ => all_strings (fun s => negb (has_quote s)) d
  end.

(** ** [get_inspection_specification]

    This handler works on the store: it unparses the stored specification
    and pops an item from the result.  The orchestrator client's
    [get_workflow] and [json.loads] are taken as given; both may allocate. *)

(** The items left by [d.pop(k)]. *)
Fixpoint dict_remove {V} (k : string) (items : list (string * V)) : list (string * V) :=
  match items with
  | [] => []
  | (k', v) :: rest => if String.eqb k k' then rest else (k', v) :: dict_remove k rest
  end.

(** [c.pop(k)] for a string [k]: a dictionary gives up the item or raises
    [KeyError]; [list.pop] takes an index; nothing else has the method. *)
Definition py_pop (c : value) (k : string) : M value :=
  fun h =>
    match c with
    | VRef l =>
        match h !! l with
        | Some (ODict items) =>
            match dict_lookup k items with
            | Some v => Ok v (<[l := ODict (dict_remove k items)]> h)
            | None => Raise KeyError h
            end
        | Some (OList _) => Raise TypeError h
        | None => Raise AttributeError h
        end
    | _ => Raise AttributeError h
    end.

(** The values [iter(c)] yields: the items of a list, the keys of a
    dictionary, the characters of a string; nothing else is iterable. *)
Definition py_iter (c : value) : M (list value) :=
  fun h =>
    match c with
    | VRef l =>
        match h !! l with
        | Some (OList elts) => Ok elts h
        | Some (ODict items) => Ok (map VStr (dict_keys items)) h
        | None => Raise TypeError h
        end
    | VStr s =>
        Ok (map (fun c => VStr (String c EmptyString)) (list_ascii_of_string s)) h
    | _ => Raise TypeError h
    end.

(** [name == "specification"] *)
Definition is_specification (name : value) : bool :=
  match name with
  | VStr s => String.eqb s "specification"
  | _ => false
  end.

(** [(specification_parameter,) = filter(lambda p: p["name"] == "specification", ...)]:
    unpacking into one target takes the first item the filter yields and
    then asks for another one, so the filter tests every remaining candidate
    until it finds a second match ([ValueError]) or runs out; with no match
    at all the unpacking raises [ValueError] as well.  [found] is the match
    seen so far. *)
Fixpoint unpack_one (found : option value) (candidates : list value) : M value :=
  match candidates with
  | [] =>
      match found with
      | Some p => ret p
      | None => raise ValueError
      end
  | p :: rest =>
      let! name := py_getitem p "name" in
      if is_specification name then
        match found with
        | Some _ => raise ValueError
        | None => unpack_one (Some p) rest
        end
      else unpack_one found rest
  end.

Section GetSpecification.

(** [_OPENSHIFT.get_workflow(label_selector=..., namespace=...)], by label selector *)
Variable get_workflow : string -> M value.
(** [json.loads] of a string *)
Variable json_loads : string -> M value.

(** [json.loads(v)]: only strings (and bytes, which are outside the model)
    are accepted. *)
Definition py_json_loads (v : value) : M value :=
  match v with
  | VStr s => json_loads s
  | _ => raise TypeError
  end.

Definition get_inspection_specification (fuel : nat) (inspection_id : string) : M value :=
  let! parameters := new_dict [("inspection_id", VStr inspection_id)] in
  let! found :=
    try_except
      (let! wf := get_workflow ("inspection_id=" ++ inspection_id) in ret (Some wf))
      is_NotFoundException (fun _ => ret None) in
  match found with
  | None =>
      new_dict [("error", VStr "A Workflow for the given inspection id as not found");
                ("parameters", parameters)]
  | Some wf =>
      let! spec := py_getitem wf "spec" in
      let! arguments := py_getitem spec "arguments" in
      let! parameters := py_getitem arguments "parameters" in
      let! candidates := py_iter parameters in
      let! specification_parameter := unpack_one None candidates in
      let! specification := py_getitem specification_parameter "value" in
      let! specification := py_json_loads specification in
      let! specification := _unparse_specification fuel specification in
      let! created := py_pop specification "@created" in
      new_dict [("parameters", parameters); ("specification", specification);
                ("created", created)]
  end.

End GetSpecification.

(** A workflow parameter that is a dictionary with a "name" other than
    "specification". *)
Definition other_parameter (h : heap) (p : value) : Prop :=
  exists l items name,
    p = VRef l /\ h !! l = Some (ODict items) /\
    dict_lookup "name" items = Some name /\ is_specification name = false.

(** A workflow parameter that is a dictionary with a "name", and whether
    that name is "specification". *)
Definition named_parameter (h : heap) (p : value) : Prop :=
  exists l items name,
    p = VRef l /\ h !! l = Some (ODict items) /\ dict_lookup "name" items = Some name.

Definition specification_named (h : heap) (p : value) : bool :=
  match p with
  | VRef l =>
      match h !! l with
      | Some (ODict items) =>
          match dict_lookup "name" items with
          | Some name => is_specification name
          | None => false
          end
      | _ => false
      end
  | _ => false
  end.

(** ** Default requests on documents *)

(** [current or default], for the result [current] of [dict.get]. *)
Definition or_default_doc (current : option doc) (default : string) : doc :=
  match current with
  | Some d => if doc_truthy d then d else DStr default
  | None => DStr default
  end.

(** The two assignments of [_adjust_default_requests] on the items of
    "requests". *)
Definition adjust_requests (requests : list (string * doc)) : list (string * doc) :=
  let requests1 :=
    dict_assign "cpu" (or_default_doc (dict_lookup "cpu" requests) "500m") requests in
  dict_assign "memory" (or_default_doc (dict_lookup "memory" requests1) "256Mi") requests1.

(** [_adjust_default_requests] on the items of a dictionary. *)
Definition adjust_items (items : list (string * doc)) : list (string * doc) + exn :=
  match dict_lookup "requests" (default_item "requests" items) with
  | Some (DDict requests) =>
      inl (dict_assign "requests" (DDict (adjust_requests requests))
             (default_item "requests" items))
  | _ => inr AttributeError
  end.

(** ** What [post_inspection] schedules *)

(** [_adjust_default_requests(specification[key])] on the items of the
    specification. *)
Definition adjust_key (key : string) (items : list (string * doc))
  : list (string * doc) + exn :=
  match dict_lookup key items with
  | Some (DDict sub) =>
      match adjust_items sub with
      | inl sub' => inl (dict_assign key (DDict sub') items)
      | inr e => inr e
      end
  | Some _ => inr TypeError
  | None => inr KeyError
  end.

(** The specification handed to the scheduler: parsed, with the default
    requests of "run" and of "build", and with the creation time. *)
Definition scheduled_items (created : string) (items : list (string * doc))
  : list (string * doc) + exn :=
  match adjust_key "run" (parse_items items) with
  | inl items1 =>
      match adjust_key "build" items1 with
      | inl items2 => inl (dict_assign "@created" (DStr created) items2)
      | inr e => inr e
      end
  | inr e => inr e
  end.

(** The hardware requests of the build, if any: the items of
    [build["requests"]["hardware"]]. *)
Definition build_hardware (items : list (string * doc)) : option doc :=
  match dict_lookup "build" items with
  | Some (DDict build) =>
      match dict_lookup "requests" build with
      | Some (DDict requests) => dict_lookup "hardware" requests
      | _ => None
      end
  | _ => None
  end.

(** The parameters built from the hardware requests. *)
Definition hardware_parameters_of (hardware : option doc) : option (list (string * doc)) :=
  match hardware with
  | None => Some []
  | Some (DDict hitems) => Some (hardware_items hitems)
  | Some _ => None
  end.

(** The specification as [get_inspection_specification] gives it back: the
    submitted one completed with "build" and "run" and with their default
    requests. *)
Definition with_default_requests (items : list (string * doc))
  : list (string * doc) + exn :=
  match adjust_key "run" (default_item "run" (default_item "build" items)) with
  | inl items1 => adjust_key "build" items1
  | inr e => inr e
  end.

(** ** ASCII text

    [int] and [repr] are modelled on ASCII text; these predicates delimit
    it. *)

Definition is_ascii_char (c : ascii) : bool := (nat_of_ascii c <? 128)%nat.

Fixpoint is_ascii (s : string) : bool :=
  match s with
  | EmptyString => true
  | String c rest => is_ascii_char c && is_ascii rest
  end.

(** Every key and every string leaf is ASCII text. *)
Fixpoint doc_ascii (d : doc) : bool :=
  match d with
  | DStr s => is_ascii s
  | DList elts => forallb doc_ascii elts
  | DDict items => forallb (fun kd => is_ascii (fst kd) && doc_ascii (snd kd)) items
  | _ => true
  end.

(** [str(d)] is within the model: [d] is a string, which [str] returns as
    it is, or all the text printed by [repr] is ASCII. *)
Definition str_modelled (d : doc) : bool :=
  match d with
  | DStr _ => true
  | _ => doc_ascii d
  end.

(** ** The escaping, in the words of the amended claim

    Each quote character that is not immediately followed by another quote
    is replaced by two quotes; every other character is kept.  The text is
    taken position by position, looking at the character after it. *)

Definition followed_by_quote (cs : list ascii) (i : nat) : bool :=
  match cs !! S i with
  | Some c => is_quote c
  | None => false
  end.

Definition escape_position (cs : list ascii) (i : nat) (c : ascii) : list ascii :=
  if is_quote c && negb (followed_by_quote cs i) then [quote; quote] else [c].

Definition escape_by_position (s : string) : string :=
  let cs := list_ascii_of_string s in
  string_of_list_ascii (concat (imap (escape_position cs) cs)).

(** The last character is a quote. *)
Fixpoint ends_with_quote (s : string) : bool :=
  match s with
  | EmptyString => false
  | String c EmptyString => is_quote c
  | String _ rest => ends_with_quote rest
  end.

(** Trees in concrete stores, with the footprint left open. *)

Ltac solve_not_in :=
  simpl;
  let H := fresh "H" in
  intros H;
  repeat (apply elem_of_cons in H as [H|H]; [discriminate|]);
  now apply elem_of_nil in H.

Ltac solve_disjoint :=
  simpl;
  let x := fresh "x" in
  let H := fresh "H" in
  intros x H;
  repeat (apply elem_of_cons in H as [H|H]; [subst x; solve_not_in|]);
  now apply elem_of_nil in H.

Ltac solve_tree :=
  lazymatch goal with
  | |- tree_at _ (VRef _) (DDict _) _ =>
      eapply tree_dict;
      [ reflexivity | reflexivity
      | apply (bool_decide_unpack _); vm_compute; exact I
      | solve_trees | solve_not_in ]
  | |- tree_at _ (VRef _) (DList _) _ =>
      eapply tree_list; [ reflexivity | solve_trees | solve_not_in ]
  | |- tree_at _ _ _ _ => constructor
  end
with solve_trees :=
  simpl;
  lazymatch goal with
  | |- trees_at _ [] [] _ => constructor
  | |- trees_at _ (_ :: _) (_ :: _) _ =>
      eapply trees_cons; [ solve_tree | solve_trees | solve_disjoint ]
  end.

(** ** Tactics for concrete stores *)

Ltac solve_NoDup := apply (bool_decide_unpack _); vm_compute; exact I.

Ltac solve_tree_one_scalar :=
  simpl;
  first [ reflexivity
        | solve_NoDup
        | apply not_elem_of_nil
        | (apply (trees_cons _ _ _ [] _ _ []); [constructor | constructor |];
           intros x Hx; now apply elem_of_nil in Hx) ].

(** * Theorems *)

Local Open Scope list_scope.

(** * Properties of the two substitutions *)

Lemma is_quote_true c : is_quote c = true -> c = quote.
Proof. unfold is_quote. apply Ascii.eqb_eq. Qed.

Lemma is_quote_quote : is_quote quote = true.
Proof. reflexivity. Qed.

Lemma escape_str_other c rest :
  is_quote c = false -> escape_str (String c rest) = String c (escape_str rest).
Proof. intros Hc. simpl. now rewrite Hc. Qed.

Lemma escape_str_last_quote rest :
  starts_with_quote rest = false ->
  escape_str (String quote rest) = String quote (String quote (escape_str rest)).
Proof. intros Hr. simpl. now rewrite Hr. Qed.

Lemma escape_str_inner_quote rest :
  starts_with_quote rest = true ->
  escape_str (String quote rest) = String quote (escape_str rest).
Proof. intros Hr. simpl. now rewrite Hr. Qed.

Lemma escape_str_starts s : starts_with_quote (escape_str s) = starts_with_quote s.
Proof.
  destruct s as [|c rest]; [reflexivity|].
  simpl. destruct (is_quote c) eqn:Hc; simpl.
  - destruct (starts_with_quote rest); simpl; [exact Hc | reflexivity].
  - exact Hc.
Qed.

Lemma unescape_str_other c rest :
  is_quote c = false -> unescape_str (String c rest) = String c (unescape_str rest).
Proof.
  intros Hc. simpl. rewrite Hc. simpl. now destruct rest.
Qed.

Lemma unescape_str_pair rest :
  unescape_str (String quote (String quote rest)) = String quote (unescape_str rest).
Proof. reflexivity. Qed.

Lemma unescape_str_single rest :
  starts_with_quote rest = false ->
  unescape_str (String quote rest) = String quote (unescape_str rest).
Proof.
  intros Hr. destruct rest as [|c rest']; [reflexivity|].
  simpl in Hr. cbn [unescape_str]. rewrite Hr, andb_false_r. reflexivity.
Qed.

Lemma no_triple_quote_tail c rest :
  no_triple_quote (String c rest) = true -> no_triple_quote rest = true.
Proof.
  destruct rest as [|c2 [|c3 rest']]; try reflexivity.
  cbn [no_triple_quote]. intros H. now apply andb_true_iff in H as [_ H].
Qed.

Lemma no_triple_quote_head rest :
  no_triple_quote (String quote (String quote rest)) = true ->
  starts_with_quote rest = false.
Proof.
  destruct rest as [|c3 rest']; [reflexivity|].
  cbn [no_triple_quote starts_with_quote]. rewrite is_quote_quote. simpl.
  intros H. apply andb_true_iff in H as [H _]. now apply negb_true_iff in H.
Qed.

(** Unescaping undoes escaping on strings without three quotes in a row. *)
Lemma unescape_escape_str s :
  no_triple_quote s = true -> unescape_str (escape_str s) = s.
Proof.
  remember (String.length s) as n eqn:Hn. revert s Hn.
  induction n as [n IH] using lt_wf_ind. intros s Hn Hs.
  destruct s as [|c rest]; [reflexivity|].
  pose proof (no_triple_quote_tail _ _ Hs) as Hrest.
  destruct (is_quote c) eqn:Hc.
  - apply is_quote_true in Hc. subst c.
    destruct (starts_with_quote rest) eqn:Hr.
    + destruct rest as [|c2 rest2]; [discriminate|].
      simpl in Hr. apply is_quote_true in Hr. subst c2.
      pose proof (no_triple_quote_head _ Hs) as Hr2.
      rewrite escape_str_inner_quote by reflexivity.
      rewrite (escape_str_last_quote _ Hr2).
      rewrite unescape_str_pair.
      rewrite unescape_str_single by (now rewrite escape_str_starts).
      rewrite (IH (String.length rest2)); try reflexivity.
      * simpl in Hn. lia.
      * now apply no_triple_quote_tail in Hrest.
    + rewrite (escape_str_last_quote _ Hr), unescape_str_pair.
      rewrite (IH (String.length rest)); try reflexivity; [|assumption].
      simpl in Hn. lia.
  - rewrite (escape_str_other _ _ Hc), (unescape_str_other _ _ Hc).
    rewrite (IH (String.length rest)); try reflexivity; [|assumption].
    simpl in Hn. lia.
Qed.

(** Escaping lengthens every maximal run of quotes by one. *)
Lemma escape_str_run n rest :
  starts_with_quote rest = false ->
  escape_str (quotes (S n) ++ rest)%string = (quotes (S (S n)) ++ escape_str rest)%string.
Proof.
  intros Hr. induction n as [|n IH].
  - simpl quotes. simpl append. now apply escape_str_last_quote.
  - change (quotes (S (S n)) ++ rest)%string with (String quote (quotes (S n) ++ rest)%string).
    rewrite escape_str_inner_quote by reflexivity.
    now rewrite IH.
Qed.

Lemma no_triple_quote_cons3 c1 c2 c3 rest :
  no_triple_quote (String c1 (String c2 (String c3 rest))) =
  negb (is_quote c1 && is_quote c2 && is_quote c3) &&
  no_triple_quote (String c2 (String c3 rest)).
Proof. reflexivity. Qed.

Lemma no_triple_quote_other c rest :
  is_quote c = false -> no_triple_quote (String c rest) = no_triple_quote rest.
Proof.
  intros Hc. destruct rest as [|c2 [|c3 rest']]; try reflexivity.
  rewrite no_triple_quote_cons3, Hc. reflexivity.
Qed.

Lemma no_triple_quote_single rest :
  starts_with_quote rest = false ->
  no_triple_quote (String quote rest) = no_triple_quote rest.
Proof.
  intros Hr. destruct rest as [|c2 [|c3 rest']]; try reflexivity.
  simpl in Hr. rewrite no_triple_quote_cons3, Hr, andb_false_r. reflexivity.
Qed.

Lemma no_triple_quote_pair rest :
  starts_with_quote rest = false ->
  no_triple_quote (String quote (String quote rest)) = no_triple_quote rest.
Proof.
  intros Hr. destruct rest as [|c3 rest']; [reflexivity|].
  rewrite no_triple_quote_cons3. simpl in Hr. rewrite Hr, andb_false_r.
  cbn [negb andb]. rewrite no_triple_quote_single by exact Hr. reflexivity.
Qed.

(** The round trip never lengthens a string, and shortens it as soon as
    three quotes occur in a row. *)
Lemma unescape_escape_length s :
  (String.length (unescape_str (escape_str s)) <= String.length s)%nat /\
  (no_triple_quote s = false ->
   (String.length (unescape_str (escape_str s)) < String.length s)%nat).
Proof.
  remember (String.length s) as n eqn:Hn. revert s Hn.
  induction n as [n IH] using lt_wf_ind. intros s Hn.
  destruct s as [|c rest]; [simpl in *; subst; split; [lia|discriminate]|].
  destruct (is_quote c) eqn:Hc.
  - apply is_quote_true in Hc. subst c.
    destruct (starts_with_quote rest) eqn:Hr.
    + destruct rest as [|c2 rest2]; [discriminate|].
      simpl in Hr. apply is_quote_true in Hr. subst c2.
      rewrite escape_str_inner_quote by reflexivity.
      destruct (starts_with_quote rest2) eqn:Hr2.
      * (* three quotes in a row *)
        rewrite (escape_str_inner_quote rest2 Hr2), unescape_str_pair.
        destruct (IH (String.length rest2)) with (s := rest2)
          as [Hle _]; [simpl in *; lia|reflexivity|].
        simpl String.length in *. split; intros; lia.
      * rewrite (escape_str_last_quote _ Hr2), unescape_str_pair.
        rewrite unescape_str_single by (now rewrite escape_str_starts).
        rewrite (no_triple_quote_pair _ Hr2).
        destruct (IH (String.length rest2)) with (s := rest2) as [Hle Hlt];
          [simpl in *; lia|reflexivity|].
        simpl String.length in *. split; [lia|]. intros H. specialize (Hlt H). lia.
    + rewrite (escape_str_last_quote _ Hr), unescape_str_pair.
      rewrite (no_triple_quote_single _ Hr).
      destruct (IH (String.length rest)) with (s := rest) as [Hle Hlt];
        [simpl in *; lia|reflexivity|].
      simpl String.length in *. split; [lia|]. intros H. specialize (Hlt H). lia.
  - rewrite (escape_str_other _ _ Hc), (unescape_str_other _ _ Hc).
    rewrite (no_triple_quote_other _ _ Hc).
    destruct (IH (String.length rest)) with (s := rest) as [Hle Hlt];
      [simpl in *; lia|reflexivity|].
    simpl String.length in *. split; [lia|]. intros H. specialize (Hlt H). lia.
Qed.

(** The strings that survive the round trip are exactly those without
    three quotes in a row. *)
Lemma unescape_escape_str_iff s :
  unescape_str (escape_str s) = s <-> no_triple_quote s = true.
Proof.
  split; [|apply unescape_escape_str].
  intros Heq. destruct (no_triple_quote s) eqn:Hs; [reflexivity|].
  apply (proj2 (unescape_escape_length s)) in Hs. rewrite Heq in Hs. lia.
Qed.

(** * The store *)

Lemma bind_ok {A B} (m : M A) (k : A -> M B) h a h' :
  m h = Ok a h' -> bind m k h = k a h'.
Proof. intros H. unfold bind. now rewrite H. Qed.

Lemma bind_raise {A B} (m : M A) (k : A -> M B) h e h' :
  m h = Raise e h' -> bind m k h = Raise e h'.
Proof. intros H. unfold bind. now rewrite H. Qed.

Lemma dict_lookup_middle {V} (done : list (string * V)) k v rest :
  k ∉ map fst done -> dict_lookup k (done ++ (k, v) :: rest) = Some v.
Proof.
  induction done as [|[k' v'] done IH]; intros Hk; simpl.
  - now rewrite String.eqb_refl.
  - simpl in Hk. apply not_elem_of_cons in Hk as [Hne Hk].
    apply String.eqb_neq in Hne. rewrite Hne. now apply IH.
Qed.

Lemma dict_assign_middle {V} (done : list (string * V)) k v v' rest :
  k ∉ map fst done ->
  dict_assign k v' (done ++ (k, v) :: rest) = done ++ (k, v') :: rest.
Proof.
  induction done as [|[k0 v0] done IH]; intros Hk; simpl.
  - now rewrite String.eqb_refl.
  - simpl in Hk. apply not_elem_of_cons in Hk as [Hne Hk].
    apply String.eqb_neq in Hne. rewrite Hne. now rewrite IH.
Qed.

Lemma dict_lookup_None {V} k (items : list (string * V)) :
  dict_lookup k items = None <-> k ∉ map fst items.
Proof.
  induction items as [|[k' v'] items IH]; simpl.
  - split; [intros _; apply not_elem_of_nil | reflexivity].
  - destruct (String.eqb k k') eqn:E.
    + apply String.eqb_eq in E. subst. split; [discriminate|].
      intros H. exfalso. apply H. apply elem_of_cons. now left.
    + apply String.eqb_neq in E. rewrite IH, not_elem_of_cons. tauto.
Qed.

Lemma dict_assign_new {V} k v (items : list (string * V)) :
  k ∉ map fst items -> dict_assign k v items = items ++ [(k, v)].
Proof.
  induction items as [|[k' v'] items IH]; intros Hk; simpl; [reflexivity|].
  simpl in Hk. apply not_elem_of_cons in Hk as [Hne Hk].
  apply String.eqb_neq in Hne. rewrite Hne. now rewrite IH.
Qed.

Lemma dict_assign_keys_present {V} k v (items : list (string * V)) :
  k ∈ map fst items -> map fst (dict_assign k v items) = map fst items.
Proof.
  induction items as [|[k' v'] items IH]; intros Hk; simpl.
  - now apply elem_of_nil in Hk.
  - destruct (String.eqb k k') eqn:E.
    + apply String.eqb_eq in E. now subst.
    + apply String.eqb_neq in E. simpl. f_equal. apply IH.
      simpl in Hk. apply elem_of_cons in Hk as [Hk|Hk]; [contradiction|assumption].
Qed.

(** Every container of a tree is allocated. *)
Lemma tree_at_allocated h :
  (forall v d fp, tree_at h v d fp -> forall x, x ∈ fp -> (x < length h)%nat) /\
  (forall vs ds fp, trees_at h vs ds fp -> forall x, x ∈ fp -> (x < length h)%nat).
Proof.
  apply tree_at_mutind.
  - intros x Hx. now apply elem_of_nil in Hx.
  - intros b x Hx. now apply elem_of_nil in Hx.
  - intros z x Hx. now apply elem_of_nil in Hx.
  - intros s x Hx. now apply elem_of_nil in Hx.
  - intros l elts ds fp Hl _ IH _ x Hx.
    apply elem_of_cons in Hx as [->|Hx]; [|now apply IH].
    now apply lookup_lt_Some in Hl.
  - intros l items ditems fp Hl _ _ _ IH _ x Hx.
    apply elem_of_cons in Hx as [->|Hx]; [|now apply IH].
    now apply lookup_lt_Some in Hl.
  - intros x Hx. now apply elem_of_nil in Hx.
  - intros v d fp vs ds fps _ IHt _ IHts _ x Hx.
    apply elem_of_app in Hx as [Hx|Hx]; auto.
Qed.

(** Frame: a tree only depends on the containers it occupies. *)
Lemma tree_at_frame h :
  (forall v d fp, tree_at h v d fp ->
     forall h', (forall x, x ∈ fp -> h' !! x = h !! x) -> tree_at h' v d fp) /\
  (forall vs ds fp, trees_at h vs ds fp ->
     forall h', (forall x, x ∈ fp -> h' !! x = h !! x) -> trees_at h' vs ds fp).
Proof.
  apply tree_at_mutind; try (intros; constructor; fail).
  - intros l elts ds fp Hl _ IH Hnin h' Hagree.
    apply tree_list with elts; [| |assumption].
    + rewrite Hagree; [assumption | apply elem_of_cons; now left].
    + apply IH. intros x Hx. apply Hagree. apply elem_of_cons. now right.
  - intros l items ditems fp Hl Hkeys Hnd _ IH Hnin h' Hagree.
    apply tree_dict with items; try assumption.
    + rewrite Hagree; [assumption | apply elem_of_cons; now left].
    + apply IH. intros x Hx. apply Hagree. apply elem_of_cons. now right.
  - intros v d fp vs ds fps _ IHt _ IHts Hdisj h' Hagree.
    constructor; [| |assumption].
    + apply IHt. intros x Hx. apply Hagree, elem_of_app. now left.
    + apply IHts. intros x Hx. apply Hagree, elem_of_app. now right.
Qed.

(** A store that differs from [h] by one application of [map_object f] to
    each container of a tree holds the tree of the mapped document. *)
Lemma tree_at_map f h :
  (forall v d fp, tree_at h v d fp ->
     forall h', (forall x, x ∈ fp -> h' !! x = map_object f <$> (h !! x)) ->
       tree_at h' (map_value f v) (map_strings f d) fp) /\
  (forall vs ds fp, trees_at h vs ds fp ->
     forall h', (forall x, x ∈ fp -> h' !! x = map_object f <$> (h !! x)) ->
       trees_at h' (map (map_value f) vs) (map (map_strings f) ds) fp).
Proof.
  apply tree_at_mutind; try (intros; simpl; constructor; fail).
  - intros l elts ds fp Hl _ IH Hnin h' Hmap. simpl.
    apply tree_list with (map (map_value f) elts); [| |assumption].
    + rewrite Hmap by (apply elem_of_cons; now left). now rewrite Hl.
    + apply IH. intros x Hx. apply Hmap. apply elem_of_cons. now right.
  - intros l items ditems fp Hl Hkeys Hnd _ IH Hnin h' Hmap. simpl.
    apply tree_dict with (map (fun kv => (fst kv, map_value f (snd kv))) items);
      [| | | |assumption].
    + rewrite Hmap by (apply elem_of_cons; now left). now rewrite Hl.
    + rewrite !map_map. simpl. exact Hkeys.
    + rewrite map_map. simpl. exact Hnd.
    + rewrite !map_map. simpl.
      specialize (IH h'). rewrite !map_map in IH. apply IH.
      intros x Hx. apply Hmap. apply elem_of_cons. now right.
  - intros v d fp vs ds fps _ IHt _ IHts Hdisj h' Hmap. simpl.
    constructor; [| |assumption].
    + apply IHt. intros x Hx. apply Hmap, elem_of_app. now left.
    + apply IHts. intros x Hx. apply Hmap, elem_of_app. now right.
Qed.

Lemma depth_list_children elts n :
  (depth (DList elts) < S n)%nat -> Forall (fun d => (depth d < n)%nat) elts.
Proof.
  simpl. intros H.
  assert (Hle : (list_max (map depth elts) <= list_max (map depth elts))%nat) by lia.
  apply list_max_le in Hle. rewrite Forall_map in Hle.
  eapply Forall_impl; [exact Hle|]. simpl. intros d Hd. lia.
Qed.

Lemma depth_dict_children items n :
  (depth (DDict items) < S n)%nat -> Forall (fun d => (depth d < n)%nat) (map snd items).
Proof.
  simpl. intros H.
  assert (Hle : (list_max (map (fun kd => depth (snd kd)) items)
                 <= list_max (map (fun kd => depth (snd kd)) items))%nat) by lia.
  apply list_max_le in Hle. rewrite Forall_map in Hle.
  rewrite Forall_map.
  eapply Forall_impl; [exact Hle|]. simpl. intros d Hd. lia.
Qed.

Lemma walk_strings_tree f h :
  (forall v d fp, tree_at h v d fp ->
     forall n h2, (depth d < n)%nat ->
       (forall x, x ∈ fp -> h2 !! x = h !! x) ->
       exists h3, walk_strings f n v h2 = Ok (map_value f v) h3 /\
                  walk_effect f fp h2 h3) /\
  (forall vs ds fps, trees_at h vs ds fps ->
     forall n h2, Forall (fun d => (depth d < n)%nat) ds ->
       (forall x, x ∈ fps -> h2 !! x = h !! x) ->
       (forall l done todo,
          l ∉ fps -> map snd todo = vs -> NoDup (map fst (done ++ todo)) ->
          h2 !! l = Some (ODict (done ++ todo)) ->
          exists h3,
            for_each_key (walk_strings f n) (VRef l) (map fst todo) h2 = Ok tt h3 /\
            h3 !! l = Some (ODict (done ++ map (fun kv => (fst kv, map_value f (snd kv))) todo)) /\
            length h3 = length h2 /\
            (forall x, x ∈ fps -> h3 !! x = map_object f <$> (h2 !! x)) /\
            (forall x, x ∉ fps -> x <> l -> h3 !! x = h2 !! x)) /\
       (forall l done,
          l ∉ fps -> h2 !! l = Some (OList (done ++ vs)) ->
          exists h3,
            for_each_index (walk_strings f n) l (seq (length done) (length vs)) h2 = Ok tt h3 /\
            h3 !! l = Some (OList (done ++ map (map_value f) vs)) /\
            length h3 = length h2 /\
            (forall x, x ∈ fps -> h3 !! x = map_object f <$> (h2 !! x)) /\
            (forall x, x ∉ fps -> x <> l -> h3 !! x = h2 !! x))).
Proof.
  apply tree_at_mutind.
  - intros [|n] h2 Hn _; [lia|]. exists h2. repeat split; auto.
    intros x Hx. now apply elem_of_nil in Hx.
  - intros b [|n] h2 Hn _; [lia|]. exists h2. repeat split; auto.
    intros x Hx. now apply elem_of_nil in Hx.
  - intros z [|n] h2 Hn _; [lia|]. exists h2. repeat split; auto.
    intros x Hx. now apply elem_of_nil in Hx.
  - intros s [|n] h2 Hn _; [lia|]. exists h2. repeat split; auto.
    intros x Hx. now apply elem_of_nil in Hx.
  - (* list *)
    intros l elts ds fp Hl _ IH Hnin [|n] h2 Hn Hagree; [lia|].
    assert (Hl2 : h2 !! l = Some (OList elts)).
    { rewrite Hagree; [assumption | apply elem_of_cons; now left]. }
    destruct (IH n h2) as [_ IHl].
    { now apply depth_list_children. }
    { intros x Hx. apply Hagree. apply elem_of_cons. now right. }
    destruct (IHl l [] Hnin Hl2) as (h3 & Hrun & Hl3 & Hlen & Hin & Hout).
    exists h3. split.
    + cbn [walk_strings]. rewrite Hl2. simpl in Hrun.
      rewrite (bind_ok _ _ _ _ _ Hrun). reflexivity.
    + split; [assumption|]. split.
      * intros x Hx. apply elem_of_cons in Hx as [->|Hx]; [|now apply Hin].
        rewrite Hl3, Hl2. reflexivity.
      * intros x Hx. apply not_elem_of_cons in Hx as [Hne Hx]. now apply Hout.
  - (* dict *)
    intros l items ditems fp Hl Hkeys Hnd _ IH Hnin [|n] h2 Hn Hagree; [lia|].
    assert (Hl2 : h2 !! l = Some (ODict items)).
    { rewrite Hagree; [assumption | apply elem_of_cons; now left]. }
    destruct (IH n h2) as [IHd _].
    { now apply depth_dict_children. }
    { intros x Hx. apply Hagree. apply elem_of_cons. now right. }
    destruct (IHd l [] items Hnin eq_refl Hnd Hl2) as (h3 & Hrun & Hl3 & Hlen & Hin & Hout).
    exists h3. split.
    + cbn [walk_strings]. rewrite Hl2. unfold dict_keys.
      rewrite (bind_ok _ _ _ _ _ Hrun). reflexivity.
    + split; [assumption|]. split.
      * intros x Hx. apply elem_of_cons in Hx as [->|Hx]; [|now apply Hin].
        rewrite Hl3, Hl2. reflexivity.
      * intros x Hx. apply not_elem_of_cons in Hx as [Hne Hx]. now apply Hout.
  - (* no children *)
    intros n h2 _ _. split.
    + intros l done todo _ Htodo _ Hl2. apply map_eq_nil in Htodo. subst todo.
      exists h2. simpl. rewrite app_nil_r in *. repeat split; auto.
      intros x Hx. now apply elem_of_nil in Hx.
    + intros l done _ Hl2. exists h2. simpl. repeat split; auto.
      intros x Hx. now apply elem_of_nil in Hx.
  - (* a child and its siblings *)
    intros v d fp vs ds fps _ IHt _ IHts Hdisj n h2 Hdepth Hagree.
    apply Forall_cons in Hdepth as [Hd Hds].
    destruct (IHt n h2 Hd) as (h2a & Hwalk & Hlena & Hina & Houta).
    { intros x Hx. apply Hagree, elem_of_app. now left. }
    split.
    + intros l done todo Hl Htodo Hnd Hl2.
      destruct todo as [|[k v0] todo]; [discriminate|].
      simpl in Htodo. injection Htodo as -> Htodo.
      apply not_elem_of_app in Hl as [Hlfp Hlfps].
      assert (Hk : k ∉ map fst done).
      { rewrite map_app in Hnd. apply NoDup_app in Hnd as (_ & Hd' & _).
        intros Hin. apply (Hd' k Hin). simpl. apply elem_of_cons. now left. }
      set (h2b := <[l := ODict ((done ++ [(k, map_value f v)]) ++ todo)]> h2a).
      assert (Hl2a : h2a !! l = Some (ODict (done ++ (k, v) :: todo))).
      { rewrite Houta by assumption. assumption. }
      assert (Hllt : (l < length h2a)%nat) by (now apply lookup_lt_Some in Hl2a).
      destruct (IHts n h2b Hds) as [IHd _].
      { intros x Hx. unfold h2b.
        rewrite list_lookup_insert_ne by (intros ->; contradiction).
        rewrite Houta by (intros Hxfp; now apply (Hdisj x)).
        apply Hagree, elem_of_app. now right. }
      destruct (IHd l (done ++ [(k, map_value f v)]) todo Hlfps Htodo)
        as (h3 & Hrun & Hl3 & Hlen & Hin & Hout).
      { rewrite <- app_assoc. simpl. rewrite map_app in Hnd |- *. exact Hnd. }
      { unfold h2b. now apply list_lookup_insert_eq. }
      exists h3. split; [|split; [|split; [|split]]].
      * cbn [map fst for_each_key].
        assert (Hget : py_getitem (VRef l) k h2 = Ok v h2).
        { unfold py_getitem. rewrite Hl2. now rewrite dict_lookup_middle. }
        rewrite (bind_ok _ _ _ _ _ Hget).
        rewrite (bind_ok _ _ _ _ _ Hwalk).
        assert (Hset : py_setitem (VRef l) k (map_value f v) h2a = Ok tt h2b).
        { unfold py_setitem. rewrite Hl2a. rewrite dict_assign_middle by assumption.
          unfold h2b. now rewrite <- app_assoc. }
        rewrite (bind_ok _ _ _ _ _ Hset). exact Hrun.
      * rewrite Hl3. rewrite <- app_assoc. reflexivity.
      * rewrite Hlen. unfold h2b. rewrite length_insert. exact Hlena.
      * intros x Hx. apply elem_of_app in Hx as [Hx|Hx].
        -- rewrite Hout; [| intros Hxs; now apply (Hdisj x) | intros ->; contradiction].
           unfold h2b. rewrite list_lookup_insert_ne by (intros ->; contradiction).
           now apply Hina.
        -- rewrite Hin by assumption. unfold h2b.
           rewrite list_lookup_insert_ne by (intros ->; contradiction).
           rewrite Houta; [reflexivity | intros Hxfp; now apply (Hdisj x)].
      * intros x Hx Hxl. apply not_elem_of_app in Hx as [Hxfp Hxfps].
        rewrite Hout by assumption. unfold h2b.
        rewrite list_lookup_insert_ne by congruence. now apply Houta.
    + intros l done Hl Hl2.
      apply not_elem_of_app in Hl as [Hlfp Hlfps].
      set (h2b := <[l := OList ((done ++ [map_value f v]) ++ vs)]> h2a).
      assert (Hl2a : h2a !! l = Some (OList (done ++ v :: vs))).
      { rewrite Houta by assumption. assumption. }
      assert (Hllt : (l < length h2a)%nat) by (now apply lookup_lt_Some in Hl2a).
      destruct (IHts n h2b Hds) as [_ IHl].
      { intros x Hx. unfold h2b.
        rewrite list_lookup_insert_ne by (intros ->; contradiction).
        rewrite Houta by (intros Hxfp; now apply (Hdisj x)).
        apply Hagree, elem_of_app. now right. }
      destruct (IHl l (done ++ [map_value f v]) Hlfps)
        as (h3 & Hrun & Hl3 & Hlen & Hin & Hout).
      { unfold h2b. now apply list_lookup_insert_eq. }
      exists h3. split; [|split; [|split; [|split]]].
      * cbn [length seq for_each_index].
        unfold list_item at 1. rewrite Hl2.
        rewrite lookup_app_r by lia. rewrite Nat.sub_diag. cbn [lookup list_lookup].
        rewrite (bind_ok _ _ _ _ _ Hwalk).
        assert (Hset : list_setitem l (length done) (map_value f v) h2a = Ok tt h2b).
        { unfold list_setitem. rewrite Hl2a.
          rewrite bool_decide_eq_true_2 by (rewrite length_app; simpl; lia).
          unfold h2b. do 3 f_equal.
          rewrite insert_app_r_alt by lia. rewrite Nat.sub_diag. simpl.
          now rewrite <- app_assoc. }
        rewrite (bind_ok _ _ _ _ _ Hset).
        rewrite length_app in Hrun. simpl in Hrun.
        replace (S (length done)) with (length done + 1)%nat by lia. exact Hrun.
      * rewrite Hl3. rewrite <- app_assoc. reflexivity.
      * rewrite Hlen. unfold h2b. rewrite length_insert. exact Hlena.
      * intros x Hx. apply elem_of_app in Hx as [Hx|Hx].
        -- rewrite Hout; [| intros Hxs; now apply (Hdisj x) | intros ->; contradiction].
           unfold h2b. rewrite list_lookup_insert_ne by (intros ->; contradiction).
           now apply Hina.
        -- rewrite Hin by assumption. unfold h2b.
           rewrite list_lookup_insert_ne by (intros ->; contradiction).
           rewrite Houta; [reflexivity | intros Hxfp; now apply (Hdisj x)].
      * intros x Hx Hxl. apply not_elem_of_app in Hx as [Hxfp Hxfps].
        rewrite Hout by assumption. unfold h2b.
        rewrite list_lookup_insert_ne by congruence. now apply Houta.
Qed.

(** * Dictionary operations on trees *)

Lemma has_key_true {V} k (items : list (string * V)) :
  has_key k items = true <-> k ∈ map fst items.
Proof.
  unfold has_key. pose proof (dict_lookup_None k items) as H.
  destruct (dict_lookup k items).
  - split; [intros _|reflexivity].
    destruct (decide (k ∈ map fst items)) as [Hin|Hnin]; [assumption|].
    apply H in Hnin. discriminate.
  - split; [discriminate|]. intros Hin. exfalso. now apply H.
Qed.

Lemma has_key_false {V} k (items : list (string * V)) :
  has_key k items = false <-> k ∉ map fst items.
Proof.
  rewrite <- has_key_true. destruct (has_key k items); split; congruence.
Qed.

Lemma has_key_keys {V W} k (a : list (string * V)) (b : list (string * W)) :
  map fst a = map fst b -> has_key k a = has_key k b.
Proof.
  intros Hk. destruct (has_key k b) eqn:Hb.
  - apply has_key_true. rewrite Hk. now apply has_key_true.
  - apply has_key_false. rewrite Hk. now apply has_key_false.
Qed.

Lemma dict_assign_keys {V} k v (items : list (string * V)) :
  map fst (dict_assign k v items) =
  if has_key k items then map fst items else map fst items ++ [k].
Proof.
  destruct (has_key k items) eqn:Hk.
  - apply dict_assign_keys_present. now apply has_key_true.
  - apply has_key_false in Hk. rewrite dict_assign_new by assumption.
    rewrite map_app. reflexivity.
Qed.

Lemma dict_assign_keys_same {V W} k v w (a : list (string * V)) (b : list (string * W)) :
  map fst a = map fst b -> map fst (dict_assign k v a) = map fst (dict_assign k w b).
Proof.
  intros Hk. rewrite !dict_assign_keys, (has_key_keys k a b Hk), Hk. reflexivity.
Qed.

Lemma dict_assign_NoDup {V} k v (items : list (string * V)) :
  NoDup (map fst items) -> NoDup (map fst (dict_assign k v items)).
Proof.
  intros Hnd. rewrite dict_assign_keys. destruct (has_key k items) eqn:Hk; [assumption|].
  apply has_key_false in Hk. apply NoDup_app. split; [assumption|]. split.
  - intros x Hx Hx'. apply list_elem_of_singleton in Hx'. now subst.
  - apply NoDup_singleton.
Qed.

Lemma dict_lookup_assign_eq {V} k v (items : list (string * V)) :
  dict_lookup k (dict_assign k v items) = Some v.
Proof.
  induction items as [|[k' v'] items IH]; simpl.
  - now rewrite String.eqb_refl.
  - destruct (String.eqb k k') eqn:E; simpl.
    + now rewrite String.eqb_refl.
    + now rewrite E.
Qed.

Lemma dict_lookup_assign_ne {V} k k' v (items : list (string * V)) :
  k <> k' -> dict_lookup k' (dict_assign k v items) = dict_lookup k' items.
Proof.
  intros Hne. induction items as [|[k0 v0] items IH]; simpl.
  - apply not_eq_sym in Hne. apply String.eqb_neq in Hne. now rewrite Hne.
  - destruct (String.eqb k k0) eqn:E; simpl.
    + apply String.eqb_eq in E. subst k0.
      apply not_eq_sym in Hne. apply String.eqb_neq in Hne. now rewrite Hne.
    + now rewrite IH.
Qed.

Lemma tree_dict_inv h v ditems fp0 :
  tree_at h v (DDict ditems) fp0 ->
  exists l items fp,
    v = VRef l /\ fp0 = l :: fp /\ h !! l = Some (ODict items) /\
    map fst ditems = map fst items /\ NoDup (map fst items) /\
    trees_at h (map snd items) (map snd ditems) fp /\ l ∉ fp.
Proof.
  intros H. inversion H; subst. exists l, items, fp. repeat split; assumption.
Qed.

(** The item under a key of a tree is a tree inside the children. *)
Lemma items_lookup h k d :
  forall (items : list (string * value)) (ditems : list (string * doc)) fp,
    map fst ditems = map fst items ->
    trees_at h (map snd items) (map snd ditems) fp ->
    dict_lookup k ditems = Some d ->
    exists v fpv, dict_lookup k items = Some v /\ tree_at h v d fpv /\
                  (forall x, x ∈ fpv -> x ∈ fp).
Proof.
  induction items as [|[k0 v0] items IH]; intros [|[k1 d1] ditems] fp Hk Ht Hd;
    try discriminate.
  simpl in Hk. injection Hk as -> Hk.
  simpl in Ht. inversion Ht as [|v' d' fp0 vs' ds' fps Htv0 Hts Hdj]; subst.
  simpl in Hd |- *. destruct (String.eqb k k0).
  - injection Hd as ->. exists v0, fp0. repeat split; [assumption|].
    intros x Hx. apply elem_of_app. now left.
  - destruct (IH ditems fps Hk Hts Hd) as (v & fpv & Hv & Htv & Hsub).
    exists v, fpv. repeat split; [assumption..|].
    intros x Hx. apply elem_of_app. right. now apply Hsub.
Qed.

(** Assigning a tree disjoint from the children to an item. *)
Lemma items_assign h k v d fpv :
  tree_at h v d fpv ->
  forall (items : list (string * value)) (ditems : list (string * doc)) fp,
    map fst ditems = map fst items ->
    trees_at h (map snd items) (map snd ditems) fp ->
    (forall x, x ∈ fpv -> x ∉ fp) ->
    exists fp',
      trees_at h (map snd (dict_assign k v items)) (map snd (dict_assign k d ditems)) fp' /\
      (forall x, x ∈ fp' -> x ∈ fp \/ x ∈ fpv).
Proof.
  intros Hv.
  induction items as [|[k0 v0] items IH]; intros [|[k1 d1] ditems] fp Hk Ht Hdisj;
    try discriminate.
  - exists (fpv ++ []). simpl. split.
    + constructor; [assumption | constructor |].
      intros x _ Hx. now apply elem_of_nil in Hx.
    + intros x Hx. right. now rewrite app_nil_r in Hx.
  - simpl in Hk. injection Hk as -> Hk.
    simpl in Ht. inversion Ht as [|v' d' fp0 vs' ds' fps Htv0 Hts Hdj]; subst. simpl.
    destruct (String.eqb k k0).
    + exists (fpv ++ fps). simpl. split.
      * constructor; [assumption..|].
        intros x Hx Hx'. apply (Hdisj x Hx). apply elem_of_app. now right.
      * intros x Hx. apply elem_of_app in Hx as [Hx|Hx]; [now right|].
        left. apply elem_of_app. now right.
    + destruct (IH ditems fps Hk Hts) as (fp' & Ht' & Hsub).
      { intros x Hx Hx'. apply (Hdisj x Hx). apply elem_of_app. now right. }
      exists (fp0 ++ fp'). simpl. split.
      * constructor; [assumption..|].
        intros x Hx Hx'. destruct (Hsub x Hx') as [Hx''|Hx''].
        -- now apply (Hdj x).
        -- apply (Hdisj x Hx''). apply elem_of_app. now left.
      * intros x Hx. apply elem_of_app in Hx as [Hx|Hx].
        -- left. apply elem_of_app. now left.
        -- destruct (Hsub x Hx) as [Hx'|Hx']; [|now right].
           left. apply elem_of_app. now right.
Qed.

Lemma tree_contains h l ditems fp k :
  tree_at h (VRef l) (DDict ditems) fp ->
  py_contains k (VRef l) h = Ok (has_key k ditems) h.
Proof.
  intros H. apply tree_dict_inv in H as (l' & items & fp' & [= <-] & -> & Hl & Hk & _).
  unfold py_contains. rewrite Hl. now rewrite (has_key_keys k ditems items Hk).
Qed.

Lemma tree_getitem h l ditems fp k d :
  tree_at h (VRef l) (DDict ditems) fp ->
  dict_lookup k ditems = Some d ->
  exists v fpv, py_getitem (VRef l) k h = Ok v h /\ tree_at h v d fpv /\
                (forall x, x ∈ fpv -> x ∈ fp /\ x <> l).
Proof.
  intros H Hd.
  apply tree_dict_inv in H as (l' & items & fp' & [= <-] & -> & Hl & Hk & _ & Ht & Hnin).
  destruct (items_lookup h k d items ditems fp' Hk Ht Hd) as (v & fpv & Hv & Htv & Hsub).
  exists v, fpv. repeat split.
  - unfold py_getitem. now rewrite Hl, Hv.
  - assumption.
  - apply elem_of_cons. right. now apply Hsub.
  - intros ->. apply Hnin. now apply Hsub.
Qed.

Lemma tree_setitem h l ditems fp k v d fpv :
  tree_at h (VRef l) (DDict ditems) fp ->
  tree_at h v d fpv ->
  (forall x, x ∈ fpv -> x ∉ fp) ->
  exists h' fp',
    py_setitem (VRef l) k v h = Ok tt h' /\
    tree_at h' (VRef l) (DDict (dict_assign k d ditems)) fp' /\
    (forall x, x ∈ fp' -> x ∈ fp \/ x ∈ fpv) /\
    length h' = length h /\
    (forall x, x <> l -> h' !! x = h !! x).
Proof.
  intros H Hv Hdisj.
  apply tree_dict_inv in H as (l' & items & fps & [= <-] & -> & Hl & Hk & Hnd & Ht & Hnin).
  destruct (items_assign h k v d fpv Hv items ditems fps Hk Ht) as (fp' & Ht' & Hsub).
  { intros x Hx Hx'. apply (Hdisj x Hx). apply elem_of_cons. now right. }
  assert (Hlfp' : l ∉ fp').
  { intros Hx. destruct (Hsub l Hx) as [Hx'|Hx']; [contradiction|].
    apply (Hdisj l Hx'). apply elem_of_cons. now left. }
  assert (Hllt : (l < length h)%nat) by (now apply lookup_lt_Some in Hl).
  exists (<[l := ODict (dict_assign k v items)]> h), (l :: fp').
  split; [|split; [|split; [|split]]].
  - unfold py_setitem. now rewrite Hl.
  - apply tree_dict with (dict_assign k v items).
    + now apply list_lookup_insert_eq.
    + now apply dict_assign_keys_same.
    + now apply dict_assign_NoDup.
    + apply (proj2 (tree_at_frame h) _ _ _ Ht').
      intros x Hx. apply list_lookup_insert_ne. intros ->. contradiction.
    + assumption.
  - intros x Hx. apply elem_of_cons in Hx as [->|Hx].
    + left. apply elem_of_cons. now left.
    + destruct (Hsub x Hx) as [Hx'|Hx']; [|now right].
      left. apply elem_of_cons. now right.
  - apply length_insert.
  - intros x Hx. now apply list_lookup_insert_ne.
Qed.

(** A tree survives an allocation. *)
Lemma tree_at_alloc h v d fp o :
  tree_at h v d fp -> tree_at (h ++ [o]) v d fp.
Proof.
  intros H. apply (proj1 (tree_at_frame h) _ _ _ H).
  intros x Hx. apply lookup_app_l.
  now apply (proj1 (tree_at_allocated h) _ _ _ H).
Qed.

Lemma tree_default_to_empty_dict h l ditems fp key :
  tree_at h (VRef l) (DDict ditems) fp ->
  exists h' fp',
    default_to_empty_dict key (VRef l) h = Ok tt h' /\
    tree_at h' (VRef l) (DDict (default_item key ditems)) fp' /\
    (forall x, x ∈ fp' -> x ∈ fp \/ x = length h) /\
    (length h <= length h')%nat /\
    (forall x, x <> l -> (x < length h)%nat -> h' !! x = h !! x).
Proof.
  intros H. unfold default_to_empty_dict, default_item.
  rewrite (bind_ok _ _ _ _ _ (tree_contains _ _ _ _ key H)).
  destruct (has_key key ditems); simpl.
  - exists h, fp. repeat split; auto.
  - set (h1 := h ++ [ODict []]).
    assert (Hnew : tree_at h1 (VRef (length h)) (DDict []) [length h]).
    { apply tree_dict with (@nil (string * value)); simpl.
      - unfold h1. rewrite lookup_app_r by lia. now rewrite Nat.sub_diag.
      - reflexivity.
      - constructor.
      - constructor.
      - apply not_elem_of_nil. }
    destruct (tree_setitem h1 l ditems fp key (VRef (length h)) (DDict []) [length h])
      as (h' & fp' & Hset & Ht' & Hsub & Hlen & Hout).
    { now apply tree_at_alloc. }
    { exact Hnew. }
    { intros x Hx Hx'. apply list_elem_of_singleton in Hx. subst x.
      apply (proj1 (tree_at_allocated h) _ _ _ H) in Hx'. lia. }
    exists h', fp'. split; [|split; [|split; [|split]]].
    + unfold new_dict, alloc. unfold bind. exact Hset.
    + exact Ht'.
    + intros x Hx. destruct (Hsub x Hx) as [Hx'|Hx']; [now left|].
      right. now apply list_elem_of_singleton in Hx'.
    + rewrite Hlen. unfold h1. rewrite length_app. lia.
    + intros x Hx Hlt. rewrite Hout by assumption. unfold h1. now apply lookup_app_l.
Qed.

(** * [str] on trees *)

Lemma py_repr_tree h :
  (forall v d fp, tree_at h v d fp ->
     forall n active, (depth d < n)%nat -> (forall x, x ∈ fp -> x ∉ active) ->
       py_repr n h active v = Some (doc_repr d)) /\
  (forall vs ds fps, trees_at h vs ds fps ->
     forall n active, Forall (fun d => (depth d < n)%nat) ds ->
       (forall x, x ∈ fps -> x ∉ active) ->
       mapM (py_repr n h active) vs = Some (map doc_repr ds) /\
       (forall (items : list (string * value)) (ditems : list (string * doc)),
          map snd items = vs -> map snd ditems = ds -> map fst ditems = map fst items ->
          mapM (fun kv : string * value =>
                  option_map (fun r => (repr_str (fst kv) ++ ": " ++ r)%string)
                             (py_repr n h active (snd kv))) items
          = Some (map (fun kd => (repr_str (fst kd) ++ ": " ++ doc_repr (snd kd))%string)
                      ditems))).
Proof.
  apply tree_at_mutind.
  - intros [|n] active Hn _; [lia|reflexivity].
  - intros [|] [|n] active Hn _; try lia; reflexivity.
  - intros z [|n] active Hn _; [lia|reflexivity].
  - intros s [|n] active Hn _; [lia|reflexivity].
  - intros l elts ds fp Hl _ IH Hnin [|n] active Hn Hact; [lia|].
    cbn [py_repr doc_repr]. rewrite Hl.
    rewrite bool_decide_eq_false_2 by (apply Hact, elem_of_cons; now left).
    destruct (IH n (l :: active)) as [-> _]; [now apply depth_list_children| |reflexivity].
    intros x Hx Hx'. apply elem_of_cons in Hx' as [->|Hx']; [contradiction|].
    revert Hx'. apply Hact. apply elem_of_cons. now right.
  - intros l items ditems fp Hl Hkeys Hnd _ IH Hnin [|n] active Hn Hact; [lia|].
    cbn [py_repr doc_repr]. rewrite Hl.
    rewrite bool_decide_eq_false_2 by (apply Hact, elem_of_cons; now left).
    destruct (IH n (l :: active)) as [_ IHd]; [now apply depth_dict_children| |].
    { intros x Hx Hx'. apply elem_of_cons in Hx' as [->|Hx']; [contradiction|].
      revert Hx'. apply Hact. apply elem_of_cons. now right. }
    rewrite (IHd items ditems eq_refl eq_refl Hkeys). reflexivity.
  - intros n active _ _. split; [reflexivity|].
    intros items ditems Hi Hd _.
    apply map_eq_nil in Hi, Hd. subst. reflexivity.
  - intros v d fp vs ds fps _ IHt _ IHts Hdisj n active Hdepth Hact.
    apply Forall_cons in Hdepth as [Hd Hds].
    assert (Hv : py_repr n h active v = Some (doc_repr d)).
    { apply IHt; [assumption|]. intros x Hx. apply Hact, elem_of_app. now left. }
    destruct (IHts n active Hds) as [Hvs Hitems].
    { intros x Hx. apply Hact, elem_of_app. now right. }
    split.
    + cbn [mapM]. rewrite Hv. simpl. rewrite Hvs. reflexivity.
    + intros [|[k0 v0] items] [|[k1 d1] ditems] Hi Hdd Hk; try discriminate.
      simpl in Hi, Hdd, Hk. injection Hi as -> Hi. injection Hdd as -> Hdd.
      injection Hk as -> Hk.
      cbn [mapM fst snd]. rewrite Hv. simpl.
      rewrite (Hitems items ditems Hi Hdd Hk). reflexivity.
Qed.

Lemma tree_py_str h v d fp fuel :
  tree_at h v d fp -> (depth d < fuel)%nat ->
  py_str fuel v h = Ok (doc_str d) h.
Proof.
  intros Ht Hd. unfold py_str.
  pose proof (proj1 (py_repr_tree h) _ _ _ Ht fuel [] Hd) as Hr.
  rewrite Hr by (intros x _; apply not_elem_of_nil).
  inversion Ht; subst; reflexivity.
Qed.

Lemma tree_py_int h v d fp :
  tree_at h v d fp ->
  py_int v h = match doc_int d with inl z => Ok z h | inr e => Raise e h end.
Proof.
  intros Ht. inversion Ht; subst; simpl; try reflexivity.
  now destruct (int_of_string s).
Qed.

Lemma depth_map_strings f d : depth (map_strings f d) = depth d.
Proof.
  revert d. fix IH 1. intros [| | | |elts|items]; simpl; try reflexivity.
  - f_equal. f_equal. rewrite map_map.
    induction elts as [|d elts IHe]; simpl; [reflexivity|].
    now rewrite IH, IHe.
  - f_equal. f_equal. rewrite map_map. simpl.
    induction items as [|[k d] items IHe]; simpl; [reflexivity|].
    now rewrite IH, IHe.
Qed.

Lemma depth_shared_after f d : depth (shared_after f d) = depth d.
Proof. destruct d; simpl; try reflexivity; apply (depth_map_strings f (DList _)) || apply (depth_map_strings f (DDict _)). Qed.

Lemma depth_lookup k (items : list (string * doc)) d n :
  dict_lookup k items = Some d -> (depth (DDict items) < n)%nat -> (depth d < n)%nat.
Proof.
  intros Hk. simpl. induction items as [|[k0 d0] items IH]; [discriminate|].
  simpl in Hk |- *. destruct (String.eqb k k0).
  - injection Hk as ->. lia.
  - intros Hn. apply IH; [assumption|lia].
Qed.

(** * The two copies after a walk *)

(** The children of the dictionary that was copied, seen through the
    original after a walker has run on the copy. *)
Lemma trees_at_shared f h h' :
  forall vs ds fps,
    trees_at h vs ds fps ->
    (forall x, x ∈ fps -> h' !! x = map_object f <$> (h !! x)) ->
    trees_at h' vs (map (shared_after f) ds) fps.
Proof.
  intros vs ds fps Ht. induction Ht as [|v d fp vs ds fps Hv Hvs IH Hdisj]; intros Hmap.
  - constructor.
  - simpl. constructor; [| |assumption].
    + assert (Hv' : tree_at h' (map_value f v) (map_strings f d) fp).
      { apply (proj1 (tree_at_map f h) _ _ _ Hv).
        intros x Hx. apply Hmap, elem_of_app. now left. }
      inversion Hv; subst; simpl in *; try assumption; constructor.
    + apply IH. intros x Hx. apply Hmap, elem_of_app. now right.
Qed.

Lemma map_snd_map_items g (items : list (string * doc)) :
  map snd (map_items g items) = map g (map snd items).
Proof. unfold map_items. rewrite !map_map. reflexivity. Qed.

Lemma map_fst_map_items g (items : list (string * doc)) :
  map fst (map_items g items) = map fst items.
Proof. unfold map_items. rewrite map_map. reflexivity. Qed.

(** [copy()] followed by a walker, on a tree-shaped dictionary: the copy
    holds the walked document; the original keeps its own string items and
    shares the walked containers. *)
Lemma copy_walk_tree f fuel h spec ditems fp :
  tree_at h spec (DDict ditems) fp ->
  (depth (DDict ditems) < fuel)%nat ->
  exists h' fp',
    bind (py_copy spec) (walk_strings f fuel) h = Ok (VRef (length h)) h' /\
    tree_at h' (VRef (length h)) (DDict (map_items (map_strings f) ditems)) fp' /\
    tree_at h' spec (DDict (map_items (shared_after f) ditems)) fp /\
    (forall x, x ∈ fp' -> x = length h \/ (x ∈ fp /\ VRef x <> spec)) /\
    length h' = S (length h) /\
    (forall x, (x < length h)%nat -> x ∉ fp -> h' !! x = h !! x).
Proof.
  intros Ht Hd.
  pose proof Ht as Ht0.
  apply tree_dict_inv in Ht as (l & items & fps & -> & -> & Hl & Hk & Hnd & Hts & Hnin).
  set (h1 := h ++ [ODict items]).
  assert (Hllt : (l < length h)%nat) by (now apply lookup_lt_Some in Hl).
  assert (Hfps : forall x, x ∈ fps -> (x < length h)%nat).
  { intros x Hx. apply (proj2 (tree_at_allocated h) _ _ _ Hts x Hx). }
  assert (Hcopy : tree_at h1 (VRef (length h)) (DDict ditems) (length h :: fps)).
  { apply tree_dict with items; try assumption.
    - unfold h1. rewrite lookup_app_r by lia. now rewrite Nat.sub_diag.
    - apply (proj2 (tree_at_frame h) _ _ _ Hts).
      intros x Hx. apply lookup_app_l. now apply Hfps.
    - intros Hx. apply Hfps in Hx. lia. }
  destruct (proj1 (walk_strings_tree f h1) _ _ _ Hcopy fuel h1 Hd)
    as (h2 & Hwalk & Hlen & Hin & Hout); [reflexivity|].
  exists h2, (length h :: fps). split; [|split; [|split; [|split; [|split]]]].
  - unfold bind, py_copy. rewrite Hl. unfold alloc. exact Hwalk.
  - apply (proj1 (tree_at_map f h1) _ _ _ Hcopy). exact Hin.
  - apply tree_dict with items.
    + rewrite Hout.
      * unfold h1. now rewrite lookup_app_l.
      * intros Hx. apply elem_of_cons in Hx as [->|Hx]; [lia|contradiction].
    + rewrite map_fst_map_items. assumption.
    + assumption.
    + rewrite map_snd_map_items. apply trees_at_shared with h1.
      * apply (proj2 (tree_at_frame h) _ _ _ Hts).
        intros x Hx. apply lookup_app_l. now apply Hfps.
      * intros x Hx. apply Hin. apply elem_of_cons. now right.
    + assumption.
  - intros x Hx. apply elem_of_cons in Hx as [->|Hx]; [now left|].
    right. split; [apply elem_of_cons; now right|].
    intros [= ->]. contradiction.
  - rewrite Hlen. unfold h1. rewrite length_app. simpl. lia.
  - intros x Hx Hxfp. rewrite Hout.
    + unfold h1. now apply lookup_app_l.
    + intros Hx'. apply elem_of_cons in Hx' as [->|Hx']; [lia|].
      apply Hxfp. apply elem_of_cons. now right.
Qed.

(** * The casting loops on trees *)

Lemma tree_getitem_missing h l ditems fp k :
  tree_at h (VRef l) (DDict ditems) fp ->
  dict_lookup k ditems = None ->
  py_getitem (VRef l) k h = Raise KeyError h.
Proof.
  intros H Hd.
  apply tree_dict_inv in H as (l' & items & fp' & [= <-] & -> & Hl & Hk & _).
  unfold py_getitem. rewrite Hl.
  apply dict_lookup_None in Hd. rewrite Hk in Hd. apply dict_lookup_None in Hd.
  now rewrite Hd.
Qed.

Lemma cast_to_str_tree fuel lo lc oitems fpo keys :
  (depth (DDict oitems) < fuel)%nat -> lc ∉ fpo ->
  forall h citems fpc,
    tree_at h (VRef lo) (DDict oitems) fpo ->
    tree_at h (VRef lc) (DDict citems) fpc ->
    exists h' fpc',
      cast_to_str fuel (VRef lo) (VRef lc) keys h = Ok tt h' /\
      tree_at h' (VRef lc) (DDict (cast_to_str_items oitems citems keys)) fpc' /\
      tree_at h' (VRef lo) (DDict oitems) fpo /\
      (forall x, x ∈ fpc' -> x ∈ fpc) /\
      length h' = length h /\
      (forall x, x <> lc -> h' !! x = h !! x).
Proof.
  intros Hdepth Hlc. induction keys as [|key keys IH]; intros h citems fpc Ho Hc.
  - exists h, fpc. simpl. repeat split; auto.
  - cbn [cast_to_str cast_to_str_items].
    rewrite (bind_ok _ _ _ _ _ (tree_contains _ _ _ _ key Ho)).
    unfold has_key. destruct (dict_lookup key oitems) as [d|] eqn:Hd; simpl.
    + destruct (tree_getitem _ _ _ _ _ _ Ho Hd) as (v & fpv & Hget & Hv & _).
      rewrite (bind_ok _ _ _ _ _ Hget).
      rewrite (bind_ok _ _ _ _ _ (tree_py_str _ _ _ _ fuel Hv (depth_lookup _ _ _ _ Hd Hdepth))).
      destruct (tree_setitem h lc citems fpc key (VStr (doc_str d)) (DStr (doc_str d)) [] Hc)
        as (h1 & fp1 & Hset & Hc1 & Hsub1 & Hlen1 & Hout1).
      { constructor. }
      { intros x Hx. now apply elem_of_nil in Hx. }
      rewrite (bind_ok _ _ _ _ _ Hset).
      destruct (IH h1 (dict_assign key (DStr (doc_str d)) citems) fp1)
        as (h' & fpc' & Hrun & Hc' & Ho' & Hsub & Hlen & Hout).
      { apply (proj1 (tree_at_frame h) _ _ _ Ho).
        intros x Hx. apply Hout1. intros ->. contradiction. }
      { exact Hc1. }
      exists h', fpc'. split; [exact Hrun|]. split; [exact Hc'|]. split; [exact Ho'|].
      split; [|split].
      * intros x Hx. destruct (Hsub1 x (Hsub x Hx)) as [Hx'|Hx']; [assumption|].
        now apply elem_of_nil in Hx'.
      * now rewrite Hlen.
      * intros x Hx. rewrite Hout by assumption. now apply Hout1.
    + apply IH; assumption.
Qed.

Lemma cast_to_int_tree lo lc oitems fpo keys :
  lc ∉ fpo ->
  forall h citems fpc,
    tree_at h (VRef lo) (DDict oitems) fpo ->
    tree_at h (VRef lc) (DDict citems) fpc ->
    match cast_to_int_items oitems citems keys with
    | inl items' =>
        exists h' fpc',
          cast_to_int (VRef lo) (VRef lc) keys h = Ok tt h' /\
          tree_at h' (VRef lc) (DDict items') fpc' /\
          tree_at h' (VRef lo) (DDict oitems) fpo /\
          (forall x, x ∈ fpc' -> x ∈ fpc) /\
          length h' = length h /\
          (forall x, x <> lc -> h' !! x = h !! x)
    | inr e =>
        exists h',
          cast_to_int (VRef lo) (VRef lc) keys h = Raise e h' /\
          tree_at h' (VRef lo) (DDict oitems) fpo /\
          length h' = length h /\
          (forall x, x <> lc -> h' !! x = h !! x)
    end.
Proof.
  intros Hlc. induction keys as [|key keys IH]; intros h citems fpc Ho Hc.
  - exists h, fpc. simpl. repeat split; auto.
  - cbn [cast_to_int cast_to_int_items].
    rewrite (bind_ok _ _ _ _ _ (tree_contains _ _ _ _ key Hc)).
    destruct (has_key key citems); simpl; [|now apply IH].
    destruct (dict_lookup key oitems) as [d|] eqn:Hd.
    + destruct (tree_getitem _ _ _ _ _ _ Ho Hd) as (v & fpv & Hget & Hv & _).
      rewrite (bind_ok _ _ _ _ _ Hget).
      pose proof (tree_py_int _ _ _ _ Hv) as Hint.
      destruct (doc_int d) as [z|e].
      * rewrite (bind_ok _ _ _ _ _ Hint).
        destruct (tree_setitem h lc citems fpc key (VInt z) (DInt z) [] Hc)
          as (h1 & fp1 & Hset & Hc1 & Hsub1 & Hlen1 & Hout1).
        { constructor. }
        { intros x Hx. now apply elem_of_nil in Hx. }
        rewrite (bind_ok _ _ _ _ _ Hset).
        assert (Ho1 : tree_at h1 (VRef lo) (DDict oitems) fpo).
        { apply (proj1 (tree_at_frame h) _ _ _ Ho).
          intros x Hx. apply Hout1. intros ->. contradiction. }
        specialize (IH h1 (dict_assign key (DInt z) citems) fp1 Ho1 Hc1).
        destruct (cast_to_int_items oitems (dict_assign key (DInt z) citems) keys).
        -- destruct IH as (h' & fpc' & Hrun & Hc' & Ho' & Hsub & Hlen & Hout).
           exists h', fpc'. split; [exact Hrun|]. split; [exact Hc'|]. split; [exact Ho'|].
           split; [|split].
           ++ intros x Hx. destruct (Hsub1 x (Hsub x Hx)) as [Hx'|Hx']; [assumption|].
              now apply elem_of_nil in Hx'.
           ++ now rewrite Hlen.
           ++ intros x Hx. rewrite Hout by assumption. now apply Hout1.
        -- destruct IH as (h' & Hrun & Ho' & Hlen & Hout).
           exists h'. split; [exact Hrun|]. split; [exact Ho'|]. split.
           ++ now rewrite Hlen.
           ++ intros x Hx. rewrite Hout by assumption. now apply Hout1.
      * exists h. rewrite (bind_raise _ _ _ _ _ Hint). repeat split; auto.
    + exists h. rewrite (bind_raise _ _ _ _ _ (tree_getitem_missing _ _ _ _ _ Ho Hd)).
      repeat split; auto.
Qed.

Lemma depth_map_items g (items : list (string * doc)) :
  (forall d, depth (g d) = depth d) ->
  depth (DDict (map_items g items)) = depth (DDict items).
Proof.
  intros Hg. simpl. f_equal. f_equal. unfold map_items. rewrite map_map. simpl.
  apply map_ext. intros [k d]. apply Hg.
Qed.

(** * The codec on tree-shaped documents *)

(** [_parse_specification] on a tree-shaped dictionary, with fuel for its
    depth: it returns a fresh dictionary holding [parse_items], and leaves
    the caller's dictionary with [shared_after escape_str] of its items. *)
Lemma parse_specification_tree fuel h spec ditems fp :
  tree_at h spec (DDict ditems) fp ->
  (depth (DDict ditems) < fuel)%nat ->
  exists h' fp',
    _parse_specification fuel spec h = Ok (VRef (length h)) h' /\
    tree_at h' (VRef (length h)) (DDict (parse_items ditems)) fp' /\
    tree_at h' spec (DDict (map_items (shared_after escape_str) ditems)) fp /\
    (forall x, (x < length h)%nat -> x ∉ fp -> h' !! x = h !! x).
Proof.
  intros Ht Hd.
  destruct (copy_walk_tree escape_str fuel h spec ditems fp Ht Hd)
    as (h2 & fp2 & Hcw & Hc2 & Ho2 & Hsub2 & Hlen2 & Hout2).
  pose proof Ht as Ht0.
  apply tree_dict_inv in Ht0 as (lo & items & fps & -> & -> & Hl & _).
  assert (Hlolt : (lo < length h)%nat) by (now apply lookup_lt_Some in Hl).
  assert (Hfplt : forall x, x ∈ lo :: fps -> (x < length h)%nat).
  { apply (proj1 (tree_at_allocated h) _ _ _ Ht). }
  set (lc := length h) in *.
  assert (Hlc : lc ∉ lo :: fps).
  { intros Hx. apply Hfplt in Hx. lia. }
  destruct (cast_to_str_tree fuel lo lc
              (map_items (shared_after escape_str) ditems) (lo :: fps) int_to_str)
    with (h := h2) (citems := map_items (map_strings escape_str) ditems) (fpc := fp2)
    as (h3 & fp3 & Hcast & Hc3 & Ho3 & Hsub3 & Hlen3 & Hout3); try assumption.
  { rewrite depth_map_items; [assumption | apply depth_shared_after]. }
  destruct (tree_default_to_empty_dict h3 lc _ fp3 "build" Hc3)
    as (h4 & fp4 & Hb & Hc4 & Hsub4 & Hlen4 & Hout4).
  destruct (tree_default_to_empty_dict h4 lc _ fp4 "run" Hc4)
    as (h5 & fp5 & Hr & Hc5 & Hsub5 & Hlen5 & Hout5).
  exists h5, fp5. split; [|split; [|split]].
  - unfold _parse_specification, _escape_single_quotes.
    unfold bind in Hcw |- *. destruct (py_copy (VRef lo) h) as [p h1|]; [|discriminate].
    rewrite Hcw, Hcast, Hb, Hr. reflexivity.
  - exact Hc5.
  - apply (proj1 (tree_at_frame h3) _ _ _ Ho3).
    intros x Hx.
    assert (Hxlt : (x < length h)%nat) by (now apply Hfplt).
    assert (Hxlc : x <> lc) by (intros ->; contradiction).
    rewrite Hout5 by lia. apply Hout4; lia.
  - intros x Hx Hxfp.
    assert (Hxlc : x <> lc) by (unfold lc; lia).
    rewrite Hout5 by lia. rewrite Hout4 by lia. rewrite Hout3 by assumption.
    now apply Hout2.
Qed.

(** [_unparse_specification] on a tree-shaped dictionary: the outcome is
    that of [unparse_items]. *)
Lemma unparse_specification_tree fuel h spec ditems fp :
  tree_at h spec (DDict ditems) fp ->
  (depth (DDict ditems) < fuel)%nat ->
  match unparse_items ditems with
  | inl items' =>
      exists h' fp',
        _unparse_specification fuel spec h = Ok (VRef (length h)) h' /\
        tree_at h' (VRef (length h)) (DDict items') fp' /\
        tree_at h' spec (DDict (map_items (shared_after unescape_str) ditems)) fp /\
        (forall x, (x < length h)%nat -> x ∉ fp -> h' !! x = h !! x)
  | inr e =>
      exists h', _unparse_specification fuel spec h = Raise e h'
  end.
Proof.
  intros Ht Hd.
  destruct (copy_walk_tree unescape_str fuel h spec ditems fp Ht Hd)
    as (h2 & fp2 & Hcw & Hc2 & Ho2 & Hsub2 & Hlen2 & Hout2).
  pose proof Ht as Ht0.
  apply tree_dict_inv in Ht0 as (lo & items & fps & -> & -> & Hl & _).
  assert (Hfplt : forall x, x ∈ lo :: fps -> (x < length h)%nat).
  { apply (proj1 (tree_at_allocated h) _ _ _ Ht). }
  set (lc := length h) in *.
  assert (Hlc : lc ∉ lo :: fps).
  { intros Hx. apply Hfplt in Hx. lia. }
  pose proof (cast_to_int_tree lo lc
                (map_items (shared_after unescape_str) ditems) (lo :: fps) str_to_int Hlc
                h2 (map_items (map_strings unescape_str) ditems) fp2 Ho2 Hc2) as Hcast.
  unfold unparse_items.
  destruct (cast_to_int_items _ _ str_to_int) as [items'|e].
  - destruct Hcast as (h3 & fp3 & Hcast & Hc3 & Ho3 & Hsub3 & Hlen3 & Hout3).
    exists h3, fp3. split; [|split; [|split]].
    + unfold _unparse_specification, _unescape_single_quotes.
      unfold bind in Hcw |- *. destruct (py_copy (VRef lo) h) as [p h1|]; [|discriminate].
      rewrite Hcw, Hcast. reflexivity.
    + exact Hc3.
    + exact Ho3.
    + intros x Hx Hxfp. rewrite Hout3 by (unfold lc; lia). now apply Hout2.
  - destruct Hcast as (h3 & Hcast & _).
    exists h3. unfold _unparse_specification, _unescape_single_quotes.
    unfold bind in Hcw |- *. destruct (py_copy (VRef lo) h) as [p h1|]; [|discriminate].
    rewrite Hcw, Hcast. reflexivity.
Qed.

(** * The codec on documents *)

Lemma doc_ind' (P : doc -> Prop) :
  P DNone -> (forall b, P (DBool b)) -> (forall z, P (DInt z)) -> (forall s, P (DStr s)) ->
  (forall elts, Forall P elts -> P (DList elts)) ->
  (forall items, Forall (fun kd => P (snd kd)) items -> P (DDict items)) ->
  forall d, P d.
Proof.
  intros Hn Hb Hz Hs Hl Hd. fix IH 1.
  intros [|b|z|s|elts|items]; [exact Hn | apply Hb | apply Hz | apply Hs | apply Hl | apply Hd].
  - induction elts as [|d elts IHe]; constructor; [apply IH|assumption].
  - induction items as [|[k d] items IHe]; constructor; [apply IH|assumption].
Qed.

Lemma map_strings_roundtrip d :
  all_strings no_triple_quote d = true ->
  map_strings unescape_str (map_strings escape_str d) = d.
Proof.
  induction d as [| | |s|elts IH|items IH] using doc_ind'; simpl; intros H; try reflexivity.
  - now rewrite unescape_escape_str.
  - f_equal. rewrite map_map.
    induction IH as [|d elts Hd _ IHe]; simpl; [reflexivity|].
    simpl in H. apply andb_true_iff in H as [H1 H2].
    now rewrite Hd, IHe.
  - f_equal. rewrite map_map. simpl.
    induction IH as [|[k d] items Hd _ IHe]; simpl; [reflexivity|].
    simpl in H, Hd. apply andb_true_iff in H as [H1 H2].
    now rewrite Hd, IHe.
Qed.

Lemma dict_lookup_map_items g k (items : list (string * doc)) :
  dict_lookup k (map_items g items) = option_map g (dict_lookup k items).
Proof.
  induction items as [|[k0 d0] items IH]; simpl; [reflexivity|].
  now destruct (String.eqb k k0).
Qed.

Lemma has_key_map_items g k (items : list (string * doc)) :
  has_key k (map_items g items) = has_key k items.
Proof. apply has_key_keys. apply map_fst_map_items. Qed.

Lemma default_item_absent key (items : list (string * doc)) :
  has_key key items = false -> default_item key items = items ++ [(key, DDict [])].
Proof.
  intros H. unfold default_item. rewrite H. apply dict_assign_new.
  now apply has_key_false.
Qed.

Lemma has_key_default_item k key (items : list (string * doc)) :
  has_key k (default_item key items) = has_key k items || String.eqb k key.
Proof.
  unfold default_item. destruct (has_key key items) eqn:Hkey.
  - destruct (String.eqb k key) eqn:E; [|now rewrite orb_false_r].
    apply String.eqb_eq in E. subst. now rewrite Hkey.
  - destruct (String.eqb k key) eqn:E.
    + apply String.eqb_eq in E. subst. rewrite orb_true_r.
      unfold has_key. now rewrite dict_lookup_assign_eq.
    + apply String.eqb_neq in E. rewrite orb_false_r.
      unfold has_key. rewrite dict_lookup_assign_ne by congruence. reflexivity.
Qed.

Lemma map_items_default_item g key (items : list (string * doc)) :
  g (DDict []) = DDict [] ->
  map_items g (default_item key items) = default_item key (map_items g items).
Proof.
  intros Hg. unfold default_item. rewrite has_key_map_items.
  destruct (has_key key items) eqn:Hkey; [reflexivity|].
  apply has_key_false in Hkey.
  rewrite !dict_assign_new; [| now rewrite map_fst_map_items | assumption].
  unfold map_items. rewrite map_app. simpl. now rewrite Hg.
Qed.

Lemma cast_to_str_items_absent original current keys :
  (forall k, k ∈ keys -> has_key k original = false) ->
  cast_to_str_items original current keys = current.
Proof.
  induction keys as [|key keys IH]; intros H; simpl; [reflexivity|].
  assert (Hk : has_key key original = false) by (apply H, elem_of_cons; now left).
  unfold has_key in Hk. destruct (dict_lookup key original); [discriminate|].
  apply IH. intros k Hin. apply H, elem_of_cons. now right.
Qed.

Lemma cast_to_int_items_absent original current keys :
  (forall k, k ∈ keys -> has_key k current = false) ->
  cast_to_int_items original current keys = inl current.
Proof.
  induction keys as [|key keys IH]; intros H; simpl; [reflexivity|].
  rewrite (H key) by (apply elem_of_cons; now left).
  apply IH. intros k Hin. apply H, elem_of_cons. now right.
Qed.

(** Casting to strings never changes the set of keys. *)
Lemma cast_to_str_items_keys original keys :
  forall current, map fst current = map fst original ->
    map fst (cast_to_str_items original current keys) = map fst original.
Proof.
  induction keys as [|key keys IH]; intros current Hk; simpl; [assumption|].
  destruct (dict_lookup key original) as [d|] eqn:Hd; [|now apply IH].
  apply IH. rewrite dict_assign_keys_present; [assumption|].
  rewrite Hk. apply has_key_true. unfold has_key. now rewrite Hd.
Qed.

(** Casting to integers, when it succeeds, never changes the set of keys. *)
Lemma cast_to_int_items_keys original keys :
  forall current items',
    cast_to_int_items original current keys = inl items' ->
    map fst items' = map fst current.
Proof.
  induction keys as [|key keys IH]; intros current items' H; simpl in H.
  - now injection H as <-.
  - destruct (has_key key current) eqn:Hk; [|now apply IH].
    destruct (dict_lookup key original) as [d|]; [|discriminate].
    destruct (doc_int d) as [z|e]; [|discriminate].
    apply IH in H. rewrite H. apply dict_assign_keys_present.
    now apply has_key_true.
Qed.

Lemma all_strings_items p (items : list (string * doc)) k d :
  all_strings p (DDict items) = true -> dict_lookup k items = Some d ->
  all_strings p d = true.
Proof.
  simpl. induction items as [|[k0 d0] items IH]; [discriminate|].
  simpl. intros H Hk. apply andb_true_iff in H as [H1 H2].
  destruct (String.eqb k k0); [now injection Hk as <-|now apply IH].
Qed.

Lemma map_items_roundtrip (items : list (string * doc)) :
  all_strings no_triple_quote (DDict items) = true ->
  map_items (map_strings unescape_str) (map_items (map_strings escape_str) items) = items.
Proof.
  intros H. apply map_strings_roundtrip in H. simpl in H.
  injection H as H. unfold map_items. rewrite map_map. simpl.
  rewrite map_map in H. exact H.
Qed.

(** On a document without the integer fields and without three quotes in
    a row in any string, unparsing what was parsed gives the document back,
    with the defaulted [build] and [run]. *)
Lemma unparse_parse_items (items : list (string * doc)) :
  (forall k, k ∈ int_to_str -> has_key k items = false) ->
  all_strings no_triple_quote (DDict items) = true ->
  unparse_items (parse_items items) =
  inl (default_item "run" (default_item "build" items)).
Proof.
  intros Hkeys Hq. unfold parse_items.
  rewrite cast_to_str_items_absent
    by (intros k Hk; rewrite has_key_map_items; now apply Hkeys).
  unfold unparse_items. rewrite cast_to_int_items_absent.
  - rewrite !map_items_default_item by reflexivity.
    now rewrite map_items_roundtrip.
  - intros k Hk. rewrite has_key_map_items, !has_key_default_item, has_key_map_items.
    rewrite (Hkeys k Hk).
    unfold str_to_int in Hk. rewrite !elem_of_cons in Hk.
    destruct Hk as [->|[->|[->|Hk]]]; [reflexivity..|now apply elem_of_nil in Hk].
Qed.

Lemma depth_default_item key (items : list (string * doc)) :
  (depth (DDict (default_item key items)) <= S (depth (DDict items)))%nat.
Proof.
  unfold default_item. destruct (has_key key items) eqn:Hk; [lia|].
  apply has_key_false in Hk. rewrite dict_assign_new by assumption.
  simpl. rewrite map_app, list_max_app. simpl. lia.
Qed.

Lemma depth_default_items (items : list (string * doc)) :
  (depth (DDict (default_item "run" (default_item "build" items)))
   <= S (depth (DDict items)))%nat.
Proof.
  unfold default_item at 1.
  destruct (has_key "run" _) eqn:Hr; [apply depth_default_item|].
  apply has_key_false in Hr. rewrite dict_assign_new by assumption.
  unfold default_item in *. destruct (has_key "build" items) eqn:Hb.
  - simpl. rewrite map_app, list_max_app. simpl. lia.
  - apply has_key_false in Hb. rewrite dict_assign_new in * by assumption.
    simpl. rewrite !map_app, !list_max_app. simpl. lia.
Qed.

(** * Every document has a tree in the store *)

Lemma store_each_trees (ds : list doc) :
  Forall stored_as_tree ds ->
  forall h, exists fps,
    trees_at (snd (store_each store_doc ds h)) (fst (store_each store_doc ds h)) ds fps /\
    (forall x, x ∈ fps -> (length h <= x)%nat) /\
    (length h <= length (snd (store_each store_doc ds h)))%nat /\
    (forall x, (x < length h)%nat -> snd (store_each store_doc ds h) !! x = h !! x).
Proof.
  induction 1 as [|d ds Hd _ IH]; intros h.
  - exists []. simpl. split; [constructor|].
    split; [intros x Hx; now apply elem_of_nil in Hx|]. split; [lia|reflexivity].
  - simpl. destruct (Hd h) as (fp & Ht & Hfp & Hlen & Hpre).
    destruct (store_doc d h) as [v h1]. simpl in *.
    destruct (IH h1) as (fps & Hts & Hfps & Hlens & Hpres).
    destruct (store_each store_doc ds h1) as [vs h2]. simpl in *.
    exists (fp ++ fps). split; [|split; [|split]].
    + constructor.
      * apply (proj1 (tree_at_frame h1) _ _ _ Ht).
        intros x Hx. apply Hpres. now apply (proj1 (tree_at_allocated h1) _ _ _ Ht).
      * exact Hts.
      * intros x Hx Hx'. apply (proj1 (tree_at_allocated h1) _ _ _ Ht) in Hx.
        apply Hfps in Hx'. lia.
    + intros x Hx. apply elem_of_app in Hx as [Hx|Hx]; [now apply Hfp|].
      apply Hfps in Hx. lia.
    + lia.
    + intros x Hx. rewrite Hpres by lia. now apply Hpre.
Qed.

Lemma store_each_items (items : list (string * doc)) h :
  let store := fun (kd : string * doc) h =>
                 let '(v, h1) := store_doc (snd kd) h in ((fst kd, v), h1) in
  map fst (fst (store_each store items h)) = map fst items /\
  map snd (fst (store_each store items h)) = fst (store_each store_doc (map snd items) h) /\
  snd (store_each store items h) = snd (store_each store_doc (map snd items) h).
Proof.
  cbv zeta. revert h. induction items as [|[k d] items IH]; intros h; simpl; [auto|].
  destruct (store_doc d h) as [v h1]. specialize (IH h1).
  destruct (store_each _ items h1) as [kvs h2].
  destruct (store_each store_doc (map snd items) h1) as [vs h2'].
  simpl in *. destruct IH as (-> & -> & ->). auto.
Qed.

Lemma store_doc_tree d : keys_distinct d = true -> stored_as_tree d.
Proof.
  induction d as [| | | |elts IH|items IH] using doc_ind'; intros Hwf h.
  1-4: (exists []; simpl; split; [constructor|];
        split; [intros x Hx; now apply elem_of_nil in Hx|]; split; [lia|reflexivity]).
  - simpl in Hwf.
    assert (Hall : Forall stored_as_tree elts).
    { rewrite forallb_forall in Hwf. rewrite Forall_forall in IH |- *.
      intros d Hd. apply IH; [assumption|]. apply Hwf. now apply list_elem_of_In. }
    destruct (store_each_trees elts Hall h) as (fps & Hts & Hfps & Hlen & Hpre).
    simpl. destruct (store_each store_doc elts h) as [vs h1]. simpl in *.
    exists (length h1 :: fps). split; [|split; [|split]].
    + apply tree_list with vs.
      * rewrite lookup_app_r by lia. now rewrite Nat.sub_diag.
      * apply (proj2 (tree_at_frame h1) _ _ _ Hts).
        intros x Hx. apply lookup_app_l.
        now apply (proj2 (tree_at_allocated h1) _ _ _ Hts).
      * intros Hx. apply (proj2 (tree_at_allocated h1) _ _ _ Hts) in Hx. lia.
    + intros x Hx. apply elem_of_cons in Hx as [->|Hx]; [lia|now apply Hfps].
    + rewrite length_app. simpl. lia.
    + intros x Hx. rewrite lookup_app_l by lia. now apply Hpre.
  - simpl in Hwf. apply andb_true_iff in Hwf as [Hnd Hwf].
    apply bool_decide_eq_true in Hnd.
    assert (Hall : Forall stored_as_tree (map snd items)).
    { rewrite forallb_forall in Hwf. rewrite Forall_map.
      rewrite Forall_forall in IH |- *.
      intros kd Hkd. apply IH; [assumption|]. apply Hwf. now apply list_elem_of_In. }
    destruct (store_each_trees (map snd items) Hall h) as (fps & Hts & Hfps & Hlen & Hpre).
    pose proof (store_each_items items h) as (Hk & Hv & Hh). cbv zeta in Hk, Hv, Hh.
    simpl.
    destruct (store_each (fun (kd : string * doc) h => _) items h) as [kvs h1] eqn:Hs.
    simpl in Hk, Hv, Hh. rewrite <- Hh, <- Hv in *. simpl.
    exists (length h1 :: fps). split; [|split; [|split]].
    + apply tree_dict with kvs.
      * rewrite lookup_app_r by lia. now rewrite Nat.sub_diag.
      * now rewrite Hk.
      * now rewrite Hk.
      * apply (proj2 (tree_at_frame h1) _ _ _ Hts).
        intros x Hx. apply lookup_app_l.
        now apply (proj2 (tree_at_allocated h1) _ _ _ Hts).
      * intros Hx. apply (proj2 (tree_at_allocated h1) _ _ _ Hts) in Hx. lia.
    + intros x Hx. apply elem_of_cons in Hx as [->|Hx]; [lia|now apply Hfps].
    + rewrite length_app. simpl. lia.
    + intros x Hx. rewrite lookup_app_l by lia. now apply Hpre.
Qed.

(** Reading a tree back gives its document. *)
Lemma read_doc_tree h :
  (forall v d fp, tree_at h v d fp ->
     forall n, (depth d < n)%nat -> read_doc n h v = Some d) /\
  (forall vs ds fps, trees_at h vs ds fps ->
     forall n, Forall (fun d => (depth d < n)%nat) ds ->
       mapM (read_doc n h) vs = Some ds /\
       (forall (items : list (string * value)) (ditems : list (string * doc)),
          map snd items = vs -> map snd ditems = ds -> map fst ditems = map fst items ->
          mapM (fun kv : string * value =>
                  option_map (fun d => (fst kv, d)) (read_doc n h (snd kv))) items
          = Some ditems)).
Proof.
  apply tree_at_mutind.
  - intros [|n] Hn; [lia|reflexivity].
  - intros b [|n] Hn; [lia|reflexivity].
  - intros z [|n] Hn; [lia|reflexivity].
  - intros s [|n] Hn; [lia|reflexivity].
  - intros l elts ds fp Hl _ IH _ [|n] Hn; [lia|].
    cbn [read_doc]. rewrite Hl.
    destruct (IH n) as [-> _]; [now apply depth_list_children|reflexivity].
  - intros l items ditems fp Hl Hkeys _ _ IH _ [|n] Hn; [lia|].
    cbn [read_doc]. rewrite Hl.
    destruct (IH n) as [_ IHd]; [now apply depth_dict_children|].
    now rewrite (IHd items ditems eq_refl eq_refl Hkeys).
  - intros n _. split; [reflexivity|].
    intros items ditems Hi Hd _. apply map_eq_nil in Hi, Hd. now subst.
  - intros v d fp vs ds fps _ IHt _ IHts _ n Hdepth.
    apply Forall_cons in Hdepth as [Hd Hds].
    destruct (IHts n Hds) as [Hvs Hitems]. split.
    + cbn [mapM]. rewrite (IHt n Hd). simpl. now rewrite Hvs.
    + intros [|[k0 v0] items] [|[k1 d1] ditems] Hi Hdd Hk; try discriminate.
      simpl in Hi, Hdd, Hk. injection Hi as -> Hi. injection Hdd as -> Hdd.
      injection Hk as -> Hk.
      cbn [mapM fst snd]. rewrite (IHt n Hd). simpl.
      now rewrite (Hitems items ditems Hi Hdd Hk).
Qed.

(** * The round trip *)

Lemma unparse_parse_tree fuel h spec items fp :
  tree_at h spec (DDict items) fp ->
  (S (depth (DDict items)) < fuel)%nat ->
  (forall k, k ∈ int_to_str -> has_key k items = false) ->
  all_strings no_triple_quote (DDict items) = true ->
  exists result h' fp',
    bind (_parse_specification fuel spec) (_unparse_specification fuel) h = Ok result h' /\
    tree_at h' result (DDict (default_item "run" (default_item "build" items))) fp'.
Proof.
  intros Ht Hd Hkeys Hq.
  destruct (parse_specification_tree fuel h spec items fp Ht) as (h1 & fp1 & Hp & Ht1 & _);
    [lia|].
  assert (Hd1 : (depth (DDict (parse_items items)) < fuel)%nat).
  { unfold parse_items.
    rewrite cast_to_str_items_absent
      by (intros k Hk; rewrite has_key_map_items; now apply Hkeys).
    pose proof (depth_default_items (map_items (map_strings escape_str) items)) as Hle.
    rewrite (depth_map_items _ _ (depth_map_strings escape_str)) in Hle. lia. }
  pose proof (unparse_specification_tree fuel h1 _ _ fp1 Ht1 Hd1) as Hu.
  rewrite (unparse_parse_items items Hkeys Hq) in Hu.
  destruct Hu as (h2 & fp2 & Hu & Ht2 & _).
  exists (VRef (length h1)), h2, fp2. split; [|exact Ht2].
  now rewrite (bind_ok _ _ _ _ _ Hp).
Qed.

(** On every document with distinct keys that meets the two conditions,
    stored in the empty store, the round trip can be run and read back. *)
Lemma unparse_parse_on_document fuel items :
  keys_distinct (DDict items) = true ->
  (S (depth (DDict items)) < fuel)%nat ->
  (forall k, k ∈ int_to_str -> has_key k items = false) ->
  all_strings no_triple_quote (DDict items) = true ->
  on_document fuel (fun v => bind (_parse_specification fuel v) (_unparse_specification fuel))
    (DDict items)
  = inl (Some (DDict (default_item "run" (default_item "build" items)))).
Proof.
  intros Hwf Hd Hkeys Hq. unfold on_document.
  destruct (store_doc_tree _ Hwf []) as (fp & Ht & _).
  destruct (store_doc (DDict items) []) as [v h]. simpl fst in Ht. simpl snd in Ht.
  destruct (unparse_parse_tree fuel h v items fp Ht Hd Hkeys Hq) as (r & h' & fp' & Hrun & Ht').
  rewrite Hrun.
  rewrite (proj1 (read_doc_tree h') _ _ _ Ht'); [reflexivity|].
  pose proof (depth_default_items items). lia.
Qed.

(** C1 (amended): for a tree-shaped document without the keys
    allowed_failures, batch_size and parallelism whose string leaves have
    no three single quotes in a row, [_unparse_specification] applied to
    the result of [_parse_specification] returns a document equal to the
    original one, with empty [build] and [run] mappings added when absent. *)
Theorem unparse_parse_roundtrip fuel h spec items fp :
  tree_at h spec (DDict items) fp ->
  (S (depth (DDict items)) < fuel)%nat ->
  (forall k, k ∈ int_to_str -> has_key k items = false) ->
  all_strings no_triple_quote (DDict items) = true ->
  exists result h' fp',
    bind (_parse_specification fuel spec) (_unparse_specification fuel) h = Ok result h' /\
    tree_at h' result (DDict (default_item "run" (default_item "build" items))) fp'.
Proof. exact (unparse_parse_tree fuel h spec items fp). Qed.

Lemma unparse_parse_roundtrip_witness :
  exists result h' fp',
    bind (_parse_specification 3 (VRef 0%nat)) (_unparse_specification 3)
      [ODict [("note", VStr "O'Reilly")]] = Ok result h' /\
    tree_at h' result
      (DDict [("note", DStr "O'Reilly"); ("build", DDict []); ("run", DDict [])]) fp'.
Proof.
  apply (unparse_parse_roundtrip 3 [ODict [("note", VStr "O'Reilly")]] (VRef 0%nat)
           [("note", DStr "O'Reilly")] [0%nat]).
  - apply tree_dict with [("note", VStr "O'Reilly")]; simpl.
    + reflexivity.
    + reflexivity.
    + solve_NoDup.
    + apply (trees_cons _ _ _ [] _ _ []); [constructor | constructor |].
      intros x Hx. now apply elem_of_nil in Hx.
    + apply not_elem_of_nil.
  - simpl. lia.
  - intros k Hk. unfold int_to_str in Hk. rewrite !elem_of_cons in Hk.
    destruct Hk as [->|[->|[->|Hk]]]; [reflexivity..|now apply elem_of_nil in Hk].
  - reflexivity.
Defined.

(** C1 fails as stated: in the document [{"note": "''''"}] every quote is
    part of a doubled pair and none of the three keys occurs, yet the round
    trip returns the note with three quotes. *)
Lemma unparse_parse_paired_quotes_counterexample :
  let d := DDict [("note", DStr "''''")] in
  all_strings quotes_paired d = true /\
  forallb (fun k => negb (has_key k [("note", DStr "''''")])) int_to_str = true /\
  on_document 3 (fun v => bind (_parse_specification 3 v) (_unparse_specification 3)) d
    = inl (Some (DDict [("note", DStr "'''"); ("build", DDict []); ("run", DDict [])])) /\
  DDict [("note", DStr "'''"); ("build", DDict []); ("run", DDict [])]
    <> DDict (default_item "run" (default_item "build" [("note", DStr "''''")])).
Proof.
  repeat split; try reflexivity. discriminate.
Qed.

(** * Aliasing with the caller's document *)

(** C2, at the failing input [{"build": {"cmd": "echo 'hi'"}}]: after
    [_parse_specification] returns, the caller's document holds the escaped
    command, because the nested dictionary is shared with the copy. *)
Lemma parse_specification_mutates_nested :
  let d := DDict [("build", DDict [("cmd", DStr "echo 'hi'")])] in
  let '(spec, h) := store_doc d [] in
  exists r h',
    _parse_specification 3 spec h = Ok r h' /\
    read_doc 3 h spec = Some d /\
    read_doc 3 h' spec = Some (DDict [("build", DDict [("cmd", DStr "echo ''hi''")])]) /\
    read_doc 3 h' spec <> read_doc 3 h spec.
Proof.
  simpl. do 2 eexists. split; [vm_compute; reflexivity|].
  repeat split; try reflexivity. discriminate.
Qed.

(** * Escaping *)

Lemma starts_with_quote_head s :
  match list_ascii_of_string s !! 0%nat with
  | Some c => is_quote c
  | None => false
  end = starts_with_quote s.
Proof. now destruct s. Qed.

(** The function on strings does what the words say, position by
    position; [pre] is the text before the part still to do. *)
Lemma escape_positions s : forall pre,
  concat (imap (fun i c => escape_position (pre ++ list_ascii_of_string s)
                             (length pre + i) c)
            (list_ascii_of_string s))
  = list_ascii_of_string (escape_str s).
Proof.
  induction s as [|c rest IH]; intros pre; [reflexivity|].
  cbn [list_ascii_of_string escape_str]. rewrite imap_cons. cbn [concat].
  assert (Hnext : followed_by_quote (pre ++ c :: list_ascii_of_string rest) (length pre + 0)
                  = starts_with_quote rest).
  { unfold followed_by_quote. rewrite Nat.add_0_r.
    rewrite lookup_app_r by lia.
    replace (S (length pre) - length pre)%nat with 1%nat by lia.
    cbn [lookup list_lookup]. apply starts_with_quote_head. }
  assert (Htail : imap ((fun i c0 => escape_position
                                       (pre ++ c :: list_ascii_of_string rest)
                                       (length pre + i) c0) ∘ S)
                    (list_ascii_of_string rest)
                  = imap (fun i c0 => escape_position
                                        ((pre ++ [c]) ++ list_ascii_of_string rest)
                                        (length (pre ++ [c]) + i) c0)
                      (list_ascii_of_string rest)).
  { apply imap_ext. intros i c0 _. unfold compose.
    rewrite <- app_assoc. cbn [app]. rewrite length_app. cbn [length].
    f_equal. lia. }
  rewrite Htail, (IH (pre ++ [c])).
  unfold escape_position at 1. rewrite Hnext.
  now destruct (is_quote c && negb (starts_with_quote rest)).
Qed.

Lemma escape_by_position_escape_str s : escape_by_position s = escape_str s.
Proof.
  unfold escape_by_position.
  pose proof (escape_positions s []) as H. cbn [app length] in H.
  rewrite (imap_ext _ (escape_position (list_ascii_of_string s))) in H
    by (intros i c _; reflexivity).
  rewrite H. apply string_of_list_ascii_of_string.
Qed.

(** Escaping goes through a concatenation whose left part does not end
    with a quote. *)
Lemma escape_str_app a b :
  ends_with_quote a = false -> escape_str (a ++ b) = (escape_str a ++ escape_str b)%string.
Proof.
  induction a as [|c a IH]; [reflexivity|]. intros Hend.
  destruct a as [|c2 a2].
  - simpl in Hend. change (String c EmptyString ++ b)%string with (String c b).
    rewrite !escape_str_other by exact Hend. reflexivity.
  - assert (Hend' : ends_with_quote (String c2 a2) = false) by exact Hend.
    assert (Hcons : forall r,
               escape_str (String c r) =
               if is_quote c && negb (starts_with_quote r)
               then String quote (String quote (escape_str r))
               else String c (escape_str r)) by reflexivity.
    change (String c (String c2 a2) ++ b)%string with (String c (String c2 a2 ++ b)).
    rewrite !Hcons, (IH Hend').
    change (starts_with_quote (String c2 a2 ++ b)) with (starts_with_quote (String c2 a2)).
    now destruct (is_quote c && negb (starts_with_quote (String c2 a2))).
Qed.

(** C3 (amended): on a string, the forward escaping replaces each single
    quote that is not immediately followed by another single quote by two
    quotes and keeps every other character ([escape_by_position]); so a
    maximal run of n >= 1 quotes, wherever it stands in the string, becomes
    a run of n + 1 quotes, the text before and after being escaped on its
    own, and a doubled pair is not preserved. *)
Theorem escape_single_quotes_run fuel h s :
  _escape_single_quotes (S fuel) (VStr s) h = Ok (VStr (escape_by_position s)) h /\
  (forall before n after,
     ends_with_quote before = false -> starts_with_quote after = false ->
     escape_by_position (before ++ quotes (S n) ++ after)%string
     = (escape_by_position before ++ quotes (S (S n)) ++ escape_by_position after)%string).
Proof.
  split.
  - unfold _escape_single_quotes. cbn [walk_strings]. unfold ret.
    now rewrite escape_by_position_escape_str.
  - intros before n after Hb Ha. rewrite !escape_by_position_escape_str.
    rewrite (escape_str_app _ _ Hb). now rewrite (escape_str_run n after Ha).
Qed.

Lemma escape_single_quotes_run_witness :
  _escape_single_quotes 1 (VStr "O'Reilly's ''s") [] = Ok (VStr "O''Reilly''s '''s") [] /\
  escape_by_position ("it" ++ quotes 2 ++ "s")%string
  = ("it" ++ quotes 3 ++ "s")%string.
Proof.
  split.
  - exact (proj1 (escape_single_quotes_run 0 [] "O'Reilly's ''s")).
  - exact (proj2 (escape_single_quotes_run 0 [] "") "it" 1%nat "s" eq_refl eq_refl).
Defined.

(** C3 fails as stated: escaping the doubled pair gives three quotes. *)
Lemma escape_doubled_pair_counterexample :
  escape_str "''" = "'''" /\ escape_str "''" <> "''" /\
  on_document 2 (_parse_specification 2) (DDict [("note", DStr "''")])
    = inl (Some (DDict [("note", DStr "'''"); ("build", DDict []); ("run", DDict [])])).
Proof.
  repeat split; try reflexivity. discriminate.
Qed.

(** * Type casting *)

Lemma has_key_lookup {V} k (items : list (string * V)) :
  has_key k items = true -> exists v, dict_lookup k items = Some v.
Proof. unfold has_key. destruct (dict_lookup k items) as [v|]; [eauto|discriminate]. Qed.

(** Casting back fails as soon as one of the keys holds a string that is
    not a number: with [TypeError] if an earlier key holds something [int]
    does not accept, with [ValueError] otherwise. *)
Lemma cast_to_int_items_raises original keys k s :
  k ∈ keys -> dict_lookup k original = Some (DStr s) -> int_of_string s = None ->
  forall current, map fst current = map fst original ->
    exists e, cast_to_int_items original current keys = inr e /\
              (e = ValueError \/ e = TypeError) /\
              ((forall key d, key ∈ keys -> dict_lookup key original = Some d ->
                  exists s', d = DStr s') -> e = ValueError).
Proof.
  intros Hk Hks Hs. induction keys as [|key keys IH]; intros current Hkeys.
  - now apply elem_of_nil in Hk.
  - simpl. rewrite (has_key_keys key current original Hkeys).
    destruct (has_key key original) eqn:Hkey.
    + destruct (has_key_lookup _ _ Hkey) as [d Hd]. rewrite Hd.
      destruct (doc_int d) as [z|e] eqn:Hz.
      * destruct (IH) with (current := dict_assign key (DInt z) current)
          as (e & He & Hor & Hstr).
        -- apply elem_of_cons in Hk as [->|Hk]; [|assumption].
           rewrite Hks in Hd. injection Hd as <-. simpl in Hz. rewrite Hs in Hz. discriminate.
        -- rewrite dict_assign_keys_present; [assumption|].
           rewrite Hkeys. now apply has_key_true.
        -- exists e. split; [exact He|]. split; [exact Hor|].
           intros Hall. apply Hstr. intros key' d' Hin. apply Hall.
           apply elem_of_cons. now right.
      * exists e. split; [reflexivity|]. split.
        -- destruct d as [| | |s'| |]; simpl in Hz; try discriminate;
             try (injection Hz as <-; now right).
           destruct (int_of_string s'); [discriminate|]. injection Hz as <-. now left.
        -- intros Hall. destruct (Hall key d) as [s' ->];
             [apply elem_of_cons; now left|assumption|].
           simpl in Hz. destruct (int_of_string s'); [discriminate|]. now injection Hz as <-.
    + destruct (IH) with (current := current) as (e & He & Hor & Hstr).
      * apply elem_of_cons in Hk as [->|Hk]; [|assumption].
        unfold has_key in Hkey. now rewrite Hks in Hkey.
      * assumption.
      * exists e. split; [exact He|]. split; [exact Hor|].
        intros Hall. apply Hstr. intros key' d' Hin. apply Hall.
        apply elem_of_cons. now right.
Qed.

Lemma cast_to_int_items_total original keys :
  (forall key d, key ∈ keys -> dict_lookup key original = Some d ->
     exists z, doc_int d = inl z) ->
  forall current, map fst current = map fst original ->
    exists items', cast_to_int_items original current keys = inl items'.
Proof.
  induction keys as [|key keys IH]; intros Hint current Hkeys; simpl; [eauto|].
  rewrite (has_key_keys key current original Hkeys).
  destruct (has_key key original) eqn:Hkey.
  - destruct (has_key_lookup _ _ Hkey) as [d Hd]. rewrite Hd.
    destruct (Hint key d) as [z ->]; [apply elem_of_cons; now left|assumption|].
    apply IH.
    + intros key' d' Hin. apply Hint. apply elem_of_cons. now right.
    + rewrite dict_assign_keys_present; [assumption|].
      rewrite Hkeys. now apply has_key_true.
  - apply IH; [|assumption].
    intros key' d' Hin. apply Hint. apply elem_of_cons. now right.
Qed.

Lemma doc_int_shared_after f d : doc_int (shared_after f d) = doc_int d.
Proof. now destruct d. Qed.

Lemma lookup_shared_after_str f k (items : list (string * doc)) s :
  dict_lookup k items = Some (DStr s) ->
  dict_lookup k (map_items (shared_after f) items) = Some (DStr s).
Proof. intros H. now rewrite dict_lookup_map_items, H. Qed.

(** After [_parse_specification] every integer field that is present
    holds a string. *)
Lemma cast_to_str_items_strings original keys key d :
  key ∈ keys ->
  forall current, map fst current = map fst original ->
    dict_lookup key (cast_to_str_items original current keys) = Some d ->
    exists s, d = DStr s.
Proof.
  induction keys as [|key0 keys IH]; intros Hin current Hkeys Hd.
  - now apply elem_of_nil in Hin.
  - simpl in Hd. destruct (decide (key ∈ keys)) as [Hin'|Hnin].
    + destruct (dict_lookup key0 original) as [d0|] eqn:Hd0.
      * eapply IH; [assumption| |exact Hd].
        rewrite dict_assign_keys_present; [assumption|].
        rewrite Hkeys. apply has_key_true. unfold has_key. now rewrite Hd0.
      * eapply IH; eassumption.
    + apply elem_of_cons in Hin as [->|Hin]; [|contradiction].
      assert (Hstable : forall keys' current',
                 key0 ∉ keys' ->
                 dict_lookup key0 (cast_to_str_items original current' keys')
                 = dict_lookup key0 current').
      { induction keys' as [|key1 keys' IH']; intros current' Hn; [reflexivity|].
        apply not_elem_of_cons in Hn as [Hne Hn]. simpl.
        destruct (dict_lookup key1 original); [|now apply IH'].
        rewrite IH' by assumption. apply dict_lookup_assign_ne. congruence. }
      destruct (dict_lookup key0 original) as [d0|] eqn:Hd0;
        rewrite Hstable in Hd by assumption.
      * rewrite dict_lookup_assign_eq in Hd. injection Hd as <-. eauto.
      * exfalso. apply dict_lookup_None in Hd0. rewrite <- Hkeys in Hd0.
        apply dict_lookup_None in Hd0. congruence.
Qed.

Lemma lookup_default_item_ne k key (items : list (string * doc)) :
  k <> key -> dict_lookup k (default_item key items) = dict_lookup k items.
Proof.
  intros Hne. unfold default_item. destruct (has_key key items); [reflexivity|].
  apply dict_lookup_assign_ne. congruence.
Qed.

Lemma int_field_not_default k :
  k ∈ int_to_str -> k <> "build" /\ k <> "run".
Proof.
  unfold int_to_str. rewrite !elem_of_cons.
  intros [->|[->|[->|Hk]]]; [split; discriminate..|now apply elem_of_nil in Hk].
Qed.

Lemma parse_items_int_fields_strings (items : list (string * doc)) key d :
  key ∈ int_to_str -> dict_lookup key (parse_items items) = Some d ->
  exists s, d = DStr s.
Proof.
  intros Hin Hd. unfold parse_items in Hd.
  destruct (int_field_not_default key Hin) as [Hb Hr].
  rewrite !lookup_default_item_ne in Hd by assumption.
  eapply cast_to_str_items_strings; [exact Hin| |exact Hd].
  now rewrite !map_fst_map_items.
Qed.

Lemma parse_items_int_field_absent (items : list (string * doc)) k :
  k ∈ int_to_str -> has_key k (parse_items items) = has_key k items.
Proof.
  intros Hin. unfold parse_items.
  destruct (int_field_not_default k Hin) as [Hb Hr].
  apply String.eqb_neq in Hb, Hr.
  rewrite !has_key_default_item, Hb, Hr, !orb_false_r.
  apply has_key_keys.
  rewrite cast_to_str_items_keys by (now rewrite !map_fst_map_items).
  apply map_fst_map_items.
Qed.



(** C6: on the document [{"allowed_failures": 2}], [_parse_specification]
    returns a fresh dictionary holding
    [{"allowed_failures": "2", "build": {}, "run": {}}]. *)
Theorem parse_allowed_failures fuel h spec fp :
  tree_at h spec (DDict [("allowed_failures", DInt 2)]) fp ->
  (1 < fuel)%nat ->
  exists h' fp',
    _parse_specification fuel spec h = Ok (VRef (length h)) h' /\
    tree_at h' (VRef (length h))
      (DDict [("allowed_failures", DStr "2"); ("build", DDict []); ("run", DDict [])]) fp'.
Proof.
  intros Ht Hf.
  destruct (parse_specification_tree fuel h spec _ fp Ht) as (h' & fp' & Hp & Ht' & _).
  { simpl. lia. }
  exists h', fp'. split; [exact Hp|exact Ht'].
Qed.

Lemma parse_allowed_failures_witness :
  exists h' fp',
    _parse_specification 2 (VRef 0%nat) [ODict [("allowed_failures", VInt 2)]]
      = Ok (VRef 1%nat) h' /\
    tree_at h' (VRef 1%nat)
      (DDict [("allowed_failures", DStr "2"); ("build", DDict []); ("run", DDict [])]) fp'.
Proof.
  apply (parse_allowed_failures 2 [ODict [("allowed_failures", VInt 2)]] (VRef 0%nat) [0%nat]).
  - apply tree_dict with [("allowed_failures", VInt 2)]; solve_tree_one_scalar.
  - lia.
Defined.

(** C7: [_parse_specification] turns the note ["O'Reilly"] into
    ["O''Reilly"], and [_unparse_specification] turns the note
    ["O''Reilly"] into ["O'Reilly"]. *)
Theorem note_escaped_and_unescaped fuel h spec fp :
  (1 < fuel)%nat ->
  (tree_at h spec (DDict [("note", DStr "O'Reilly")]) fp ->
   exists h' fp',
     _parse_specification fuel spec h = Ok (VRef (length h)) h' /\
     tree_at h' (VRef (length h))
       (DDict [("note", DStr "O''Reilly"); ("build", DDict []); ("run", DDict [])]) fp') /\
  (tree_at h spec (DDict [("note", DStr "O''Reilly")]) fp ->
   exists h' fp',
     _unparse_specification fuel spec h = Ok (VRef (length h)) h' /\
     tree_at h' (VRef (length h)) (DDict [("note", DStr "O'Reilly")]) fp').
Proof.
  intros Hf. split; intros Ht.
  - destruct (parse_specification_tree fuel h spec _ fp Ht) as (h' & fp' & Hp & Ht' & _).
    { simpl. lia. }
    exists h', fp'. split; [exact Hp|exact Ht'].
  - pose proof (unparse_specification_tree fuel h spec _ fp Ht) as Hu.
    destruct Hu as (h' & fp' & Hu & Ht' & _).
    { simpl. lia. }
    exists h', fp'. split; [exact Hu|exact Ht'].
Qed.

Lemma note_escaped_and_unescaped_witness :
  (exists h' fp',
     _parse_specification 2 (VRef 0%nat) [ODict [("note", VStr "O'Reilly")]]
       = Ok (VRef 1%nat) h' /\
     tree_at h' (VRef 1%nat)
       (DDict [("note", DStr "O''Reilly"); ("build", DDict []); ("run", DDict [])]) fp') /\
  (exists h' fp',
     _unparse_specification 2 (VRef 0%nat) [ODict [("note", VStr "O''Reilly")]]
       = Ok (VRef 1%nat) h' /\
     tree_at h' (VRef 1%nat) (DDict [("note", DStr "O'Reilly")]) fp').
Proof.
  split.
  - apply (proj1 (note_escaped_and_unescaped 2 [ODict [("note", VStr "O'Reilly")]]
                    (VRef 0%nat) [0%nat] ltac:(lia))).
    apply tree_dict with [("note", VStr "O'Reilly")]; solve_tree_one_scalar.
  - apply (proj2 (note_escaped_and_unescaped 2 [ODict [("note", VStr "O''Reilly")]]
                    (VRef 0%nat) [0%nat] ltac:(lia))).
    apply tree_dict with [("note", VStr "O''Reilly")]; solve_tree_one_scalar.
Defined.

(** C8: an integer field that is absent from the document is absent from
    what [_parse_specification] returns and from what
    [_unparse_specification] returns; both return whenever the integer
    fields that are present can be cast. *)
Theorem absent_int_field_stays_absent fuel h spec items fp k :
  tree_at h spec (DDict items) fp ->
  (depth (DDict items) < fuel)%nat ->
  k ∈ int_to_str ->
  has_key k items = false ->
  (exists h' fp' items',
     _parse_specification fuel spec h = Ok (VRef (length h)) h' /\
     tree_at h' (VRef (length h)) (DDict items') fp' /\
     has_key k items' = false) /\
  (forall r h', _unparse_specification fuel spec h = Ok r h' ->
     exists fp' items', tree_at h' r (DDict items') fp' /\ has_key k items' = false) /\
  ((forall key d, key ∈ str_to_int -> dict_lookup key items = Some d ->
      exists z, doc_int d = inl z) ->
   exists r h', _unparse_specification fuel spec h = Ok r h').
Proof.
  intros Ht Hd Hk Habs.
  pose proof (unparse_specification_tree fuel h spec items fp Ht Hd) as Hu.
  split; [|split].
  - destruct (parse_specification_tree fuel h spec items fp Ht Hd)
      as (h' & fp' & Hp & Ht' & _).
    exists h', fp', (parse_items items). split; [exact Hp|]. split; [exact Ht'|].
    now rewrite parse_items_int_field_absent.
  - intros r h' Hr. unfold unparse_items in Hu.
    destruct (cast_to_int_items _ _ str_to_int) as [items'|e] eqn:Hc.
    + destruct Hu as (h2 & fp2 & Hu & Ht2 & _).
      rewrite Hu in Hr. injection Hr as <- <-.
      exists fp2, items'. split; [exact Ht2|].
      apply cast_to_int_items_keys in Hc.
      rewrite (has_key_keys k items' _ Hc), has_key_map_items. exact Habs.
    + destruct Hu as (h2 & Hu). congruence.
  - intros Hint. unfold unparse_items in Hu.
    destruct (cast_to_int_items_total (map_items (shared_after unescape_str) items) str_to_int)
      with (current := map_items (map_strings unescape_str) items) as [items' Hc].
    + intros key d Hin Hl. rewrite dict_lookup_map_items in Hl.
      destruct (dict_lookup key items) as [d0|] eqn:Hd0; [|discriminate].
      simpl in Hl. injection Hl as <-. rewrite doc_int_shared_after.
      now apply (Hint key d0).
    + now rewrite !map_fst_map_items.
    + rewrite Hc in Hu. destruct Hu as (h2 & fp2 & Hu & _). eauto.
Qed.

Lemma absent_int_field_stays_absent_witness :
  has_key "batch_size" [("allowed_failures", DInt 2)] = false /\
  exists h' fp' items',
    _parse_specification 2 (VRef 0%nat) [ODict [("allowed_failures", VInt 2)]]
      = Ok (VRef 1%nat) h' /\
    tree_at h' (VRef 1%nat) (DDict items') fp' /\
    has_key "batch_size" items' = false.
Proof.
  split; [reflexivity|].
  apply (absent_int_field_stays_absent 2 [ODict [("allowed_failures", VInt 2)]] (VRef 0%nat)
           [("allowed_failures", DInt 2)] [0%nat] "batch_size").
  - apply tree_dict with [("allowed_failures", VInt 2)]; solve_tree_one_scalar.
  - simpl. lia.
  - unfold int_to_str. rewrite !elem_of_cons. tauto.
  - reflexivity.
Defined.

(** * Job logs *)



(** * The success response of [post_inspection] *)

Lemma inspection_id_not_bound : "inspection_id" ∉ module_names.
Proof. apply (bool_decide_unpack _). vm_compute. exact I. Qed.

Lemma load_global_unbound globals h :
  module_namespace globals ->
  load_global globals "inspection_id" h = Raise NameError h.
Proof.
  intros Hns. unfold load_global.
  destruct (dict_lookup "inspection_id" globals) as [v|] eqn:Hv; [|reflexivity].
  exfalso. apply inspection_id_not_bound. apply Hns.
  unfold dict_keys. apply has_key_true. unfold has_key. now rewrite Hv.
Qed.

(** The part before the return statement hands over a response only when
    no Dockerfile was generated, and the response is then the 400 one. *)
Lemma post_inspection_schedule_early create_dockerfile now schedule fuel spec h response h1 :
  post_inspection_schedule create_dockerfile now schedule fuel spec h
    = Ok (inl response) h1 ->
  snd response = 400 /\
  exists error h0, _do_create_dockerfile create_dockerfile spec h = Ok (VNone, error) h0.
Proof.
  unfold post_inspection_schedule. unfold bind at 1.
  destruct (_do_create_dockerfile create_dockerfile spec h) as [[dockerfile error] h0|e h0];
    [|discriminate].
  destruct (is_None dockerfile) eqn:Hnone.
  - destruct dockerfile; try discriminate.
    unfold bind, new_dict, alloc, ret. intros [= <- _]. split; [reflexivity|eauto].
  - unfold bind, ret. intros H. exfalso.
    repeat match type of H with
           | context [match ?m with _ => _ end] => destruct m eqn:?; try discriminate
           end.
Qed.

(** C4: in [post_inspection], once the Dockerfile has been generated and
    the scheduling call has returned a workflow identifier, building the
    202 response reads the name [inspection_id], which the function never
    assigns and the module never binds: the call raises [NameError].
    [post_inspection] returns normally only when no Dockerfile was
    generated, with the 400 response. *)
Theorem post_inspection_unbound_inspection_id
    create_dockerfile now schedule globals fuel spec h :
  module_namespace globals ->
  (forall spec' workflow_id target h1,
     post_inspection_schedule create_dockerfile now schedule fuel spec h
       = Ok (inr (spec', workflow_id, target)) h1 ->
     post_inspection create_dockerfile now schedule globals fuel spec h
       = Raise NameError h1) /\
  (forall response h1,
     post_inspection create_dockerfile now schedule globals fuel spec h = Ok response h1 ->
     snd response = 400 /\
     exists error h0,
       _do_create_dockerfile create_dockerfile spec h = Ok (VNone, error) h0).
Proof.
  intros Hns. split.
  - intros spec' workflow_id target h1 Hs. unfold post_inspection.
    rewrite (bind_ok _ _ _ _ _ Hs). unfold success_response.
    apply bind_raise. now apply load_global_unbound.
  - intros response h1. unfold post_inspection, bind.
    destruct (post_inspection_schedule _ _ _ _ _ _) as [[resp|[[spec' wf] target]] h2|e h2] eqn:Hs;
      [| |discriminate].
    + unfold ret. intros [= <- <-]. eapply post_inspection_schedule_early. exact Hs.
    + unfold success_response. rewrite (bind_raise _ _ _ _ _ (load_global_unbound _ _ Hns)).
      discriminate.
Qed.

Lemma post_inspection_unbound_inspection_id_witness :
  module_namespace [] /\
  exists h1,
    post_inspection (fun _ => ret (VStr "FROM fedora:31", VBool true))
      (ret "2020-01-01T00:00:00") (fun _ _ _ _ => ret (VStr "inspection-1"))
      [] 3 (VRef 0%nat) [ODict []]
    = Raise NameError h1.
Proof.
  assert (Hns : module_namespace []).
  { intros x Hx. now apply elem_of_nil in Hx. }
  split; [exact Hns|].
  eexists.
  apply (proj1 (post_inspection_unbound_inspection_id
                  (fun _ => ret (VStr "FROM fedora:31", VBool true))
                  (ret "2020-01-01T00:00:00") (fun _ _ _ _ => ret (VStr "inspection-1"))
                  [] 3 (VRef 0%nat) [ODict []] Hns)
           (VRef 1%nat) (VStr "inspection-1") "inspection-run-result").
  vm_compute. reflexivity.
Defined.

(** * Default requests *)

Lemma dict_assign_nonempty {V} k (v : V) items : length (dict_assign k v items) <> 0%nat.
Proof. destruct items as [|[k0 v0] items]; simpl; [lia|]. destruct (String.eqb k k0); simpl; lia. Qed.

Lemma truth_value_assign h r ritems k c v :
  h !! r = Some (ODict ritems) ->
  (v = VRef r -> ritems <> []) ->
  truth_value (<[r := ODict (dict_assign k c ritems)]> h) v = truth_value h v.
Proof.
  intros Hr Hne. destruct v as [| | | |x]; try reflexivity. simpl.
  destruct (decide (x = r)) as [->|Hx].
  - rewrite list_lookup_insert_eq by (now apply lookup_lt_Some in Hr). rewrite Hr.
    pose proof (dict_assign_nonempty k c ritems) as Hn.
    specialize (Hne eq_refl).
    destruct ritems; [contradiction|].
    destruct (dict_assign k c _); [simpl in Hn; lia|reflexivity].
  - now rewrite list_lookup_insert_ne by congruence.
Qed.

Lemma or_default_get h ritems k default :
  or_default h (dict_lookup k ritems) default =
  (let current := match dict_lookup k ritems with Some v => v | None => VNone end in
   if truth_value h current then current else default).
Proof. unfold or_default. now destruct (dict_lookup k ritems). Qed.

(** One assignment [dict_["requests"][k] = dict_["requests"].get(k) or default]. *)
Lemma assign_request_default_effect h l items r ritems k default :
  h !! l = Some (ODict items) ->
  dict_lookup "requests" items = Some (VRef r) ->
  h !! r = Some (ODict ritems) ->
  dict_lookup k _DEFAULT_REQUESTS = Some default ->
  assign_request_default (VRef l) k h =
  Ok tt (<[r := ODict (dict_assign k (or_default h (dict_lookup k ritems) default) ritems)]> h).
Proof.
  intros Hl Hreq Hr Hdef. unfold assign_request_default.
  assert (Hget : py_getitem (VRef l) "requests" h = Ok (VRef r) h).
  { unfold py_getitem. now rewrite Hl, Hreq. }
  rewrite (bind_ok _ _ _ _ _ Hget).
  rewrite or_default_get. cbv zeta.
  set (current := match dict_lookup k ritems with Some v => v | None => VNone end).
  assert (Hcur : py_get (VRef r) k VNone h = Ok current h).
  { unfold py_get, current. rewrite Hr. now destruct (dict_lookup k ritems). }
  rewrite (bind_ok _ _ _ _ _ Hcur).
  unfold truthy at 1. unfold bind at 1.
  assert (Hchosen : (if truth_value h current then ret current else default_request k) h
                    = Ok (if truth_value h current then current else default) h).
  { destruct (truth_value h current); [reflexivity|].
    unfold default_request. now rewrite Hdef. }
  rewrite (bind_ok _ _ _ _ _ Hchosen).
  rewrite (bind_ok _ _ _ _ _ Hget).
  unfold py_setitem. now rewrite Hr.
Qed.

(** C10: [_adjust_default_requests] updates the dictionary it is given in
    place.  When the key "requests" is missing it stores a new dictionary
    under it, holding the two defaults.  When "requests" refers to a
    dictionary it assigns, in that dictionary, cpu and memory: the present
    value when it is true, the default "500m" or "256Mi" when the key is
    absent or its value is false (such as [None] or the empty string). *)
Theorem adjust_default_requests_in_place h l items :
  h !! l = Some (ODict items) ->
  (dict_lookup "requests" items = None ->
   _adjust_default_requests (VRef l) h =
   Ok tt (<[length h := ODict [("cpu", VStr "500m"); ("memory", VStr "256Mi")]]>
            (<[l := ODict (items ++ [("requests", VRef (length h))])]>
               (h ++ [ODict []])))) /\
  (forall r ritems,
     dict_lookup "requests" items = Some (VRef r) ->
     h !! r = Some (ODict ritems) ->
     _adjust_default_requests (VRef l) h =
     Ok tt (<[r := ODict (dict_assign "memory"
                            (or_default h (dict_lookup "memory" ritems) (VStr "256Mi"))
                            (dict_assign "cpu"
                               (or_default h (dict_lookup "cpu" ritems) (VStr "500m"))
                               ritems))]> h)) /\
  (forall default,
     or_default h None default = default /\
     or_default h (Some VNone) default = default /\
     or_default h (Some (VStr EmptyString)) default = default /\
     (forall v, truth_value h v = true -> or_default h (Some v) default = v)).
Proof.
  intros Hl.
  assert (Hllt : (l < length h)%nat) by (now apply lookup_lt_Some in Hl).
  assert (Hboth : forall h0 items0 r ritems,
             h0 !! l = Some (ODict items0) ->
             dict_lookup "requests" items0 = Some (VRef r) ->
             h0 !! r = Some (ODict ritems) ->
             (do! assign_request_default (VRef l) "cpu" in
              assign_request_default (VRef l) "memory") h0 =
             Ok tt (<[r := ODict (dict_assign "memory"
                                    (or_default h0 (dict_lookup "memory" ritems) (VStr "256Mi"))
                                    (dict_assign "cpu"
                                       (or_default h0 (dict_lookup "cpu" ritems) (VStr "500m"))
                                       ritems))]> h0)).
  { intros h0 items0 r ritems Hl0 Hreq Hr.
    assert (Hrlt : (r < length h0)%nat) by (now apply lookup_lt_Some in Hr).
    rewrite (bind_ok _ _ _ _ _
               (assign_request_default_effect h0 l items0 r ritems "cpu" (VStr "500m")
                  Hl0 Hreq Hr eq_refl)).
    set (cpu := or_default h0 (dict_lookup "cpu" ritems) (VStr "500m")).
    set (h1 := <[r := ODict (dict_assign "cpu" cpu ritems)]> h0).
    assert (Hr1 : h1 !! r = Some (ODict (dict_assign "cpu" cpu ritems))).
    { unfold h1. now apply list_lookup_insert_eq. }
    assert (Hl1 : exists items1, h1 !! l = Some (ODict items1) /\
                                 dict_lookup "requests" items1 = Some (VRef r)).
    { destruct (decide (l = r)) as [->|Hne].
      - rewrite Hl0 in Hr. injection Hr as <-.
        exists (dict_assign "cpu" cpu items0). split; [exact Hr1|].
        rewrite dict_lookup_assign_ne by discriminate. exact Hreq.
      - exists items0. split; [|exact Hreq].
        unfold h1. rewrite list_lookup_insert_ne by congruence. exact Hl0. }
    destruct Hl1 as (items1 & Hl1 & Hreq1).
    rewrite (assign_request_default_effect h1 l items1 r _ "memory" (VStr "256Mi")
               Hl1 Hreq1 Hr1 eq_refl).
    rewrite dict_lookup_assign_ne by discriminate.
    f_equal. unfold h1. rewrite list_insert_insert_eq. do 3 f_equal.
    unfold or_default. destruct (dict_lookup "memory" ritems) as [v|] eqn:Hm; [|reflexivity].
    fold h1. unfold h1.
    rewrite (truth_value_assign h0 r ritems "cpu" cpu v Hr); [reflexivity|].
    intros _ ->. discriminate. }
  split; [|split].
  - intros Habs.
    set (h1 := h ++ [ODict []]).
    set (h2 := <[l := ODict (items ++ [("requests", VRef (length h))])]> h1).
    assert (Hdef : default_to_empty_dict "requests" (VRef l) h = Ok tt h2).
    { unfold default_to_empty_dict.
      assert (Hc : py_contains "requests" (VRef l) h = Ok false h).
      { unfold py_contains, has_key. now rewrite Hl, Habs. }
      rewrite (bind_ok _ _ _ _ _ Hc). cbv beta iota delta [negb].
      assert (Hl1 : (h ++ [ODict []]) !! l = Some (ODict items)).
      { rewrite lookup_app_l by assumption. exact Hl. }
      unfold bind, new_dict, alloc, py_setitem. cbv beta. rewrite Hl1.
      rewrite dict_assign_new by (now apply dict_lookup_None). reflexivity. }
    unfold _adjust_default_requests. rewrite (bind_ok _ _ _ _ _ Hdef).
    assert (Hlen1 : length h1 = S (length h)).
    { unfold h1. rewrite length_app. simpl. lia. }
    rewrite (Hboth h2 (items ++ [("requests", VRef (length h))]) (length h) []).
    + simpl. reflexivity.
    + unfold h2. apply list_lookup_insert_eq. lia.
    + rewrite <- (dict_assign_new "requests" (VRef (length h)) items)
        by (now apply dict_lookup_None).
      apply dict_lookup_assign_eq.
    + unfold h2. rewrite list_lookup_insert_ne by lia.
      unfold h1. rewrite lookup_app_r by lia. now rewrite Nat.sub_diag.
  - intros r ritems Hreq Hr.
    assert (Hdef : default_to_empty_dict "requests" (VRef l) h = Ok tt h).
    { unfold default_to_empty_dict.
      assert (Hc : py_contains "requests" (VRef l) h = Ok true h).
      { unfold py_contains, has_key. now rewrite Hl, Hreq. }
      now rewrite (bind_ok _ _ _ _ _ Hc). }
    unfold _adjust_default_requests. rewrite (bind_ok _ _ _ _ _ Hdef).
    now apply (Hboth h items r ritems).
  - intros default. repeat split; try reflexivity.
    intros v Hv. simpl. now rewrite Hv.
Qed.

Lemma adjust_default_requests_in_place_witness :
  _adjust_default_requests (VRef 0%nat)
    [ODict [("requests", VRef 1%nat)];
     ODict [("cpu", VStr EmptyString); ("memory", VStr "1Gi")]]
  = Ok tt [ODict [("requests", VRef 1%nat)];
           ODict [("cpu", VStr "500m"); ("memory", VStr "1Gi")]].
Proof.
  apply (proj1 (proj2 (adjust_default_requests_in_place
                         [ODict [("requests", VRef 1%nat)];
                          ODict [("cpu", VStr EmptyString); ("memory", VStr "1Gi")]]
                         0%nat [("requests", VRef 1%nat)] eq_refl))
           1%nat [("cpu", VStr EmptyString); ("memory", VStr "1Gi")] eq_refl eq_refl).
Defined.

(** * The read-only handlers *)


Lemma is_NotFoundException_true e : is_NotFoundException e = true -> e = NotFoundException.
Proof. now destruct e. Qed.

Lemma get_inspection_status_catches
    get_workflow get_pod_status_report get_job_status_report inspection_id :
  get_inspection_status get_workflow get_pod_status_report get_job_status_report
    inspection_id <> Throw NotFoundException.
Proof.
  unfold get_inspection_status.
  destruct (get_workflow _) as [wf|e]; simpl.
  - destruct (doc_getitem wf "status") as [ws|e] eqn:Hws; simpl.
    + destruct (get_pod_status_report _) as [b|e]; simpl.
      * destruct (get_job_status_report _) as [j|e]; simpl; [discriminate|].
        destruct (is_NotFoundException e) eqn:He; simpl; [discriminate|].
        intros [= ->]. discriminate.
      * destruct (is_NotFoundException e) eqn:He; simpl; [discriminate|].
        intros [= ->]. discriminate.
    + destruct wf; simpl in Hws; try (injection Hws as <-; simpl; discriminate).
      destruct (dict_lookup "status" items); [discriminate|].
      injection Hws as <-. simpl. discriminate.
  - destruct (is_NotFoundException e) eqn:He; simpl; [discriminate|].
    intros [= ->]. discriminate.
Qed.

(** X2: [get_inspection_status] never lets a [NotFoundException] escape,
    whichever of the three client calls raises it; a workflow that is a
    mapping without the key "status" makes it raise [KeyError]. *)
Theorem get_inspection_status_escaping
    get_workflow get_pod_status_report get_job_status_report inspection_id :
  get_inspection_status get_workflow get_pod_status_report get_job_status_report
    inspection_id <> Throw NotFoundException /\
  (forall items,
     get_workflow ("inspection_id=" ++ inspection_id)%string = inl (DDict items) ->
     has_key "status" items = false ->
     get_inspection_status get_workflow get_pod_status_report get_job_status_report
       inspection_id = Throw KeyError).
Proof.
  split; [apply get_inspection_status_catches|].
  unfold get_inspection_status.
  intros items -> Hk. simpl. unfold has_key in Hk.
  destruct (dict_lookup "status" items); [discriminate|reflexivity].
Qed.

(** X3: a job that is not found is no error for [get_inspection_status]:
    with the workflow status and the build pod found, the answer is the 200
    response whose job status is [None]. *)
Theorem get_inspection_status_missing_job
    get_workflow get_pod_status_report get_job_status_report inspection_id
    wf workflow_status build_status :
  get_workflow ("inspection_id=" ++ inspection_id)%string = inl wf ->
  doc_getitem wf "status" = inl workflow_status ->
  get_pod_status_report (inspection_id ++ "-1-build")%string = inl build_status ->
  get_job_status_report inspection_id = inr NotFoundException ->
  get_inspection_status get_workflow get_pod_status_report get_job_status_report
    inspection_id
  = Return (response "status"
              (DDict [("build", build_status); ("job", DNone);
                      ("workflow", workflow_status)])
              (DDict [("inspection_id", DStr inspection_id)]) 200).
Proof.
  intros Hwf Hws Hb Hj. unfold get_inspection_status.
  rewrite Hwf. simpl. rewrite Hws. simpl. rewrite Hb. simpl. rewrite Hj. reflexivity.
Qed.

Lemma get_inspection_status_missing_job_witness :
  get_inspection_status
    (fun _ => inl (DDict [("status", DStr "Running")]))
    (fun _ => inl (DDict [("state", DStr "running")]))
    (fun _ => inr NotFoundException) "inspection-1"
  = Return (response "status"
              (DDict [("build", DDict [("state", DStr "running")]); ("job", DNone);
                      ("workflow", DStr "Running")])
              (DDict [("inspection_id", DStr "inspection-1")]) 200).
Proof.
  apply (get_inspection_status_missing_job
           (fun _ => inl (DDict [("status", DStr "Running")]))
           (fun _ => inl (DDict [("state", DStr "running")]))
           (fun _ => inr NotFoundException) "inspection-1"
           (DDict [("status", DStr "Running")]) (DStr "Running")
           (DDict [("state", DStr "running")]));
    reflexivity.
Defined.

(** What [get_inspection_status] returns with status 404 has no "status". *)
Lemma get_inspection_status_404
    get_workflow get_pod_status_report get_job_status_report inspection_id r :
  get_inspection_status get_workflow get_pod_status_report get_job_status_report
    inspection_id = Return (r, 404) ->
  doc_getitem r "status" = inr KeyError.
Proof.
  unfold get_inspection_status.
  destruct (get_workflow _) as [wf|e]; simpl.
  - destruct (doc_getitem wf "status") as [ws|e]; simpl.
    + destruct (get_pod_status_report _) as [b|e]; simpl.
      * destruct (get_job_status_report _) as [j|e]; simpl; [discriminate|].
        destruct (is_NotFoundException e); simpl; discriminate.
      * destruct (is_NotFoundException e); simpl; [|discriminate].
        now intros [= <-].
    + destruct (is_NotFoundException e); simpl; [|discriminate].
      now intros [= <-].
  - destruct (is_NotFoundException e); simpl; [|discriminate].
    now intros [= <-].
Qed.

(** X4: when [get_inspection_status] answers 404 (the workflow or the build
    pod was not found), [get_inspection_job_logs] does not answer: reading
    "status" from that response raises [KeyError]. *)
Theorem get_inspection_job_logs_status_not_found
    get_pod_log get_workflow get_pod_status_report get_job_status_report
    get_pod_ids_from_job json_loads inspection_id r :
  get_inspection_status get_workflow get_pod_status_report get_job_status_report
    inspection_id = Return (r, 404) ->
  get_inspection_job_logs get_pod_log get_workflow get_pod_status_report
    get_job_status_report get_pod_ids_from_job json_loads inspection_id
  = Throw KeyError.
Proof.
  intros Hs. unfold get_inspection_job_logs. rewrite Hs. simpl.
  now rewrite (get_inspection_status_404 _ _ _ _ _ Hs).
Qed.

Lemma get_inspection_job_logs_status_not_found_witness :
  get_inspection_job_logs (fun _ => inl "{}") (fun _ => inr NotFoundException)
    (fun _ => inl DNone) (fun _ => inl DNone) (fun _ => inl []) (fun _ => inl DNone)
    "inspection-1"
  = Throw KeyError.
Proof.
  apply (get_inspection_job_logs_status_not_found
           (fun _ => inl "{}") (fun _ => inr NotFoundException)
           (fun _ => inl DNone) (fun _ => inl DNone) (fun _ => inl []) (fun _ => inl DNone)
           "inspection-1"
           (DDict [("error", DStr "A Workflow for the given inspection id was not found");
                   ("parameters", DDict [("inspection_id", DStr "inspection-1")])])).
  reflexivity.
Defined.

(** The logs [json.loads] accepts, in order. *)
Lemma load_pod_logs_skips json_loads pod_logs :
  Forall (fun log => match json_loads log with
                     | inl _ => True
                     | inr e => is_JSONDecodeError e = true
                     end) pod_logs ->
  load_pod_logs json_loads pod_logs
  = Next (omap (fun log => match json_loads log with
                           | inl d => Some d
                           | inr _ => None
                           end) pod_logs).
Proof.
  induction 1 as [|log logs Hlog _ IH]; [reflexivity|].
  cbn [load_pod_logs omap list_omap]. cbv beta. rewrite IH.
  destruct (json_loads log) as [d|e]; simpl; [reflexivity|]. now rewrite Hlog.
Qed.

Lemma collect_pod_logs_all get_pod_log pod_ids pod_logs :
  Forall2 (fun pod_id log => get_pod_log pod_id = inl log) pod_ids pod_logs ->
  collect_pod_logs get_pod_log pod_ids = Next pod_logs.
Proof.
  induction 1 as [|pod_id log pod_ids pod_logs Hlog _ IH]; [reflexivity|].
  cbn [collect_pod_logs]. rewrite Hlog. simpl. now rewrite IH.
Qed.

(** X5: once the build is terminated and every pod of the job has a log,
    [get_inspection_job_logs] answers with the logs that [json.loads]
    accepts, in the order of the pods, skipping those it rejects with
    [JSONDecodeError]; it answers 404 when none of the accepted logs is
    true. *)
Theorem get_inspection_job_logs_skips_unparsable
    get_pod_log get_workflow get_pod_status_report get_job_status_report
    get_pod_ids_from_job json_loads inspection_id
    r status inspection_status build state pod_ids pod_logs :
  get_inspection_status get_workflow get_pod_status_report get_job_status_report
    inspection_id = Return (r, status) ->
  doc_getitem r "status" = inl inspection_status ->
  doc_getitem inspection_status "build" = inl build ->
  doc_get build "state" = inl state ->
  doc_is_str state "terminated" = true ->
  get_pod_ids_from_job inspection_id = inl pod_ids ->
  Forall2 (fun pod_id log => get_pod_log pod_id = inl log) pod_ids pod_logs ->
  Forall (fun log => match json_loads log with
                     | inl _ => True
                     | inr e => is_JSONDecodeError e = true
                     end) pod_logs ->
  let parameters := DDict [("inspection_id", DStr inspection_id)] in
  let accepted := omap (fun log => match json_loads log with
                                   | inl d => Some d
                                   | inr _ => None
                                   end) pod_logs in
  get_inspection_job_logs get_pod_log get_workflow get_pod_status_report
    get_job_status_report get_pod_ids_from_job json_loads inspection_id
  = if existsb doc_truthy accepted
    then Return (response "logs" (DList accepted) parameters 200)
    else Return (response_with_status
                   "Inspection run did not produce any logs or it was deleted by OpenShift"
                   inspection_status parameters 404).
Proof.
  intros Hs Hst Hb Hstate Hterm Hids Hlogs Hjson. cbv zeta.
  unfold get_inspection_job_logs. rewrite Hs. simpl.
  rewrite Hst. simpl. rewrite Hb. simpl. rewrite Hstate. simpl. rewrite Hterm. simpl.
  rewrite Hids. simpl. rewrite (collect_pod_logs_all _ _ _ Hlogs). simpl.
  rewrite (load_pod_logs_skips _ _ Hjson). simpl.
  now destruct (existsb doc_truthy _).
Qed.

Lemma get_inspection_job_logs_skips_unparsable_witness :
  get_inspection_job_logs
    (fun pod => if String.eqb pod "pod-1" then inl "not json" else inl "{}")
    (fun _ => inl (DDict [("status", DStr "Succeeded")]))
    (fun _ => inl (DDict [("state", DStr "terminated")]))
    (fun _ => inr NotFoundException)
    (fun _ => inl ["pod-1"; "pod-2"])
    (fun log => if String.eqb log "{}" then inl (DDict [("exit_code", DInt 0)])
                else inr JSONDecodeError)
    "inspection-1"
  = Return (response "logs" (DList [DDict [("exit_code", DInt 0)]])
              (DDict [("inspection_id", DStr "inspection-1")]) 200).
Proof.
  apply (get_inspection_job_logs_skips_unparsable
           (fun pod => if String.eqb pod "pod-1" then inl "not json" else inl "{}")
           (fun _ => inl (DDict [("status", DStr "Succeeded")]))
           (fun _ => inl (DDict [("state", DStr "terminated")]))
           (fun _ => inr NotFoundException)
           (fun _ => inl ["pod-1"; "pod-2"])
           (fun log => if String.eqb log "{}" then inl (DDict [("exit_code", DInt 0)])
                       else inr JSONDecodeError)
           "inspection-1"
           (DDict [("status",
                    DDict [("build", DDict [("state", DStr "terminated")]);
                           ("job", DNone); ("workflow", DStr "Succeeded")]);
                   ("parameters", DDict [("inspection_id", DStr "inspection-1")])])
           200
           (DDict [("build", DDict [("state", DStr "terminated")]);
                   ("job", DNone); ("workflow", DStr "Succeeded")])
           (DDict [("state", DStr "terminated")]) (DStr "terminated")
           ["pod-1"; "pod-2"] ["not json"; "{}"]);
    try reflexivity.
  - repeat constructor.
  - repeat constructor.
Defined.

(** * Default requests, again *)

Lemma dict_assign_same {V} k (v : V) items :
  dict_lookup k items = Some v -> dict_assign k v items = items.
Proof.
  induction items as [|[k0 v0] items IH]; simpl; [discriminate|].
  destruct (String.eqb k k0) eqn:E.
  - apply String.eqb_eq in E. subst. now intros [= ->].
  - intros H. now rewrite IH.
Qed.

Lemma dict_assign_not_nil {V} k (v : V) items : dict_assign k v items <> [].
Proof.
  destruct items as [|[k0 v0] items]; simpl; [discriminate|].
  destruct (String.eqb k k0); discriminate.
Qed.

(** The truth value of [v] does not change when a dictionary that is not
    empty is replaced by one that is not empty. *)
Lemma truth_value_replace h r ritems ritems' v :
  h !! r = Some (ODict ritems) ->
  (v = VRef r -> ritems <> []) -> ritems' <> [] ->
  truth_value (<[r := ODict ritems']> h) v = truth_value h v.
Proof.
  intros Hr Hne Hne'. destruct v as [| | | |x]; try reflexivity. simpl.
  destruct (decide (x = r)) as [->|Hx].
  - rewrite list_lookup_insert_eq by (now apply lookup_lt_Some in Hr). rewrite Hr.
    specialize (Hne eq_refl). destruct ritems; [contradiction|].
    destruct ritems'; [contradiction|reflexivity].
  - now rewrite list_lookup_insert_ne by congruence.
Qed.

Lemma assign_request_default_run h l items r ritems k default :
  h !! l = Some (ODict items) ->
  dict_lookup "requests" items = Some (VRef r) ->
  h !! r = Some (ODict ritems) ->
  dict_lookup k _DEFAULT_REQUESTS = Some default ->
  assign_request_default (VRef l) k h =
  Ok tt (<[r := ODict (dict_assign k (or_default h (dict_lookup k ritems) default) ritems)]> h).
Proof.
  intros Hl Hreq Hr Hdef. unfold assign_request_default.
  assert (Hget : py_getitem (VRef l) "requests" h = Ok (VRef r) h).
  { unfold py_getitem. now rewrite Hl, Hreq. }
  rewrite (bind_ok _ _ _ _ _ Hget).
  set (current := match dict_lookup k ritems with Some v => v | None => VNone end).
  assert (Hcur : py_get (VRef r) k VNone h = Ok current h).
  { unfold py_get, current. rewrite Hr. now destruct (dict_lookup k ritems). }
  rewrite (bind_ok _ _ _ _ _ Hcur).
  unfold truthy at 1. unfold bind at 1.
  assert (Hchosen : (if truth_value h current then ret current else default_request k) h
                    = Ok (or_default h (dict_lookup k ritems) default) h).
  { unfold or_default, current. destruct (dict_lookup k ritems) as [v|].
    - destruct (truth_value h v); [reflexivity|].
      unfold default_request. now rewrite Hdef.
    - simpl. unfold default_request. now rewrite Hdef. }
  rewrite (bind_ok _ _ _ _ _ Hchosen).
  rewrite (bind_ok _ _ _ _ _ Hget).
  unfold py_setitem. now rewrite Hr.
Qed.

(** The effect of [_adjust_default_requests] when "requests" refers to a
    dictionary. *)
Lemma adjust_requests_present h l items r ritems :
  h !! l = Some (ODict items) ->
  dict_lookup "requests" items = Some (VRef r) ->
  h !! r = Some (ODict ritems) ->
  _adjust_default_requests (VRef l) h =
  Ok tt (<[r := ODict (dict_assign "memory"
                         (or_default h (dict_lookup "memory" ritems) (VStr "256Mi"))
                         (dict_assign "cpu"
                            (or_default h (dict_lookup "cpu" ritems) (VStr "500m"))
                            ritems))]> h).
Proof.
  intros Hl Hreq Hr.
  assert (Hrlt : (r < length h)%nat) by (now apply lookup_lt_Some in Hr).
  assert (Hdef : default_to_empty_dict "requests" (VRef l) h = Ok tt h).
  { unfold default_to_empty_dict.
    assert (Hc : py_contains "requests" (VRef l) h = Ok true h).
    { unfold py_contains, has_key. now rewrite Hl, Hreq. }
    now rewrite (bind_ok _ _ _ _ _ Hc). }
  unfold _adjust_default_requests. rewrite (bind_ok _ _ _ _ _ Hdef).
  rewrite (bind_ok _ _ _ _ _
             (assign_request_default_run h l items r ritems "cpu" (VStr "500m")
                Hl Hreq Hr eq_refl)).
  set (cpu := or_default h (dict_lookup "cpu" ritems) (VStr "500m")).
  set (h1 := <[r := ODict (dict_assign "cpu" cpu ritems)]> h).
  assert (Hr1 : h1 !! r = Some (ODict (dict_assign "cpu" cpu ritems))).
  { unfold h1. now apply list_lookup_insert_eq. }
  assert (Hl1 : exists items1, h1 !! l = Some (ODict items1) /\
                               dict_lookup "requests" items1 = Some (VRef r)).
  { destruct (decide (l = r)) as [->|Hne].
    - rewrite Hl in Hr. injection Hr as <-.
      exists (dict_assign "cpu" cpu items). split; [exact Hr1|].
      rewrite dict_lookup_assign_ne by discriminate. exact Hreq.
    - exists items. split; [|exact Hreq].
      unfold h1. rewrite list_lookup_insert_ne by congruence. exact Hl. }
  destruct Hl1 as (items1 & Hl1 & Hreq1).
  rewrite (assign_request_default_run h1 l items1 r _ "memory" (VStr "256Mi")
             Hl1 Hreq1 Hr1 eq_refl).
  rewrite dict_lookup_assign_ne by discriminate.
  f_equal. unfold h1. rewrite list_insert_insert_eq. do 3 f_equal.
  unfold or_default. destruct (dict_lookup "memory" ritems) as [v|] eqn:Hm; [|reflexivity].
  rewrite (truth_value_replace h r ritems _ v Hr); [reflexivity| |apply dict_assign_not_nil].
  intros _ ->. discriminate.
Qed.

(** The effect of [_adjust_default_requests] when "requests" is missing. *)
Lemma adjust_requests_absent h l items :
  h !! l = Some (ODict items) ->
  dict_lookup "requests" items = None ->
  _adjust_default_requests (VRef l) h =
  Ok tt (<[length h := ODict [("cpu", VStr "500m"); ("memory", VStr "256Mi")]]>
           (<[l := ODict (items ++ [("requests", VRef (length h))])]>
              (h ++ [ODict []]))).
Proof.
  intros Hl Habs.
  assert (Hllt : (l < length h)%nat) by (now apply lookup_lt_Some in Hl).
  set (h1 := h ++ [ODict []]).
  set (h2 := <[l := ODict (items ++ [("requests", VRef (length h))])]> h1).
  assert (Hlen1 : length h1 = S (length h)).
  { unfold h1. rewrite length_app. simpl. lia. }
  assert (Hl2 : h2 !! l = Some (ODict (items ++ [("requests", VRef (length h))]))).
  { unfold h2. apply list_lookup_insert_eq. lia. }
  assert (Hreq2 : dict_lookup "requests" (items ++ [("requests", VRef (length h))])
                  = Some (VRef (length h))).
  { rewrite <- (dict_assign_new "requests" (VRef (length h)) items)
      by (now apply dict_lookup_None).
    apply dict_lookup_assign_eq. }
  assert (Hr2 : h2 !! length h = Some (ODict [])).
  { unfold h2. rewrite list_lookup_insert_ne by lia.
    unfold h1. rewrite lookup_app_r by lia. now rewrite Nat.sub_diag. }
  assert (Hone : default_to_empty_dict "requests" (VRef l) h = Ok tt h2).
  { unfold default_to_empty_dict.
    assert (Hc : py_contains "requests" (VRef l) h = Ok false h).
    { unfold py_contains, has_key. now rewrite Hl, Habs. }
    rewrite (bind_ok _ _ _ _ _ Hc). cbv beta iota delta [negb].
    assert (Hl1 : (h ++ [ODict []]) !! l = Some (ODict items)).
    { rewrite lookup_app_l by assumption. exact Hl. }
    unfold bind, new_dict, alloc, py_setitem. cbv beta. rewrite Hl1.
    rewrite dict_assign_new by (now apply dict_lookup_None). reflexivity. }
  pose proof (adjust_requests_present h2 l _ (length h) [] Hl2 Hreq2 Hr2) as Hp.
  unfold _adjust_default_requests in Hp |- *.
  rewrite (bind_ok _ _ _ _ _ Hone).
  assert (Hsame : default_to_empty_dict "requests" (VRef l) h2 = Ok tt h2).
  { unfold default_to_empty_dict.
    assert (Hc : py_contains "requests" (VRef l) h2 = Ok true h2).
    { unfold py_contains, has_key. now rewrite Hl2, Hreq2. }
    now rewrite (bind_ok _ _ _ _ _ Hc). }
  rewrite (bind_ok _ _ _ _ _ Hsame) in Hp. rewrite Hp. reflexivity.
Qed.

Lemma or_default_true h current default :
  truth_value h default = true ->
  truth_value h (or_default h current default) = true.
Proof.
  intros Hd. unfold or_default. destruct current as [v|]; [|exact Hd].
  destruct (truth_value h v) eqn:Hv; [exact Hv|exact Hd].
Qed.

(** X6: [_adjust_default_requests] leaves "requests" with a cpu and a memory
    entry that are both true, and a second call changes nothing: it is
    idempotent.  This holds whenever the argument is a dictionary whose
    "requests" is missing or refers to a dictionary. *)
Theorem adjust_default_requests_idempotent h l items :
  h !! l = Some (ODict items) ->
  (dict_lookup "requests" items = None \/
   exists r ritems, dict_lookup "requests" items = Some (VRef r) /\
                    h !! r = Some (ODict ritems)) ->
  exists h' r items' ritems' cpu memory,
    _adjust_default_requests (VRef l) h = Ok tt h' /\
    h' !! l = Some (ODict items') /\
    dict_lookup "requests" items' = Some (VRef r) /\
    h' !! r = Some (ODict ritems') /\
    dict_lookup "cpu" ritems' = Some cpu /\ truth_value h' cpu = true /\
    dict_lookup "memory" ritems' = Some memory /\ truth_value h' memory = true /\
    _adjust_default_requests (VRef l) h' = Ok tt h'.
Proof.
  intros Hl Hreq.
  assert (Hllt : (l < length h)%nat) by (now apply lookup_lt_Some in Hl).
  (* Both cases reduce to a store in which "requests" is a dictionary. *)
  assert (Hpresent : forall h0 items0 r ritems,
             h0 !! l = Some (ODict items0) ->
             dict_lookup "requests" items0 = Some (VRef r) ->
             h0 !! r = Some (ODict ritems) ->
             exists h' items' ritems' cpu memory,
               _adjust_default_requests (VRef l) h0 = Ok tt h' /\
               h' !! l = Some (ODict items') /\
               dict_lookup "requests" items' = Some (VRef r) /\
               h' !! r = Some (ODict ritems') /\
               dict_lookup "cpu" ritems' = Some cpu /\ truth_value h' cpu = true /\
               dict_lookup "memory" ritems' = Some memory /\ truth_value h' memory = true /\
               _adjust_default_requests (VRef l) h' = Ok tt h').
  { intros h0 items0 r ritems Hl0 Hreq0 Hr0.
    assert (Hrlt : (r < length h0)%nat) by (now apply lookup_lt_Some in Hr0).
    set (cpu := or_default h0 (dict_lookup "cpu" ritems) (VStr "500m")).
    set (memory := or_default h0 (dict_lookup "memory" ritems) (VStr "256Mi")).
    set (ritems' := dict_assign "memory" memory (dict_assign "cpu" cpu ritems)).
    set (h' := <[r := ODict ritems']> h0).
    assert (Hr' : h' !! r = Some (ODict ritems')).
    { unfold h'. now apply list_lookup_insert_eq. }
    assert (Hcpu : dict_lookup "cpu" ritems' = Some cpu).
    { unfold ritems'. rewrite dict_lookup_assign_ne by discriminate.
      apply dict_lookup_assign_eq. }
    assert (Hmem : dict_lookup "memory" ritems' = Some memory).
    { unfold ritems'. apply dict_lookup_assign_eq. }
    assert (Hkeep : forall k default v,
               truth_value h0 default = true ->
               v = or_default h0 (dict_lookup k ritems) default ->
               truth_value h' v = true).
    { intros k default v Hd ->. unfold h'.
      rewrite (truth_value_replace h0 r ritems ritems' _ Hr0).
      - now apply or_default_true.
      - unfold or_default. destruct (dict_lookup k ritems) as [v|] eqn:Hk.
        + intros _ ->. discriminate.
        + intros ->. discriminate Hd || (simpl in Hd; rewrite Hr0 in Hd; destruct ritems; [discriminate|discriminate]).
      - unfold ritems'. apply dict_assign_not_nil. }
    assert (Hcpu' : truth_value h' cpu = true) by (apply (Hkeep "cpu" (VStr "500m")); reflexivity).
    assert (Hmem' : truth_value h' memory = true)
      by (apply (Hkeep "memory" (VStr "256Mi")); reflexivity).
    assert (Hl' : exists items', h' !! l = Some (ODict items') /\
                                 dict_lookup "requests" items' = Some (VRef r)).
    { destruct (decide (l = r)) as [->|Hne].
      - rewrite Hl0 in Hr0. injection Hr0 as <-.
        exists ritems'. split; [exact Hr'|]. unfold ritems'.
        rewrite !dict_lookup_assign_ne by discriminate. exact Hreq0.
      - exists items0. split; [|exact Hreq0].
        unfold h'. rewrite list_lookup_insert_ne by congruence. exact Hl0. }
    destruct Hl' as (items' & Hl' & Hreq').
    exists h', items', ritems', cpu, memory.
    split; [now apply (adjust_requests_present h0 l items0 r ritems)|].
    do 7 (split; [assumption|]).
    rewrite (adjust_requests_present h' l items' r ritems' Hl' Hreq' Hr').
    rewrite Hcpu, Hmem. unfold or_default. rewrite Hcpu', Hmem'.
    rewrite (dict_assign_same "cpu" cpu ritems' Hcpu).
    rewrite (dict_assign_same "memory" memory ritems' Hmem).
    f_equal. apply list_insert_id. exact Hr'. }
  destruct Hreq as [Habs|(r & ritems & Hreq & Hr)].
  - set (h2 := <[l := ODict (items ++ [("requests", VRef (length h))])]> (h ++ [ODict []])).
    assert (Hlen1 : length (h ++ [ODict []]) = S (length h)).
    { rewrite length_app. simpl. lia. }
    assert (Hl2 : h2 !! l = Some (ODict (items ++ [("requests", VRef (length h))]))).
    { unfold h2. apply list_lookup_insert_eq. lia. }
    assert (Hreq2 : dict_lookup "requests" (items ++ [("requests", VRef (length h))])
                    = Some (VRef (length h))).
    { rewrite <- (dict_assign_new "requests" (VRef (length h)) items)
        by (now apply dict_lookup_None).
      apply dict_lookup_assign_eq. }
    assert (Hr2 : h2 !! length h = Some (ODict [])).
    { unfold h2. rewrite list_lookup_insert_ne by lia.
      rewrite lookup_app_r by lia. now rewrite Nat.sub_diag. }
    destruct (Hpresent h2 _ (length h) [] Hl2 Hreq2 Hr2)
      as (h' & items' & ritems' & cpu & memory & Hrun & Hrest).
    exists h', (length h), items', ritems', cpu, memory.
    split; [|exact Hrest].
    rewrite (adjust_requests_absent h l items Hl Habs).
    rewrite (adjust_requests_present h2 l _ (length h) [] Hl2 Hreq2 Hr2) in Hrun.
    exact Hrun.
  - destruct (Hpresent h items r ritems Hl Hreq Hr)
      as (h' & items' & ritems' & cpu & memory & Hrest).
    exists h', r, items', ritems', cpu, memory. exact Hrest.
Qed.

Lemma adjust_default_requests_idempotent_witness :
  exists h',
    _adjust_default_requests (VRef 0%nat)
      [ODict [("requests", VRef 1%nat)]; ODict [("cpu", VStr "2"); ("memory", VStr "")]]
    = Ok tt h' /\
    _adjust_default_requests (VRef 0%nat) h' = Ok tt h'.
Proof.
  destruct (adjust_default_requests_idempotent
              [ODict [("requests", VRef 1%nat)];
               ODict [("cpu", VStr "2"); ("memory", VStr "")]]
              0%nat [("requests", VRef 1%nat)] eq_refl)
    as (h' & r & items' & ritems' & cpu & memory & Hrun & _ & _ & _ & _ & _ & _ & _ & Hagain).
  - right. exists 1%nat, [("cpu", VStr "2"); ("memory", VStr "")]. split; reflexivity.
  - exists h'. split; assumption.
Defined.

(** X7: called on anything but a dictionary, [_adjust_default_requests]
    raises [TypeError]. *)
Theorem adjust_default_requests_not_a_dict h v :
  (forall l items, v = VRef l -> h !! l <> Some (ODict items)) ->
  exists h', _adjust_default_requests v h = Raise TypeError h'.
Proof.
  intros Hnot. unfold _adjust_default_requests, default_to_empty_dict.
  destruct v as [|b|z|s|l]; try (exists h; reflexivity).
  - (* a string: the membership test succeeds, item access does not *)
    unfold bind at 1. unfold bind at 1. unfold py_contains.
    destruct (is_substring "requests" s); cbv beta iota delta [negb].
    + exists h. reflexivity.
    + eexists. reflexivity.
  - unfold bind at 1. unfold bind at 1. unfold py_contains.
    destruct (h !! l) as [[items|elts]|] eqn:Hl.
    + now destruct (Hnot l items eq_refl).
    + assert (Hl1 : (h ++ [ODict []]) !! l = Some (OList elts)).
      { rewrite lookup_app_l by (now apply lookup_lt_Some in Hl). exact Hl. }
      destruct (existsb (is_str_equal_to "requests") elts); cbv beta iota delta [negb].
      * exists h. unfold ret, bind, assign_request_default, bind, py_getitem.
        now rewrite Hl.
      * eexists. unfold bind, new_dict, alloc, py_setitem. cbv beta.
        rewrite Hl1. reflexivity.
    + exists h. reflexivity.
Qed.

Lemma adjust_default_requests_not_a_dict_witness :
  exists h', _adjust_default_requests (VStr "no requests here") [] = Raise TypeError h'.
Proof.
  apply adjust_default_requests_not_a_dict. intros l items H. discriminate H.
Defined.

(** X8: when the dictionary holds under "requests" something that is not a
    dictionary, [_adjust_default_requests] raises [AttributeError] and the
    store is as before the call. *)
Theorem adjust_default_requests_bad_requests h l items w :
  h !! l = Some (ODict items) ->
  dict_lookup "requests" items = Some w ->
  (forall r ritems, w = VRef r -> h !! r <> Some (ODict ritems)) ->
  _adjust_default_requests (VRef l) h = Raise AttributeError h.
Proof.
  intros Hl Hreq Hnot.
  assert (Hdef : default_to_empty_dict "requests" (VRef l) h = Ok tt h).
  { unfold default_to_empty_dict.
    assert (Hc : py_contains "requests" (VRef l) h = Ok true h).
    { unfold py_contains, has_key. now rewrite Hl, Hreq. }
    now rewrite (bind_ok _ _ _ _ _ Hc). }
  unfold _adjust_default_requests. rewrite (bind_ok _ _ _ _ _ Hdef).
  unfold assign_request_default.
  assert (Hget : py_getitem (VRef l) "requests" h = Ok w h).
  { unfold py_getitem. now rewrite Hl, Hreq. }
  unfold bind at 1. unfold bind at 1. rewrite Hget.
  unfold bind at 1. unfold py_get.
  destruct w as [|b|z|s|r]; try reflexivity.
  destruct (h !! r) as [[ritems|elts]|] eqn:Hr; try reflexivity.
  now destruct (Hnot r ritems eq_refl).
Qed.

Lemma adjust_default_requests_bad_requests_witness :
  _adjust_default_requests (VRef 0%nat) [ODict [("requests", VNone)]]
  = Raise AttributeError [ODict [("requests", VNone)]].
Proof.
  apply (adjust_default_requests_bad_requests _ 0%nat [("requests", VNone)] VNone);
    [reflexivity | reflexivity | intros r ritems H; discriminate H].
Defined.

(** * Build parameters *)

Lemma copy_hardware_parameters_run keys : forall h w p hitems acc,
  w <> p -> h !! w = Some (ODict hitems) -> h !! p = Some (ODict acc) ->
  copy_hardware_parameters (VRef w) (VRef p) keys h =
  Ok tt (<[p := ODict (fold_left
                         (fun acc (kn : string * string) =>
                            match dict_lookup (fst kn) hitems with
                            | Some v => dict_assign (snd kn) v acc
                            | None => acc
                            end) keys acc)]> h).
Proof.
  induction keys as [|[key name] keys IH]; intros h w p hitems acc Hwp Hw Hp.
  - simpl. unfold ret. f_equal. symmetry. now apply list_insert_id.
  - cbn [copy_hardware_parameters fold_left fst snd].
    assert (Hplt : (p < length h)%nat) by (now apply lookup_lt_Some in Hp).
    assert (Hc : py_contains key (VRef w) h = Ok (has_key key hitems) h).
    { unfold py_contains. now rewrite Hw. }
    rewrite (bind_ok _ _ _ _ _ Hc). unfold has_key.
    destruct (dict_lookup key hitems) as [v|] eqn:Hk.
    + assert (Hset : (let! v := py_getitem (VRef w) key in py_setitem (VRef p) name v) h
                     = Ok tt (<[p := ODict (dict_assign name v acc)]> h)).
      { unfold bind, py_getitem, py_setitem. now rewrite Hw, Hk, Hp. }
      rewrite (bind_ok _ _ _ _ _ Hset).
      rewrite (IH _ w p hitems (dict_assign name v acc) Hwp).
      * now rewrite list_insert_insert_eq.
      * rewrite list_lookup_insert_ne by congruence. exact Hw.
      * now apply list_lookup_insert_eq.
    + assert (Hskip : ret tt h = Ok tt h) by reflexivity.
      rewrite (bind_ok _ _ _ _ _ Hskip).
      now apply (IH h w p hitems acc).
Qed.

Lemma hardware_items_fold (hitems : list (string * value)) :
  fold_left (fun acc (kn : string * string) =>
               match dict_lookup (fst kn) hitems with
               | Some v => dict_assign (snd kn) v acc
               | None => acc
               end) hardware_parameters []
  = hardware_items hitems.
Proof.
  unfold hardware_items, hardware_parameters. cbn [fold_left omap list_omap fst snd].
  destruct (dict_lookup "cpu_family" hitems), (dict_lookup "cpu_model" hitems),
    (dict_lookup "physical_cpus" hitems), (dict_lookup "processor" hitems); reflexivity.
Qed.

Lemma construct_parameters_hardware_run h l items r ritems w hitems :
  h !! l = Some (ODict items) ->
  dict_lookup "requests" items = Some (VRef r) ->
  h !! r = Some (ODict ritems) ->
  dict_lookup "hardware" ritems = Some (VRef w) ->
  h !! w = Some (ODict hitems) ->
  _construct_parameters_dict (VRef l) h =
  Ok (VRef (length h), true)
     (h ++ [ODict (hardware_items hitems); ODict []; ODict []; ODict []]).
Proof.
  intros Hl Hreq Hr Hhw Hw.
  assert (Hllt : (l < length h)%nat) by (now apply lookup_lt_Some in Hl).
  assert (Hrlt : (r < length h)%nat) by (now apply lookup_lt_Some in Hr).
  assert (Hwlt : (w < length h)%nat) by (now apply lookup_lt_Some in Hw).
  assert (Hkeep : forall x o more, (x < length h)%nat -> h !! x = Some o ->
                                   (h ++ more) !! x = Some o).
  { intros x o more Hx Ho. rewrite lookup_app_l by exact Hx. exact Ho. }
  unfold _construct_parameters_dict.
  unfold bind at 1. unfold new_dict at 1. unfold alloc at 1. cbv beta iota.
  unfold bind at 1. unfold new_dict at 1. unfold alloc at 1. cbv beta iota.
  rewrite <- app_assoc. cbn [app].
  set (h2 := h ++ [ODict []; ODict []]).
  assert (Hl2 : h2 !! l = Some (ODict items)) by (now apply Hkeep).
  assert (Hr2 : h2 !! r = Some (ODict ritems)) by (now apply Hkeep).
  assert (Hg : forall default, py_get (VRef l) "requests" default h2 = Ok (VRef r) h2).
  { intros default. unfold py_get. now rewrite Hl2, Hreq. }
  rewrite (bind_ok _ _ _ _ _ (Hg _)).
  assert (Hc : py_contains "hardware" (VRef r) h2 = Ok true h2).
  { unfold py_contains, has_key. now rewrite Hr2, Hhw. }
  rewrite (bind_ok _ _ _ _ _ Hc). cbv iota.
  unfold bind at 1. unfold new_dict at 1. unfold alloc at 1. cbv beta iota.
  unfold h2. rewrite <- app_assoc. cbn [app].
  set (h3 := h ++ [ODict []; ODict []; ODict []]).
  assert (Hl3 : h3 !! l = Some (ODict items)) by (now apply Hkeep).
  assert (Hg3 : forall default, py_get (VRef l) "requests" default h3 = Ok (VRef r) h3).
  { intros default. unfold py_get. now rewrite Hl3, Hreq. }
  rewrite (bind_ok _ _ _ _ _ (Hg3 _)).
  unfold bind at 1. unfold new_dict at 1. unfold alloc at 1. cbv beta iota.
  unfold h3. rewrite <- app_assoc. cbn [app].
  set (h4 := h ++ [ODict []; ODict []; ODict []; ODict []]).
  assert (Hr4 : h4 !! r = Some (ODict ritems)) by (now apply Hkeep).
  assert (Hw4 : h4 !! w = Some (ODict hitems)) by (now apply Hkeep).
  assert (Hp4 : h4 !! length h = Some (ODict [])).
  { unfold h4. rewrite lookup_app_r by lia. now rewrite Nat.sub_diag. }
  assert (Hgh : forall default, py_get (VRef r) "hardware" default h4 = Ok (VRef w) h4).
  { intros default. unfold py_get. now rewrite Hr4, Hhw. }
  rewrite (bind_ok _ _ _ _ _ (Hgh _)).
  assert (Hwp : w <> length h) by lia.
  rewrite (bind_ok _ _ _ _ _
             (copy_hardware_parameters_run hardware_parameters h4 w (length h) hitems []
                Hwp Hw4 Hp4)).
  rewrite hardware_items_fold. unfold ret. f_equal.
  unfold h4. rewrite insert_app_r_alt by lia. now rewrite Nat.sub_diag.
Qed.



Lemma construct_parameters_no_hardware_run h l items :
  h !! l = Some (ODict items) ->
  (dict_lookup "requests" items = None \/
   exists r ritems, dict_lookup "requests" items = Some (VRef r) /\
                    h !! r = Some (ODict ritems) /\
                    dict_lookup "hardware" ritems = None) ->
  _construct_parameters_dict (VRef l) h =
  Ok (VRef (length h), false) (h ++ [ODict []; ODict []]).
Proof.
  intros Hl Hreq.
  assert (Hllt : (l < length h)%nat) by (now apply lookup_lt_Some in Hl).
  unfold _construct_parameters_dict.
  unfold bind at 1. unfold new_dict at 1. unfold alloc at 1. cbv beta iota.
  unfold bind at 1. unfold new_dict at 1. unfold alloc at 1. cbv beta iota.
  rewrite <- app_assoc. cbn [app].
  set (h2 := h ++ [ODict []; ODict []]).
  assert (Hl2 : h2 !! l = Some (ODict items)).
  { unfold h2. rewrite lookup_app_l by exact Hllt. exact Hl. }
  destruct Hreq as [Habs|(r & ritems & Hreq & Hr & Hhw)].
  - assert (Hg : py_get (VRef l) "requests" (VRef (length (h ++ [ODict []]))) h2
                 = Ok (VRef (S (length h))) h2).
    { unfold py_get. rewrite Hl2, Habs. rewrite length_app. simpl.
      now rewrite Nat.add_1_r. }
    rewrite (bind_ok _ _ _ _ _ Hg).
    assert (Hc : py_contains "hardware" (VRef (S (length h))) h2 = Ok false h2).
    { unfold py_contains, h2. rewrite lookup_app_r by lia.
      replace (S (length h) - length h)%nat with 1%nat by lia. reflexivity. }
    now rewrite (bind_ok _ _ _ _ _ Hc).
  - assert (Hg : forall default, py_get (VRef l) "requests" default h2 = Ok (VRef r) h2).
    { intros default. unfold py_get. now rewrite Hl2, Hreq. }
    rewrite (bind_ok _ _ _ _ _ (Hg _)).
    assert (Hc : py_contains "hardware" (VRef r) h2 = Ok false h2).
    { assert (Hr2 : h2 !! r = Some (ODict ritems)).
      { unfold h2. rewrite lookup_app_l by (now apply lookup_lt_Some in Hr). exact Hr. }
      unfold py_contains, has_key. now rewrite Hr2, Hhw. }
    now rewrite (bind_ok _ _ _ _ _ Hc).
Qed.

(** X10: for a specification without hardware requests ("requests" missing,
    or a dictionary without "hardware"), [_construct_parameters_dict] answers
    a new empty dictionary with the template flag unset, whatever else the
    specification holds. *)
Theorem construct_parameters_dict_no_hardware h l items :
  h !! l = Some (ODict items) ->
  (dict_lookup "requests" items = None \/
   exists r ritems, dict_lookup "requests" items = Some (VRef r) /\
                    h !! r = Some (ODict ritems) /\
                    dict_lookup "hardware" ritems = None) ->
  _construct_parameters_dict (VRef l) h =
  Ok (VRef (length h), false) (h ++ [ODict []; ODict []]).
Proof.
  exact (construct_parameters_no_hardware_run h l items).
Qed.

Lemma construct_parameters_dict_no_hardware_witness :
  _construct_parameters_dict (VRef 0%nat) [ODict [("base", VStr "fedora:31")]]
  = Ok (VRef 1%nat, false) [ODict [("base", VStr "fedora:31")]; ODict []; ODict []].
Proof.
  exact (construct_parameters_dict_no_hardware [ODict [("base", VStr "fedora:31")]]
           0%nat [("base", VStr "fedora:31")] eq_refl (or_introl eq_refl)).
Defined.

(** * Dockerfile generation *)

(** X11: [post_generate_dockerfile] never lets [ScriptObtainingError]
    escape: when the generator raises it, the answer is status 400 with the
    message under "error"; and the status is 200 exactly when the generator
    returns a Dockerfile that is not [None], otherwise 400.  In every answer
    "parameters" is the dictionary created before the generator ran. *)
Theorem post_generate_dockerfile_answers create_dockerfile specification h :
  let h0 := h ++ [ODict [("specification", specification)]] in
  (forall msg h', post_generate_dockerfile create_dockerfile specification h
                  <> Raise (ScriptObtainingError msg) h') /\
  (forall msg h1, create_dockerfile specification h0 = Raise (ScriptObtainingError msg) h1 ->
     post_generate_dockerfile create_dockerfile specification h =
     Ok (VRef (length h1), 400)
        (h1 ++ [ODict [("parameters", VRef (length h)); ("error", VStr msg)]])) /\
  (forall dockerfile error h1, create_dockerfile specification h0 = Ok (dockerfile, error) h1 ->
     post_generate_dockerfile create_dockerfile specification h =
     if is_None dockerfile
     then Ok (VRef (length h1), 400)
             (h1 ++ [ODict [("parameters", VRef (length h)); ("error", error)]])
     else Ok (VRef (length h1), 200)
             (h1 ++ [ODict [("parameters", VRef (length h)); ("dockerfile", dockerfile)]])).
Proof.
  intros h0.
  assert (Hrun : post_generate_dockerfile create_dockerfile specification h =
                 match create_dockerfile specification h0 with
                 | Ok (dockerfile, error) h1 =>
                     if is_None dockerfile
                     then Ok (VRef (length h1), 400)
                            (h1 ++ [ODict [("parameters", VRef (length h)); ("error", error)]])
                     else Ok (VRef (length h1), 200)
                            (h1 ++ [ODict [("parameters", VRef (length h));
                                           ("dockerfile", dockerfile)]])
                 | Raise e h1 =>
                     if is_ScriptObtainingError e
                     then Ok (VRef (length h1), 400)
                            (h1 ++ [ODict [("parameters", VRef (length h));
                                           ("error", VStr (exn_message e))]])
                     else Raise e h1
                 end).
  { unfold post_generate_dockerfile, _do_create_dockerfile, try_except.
    unfold bind at 1. unfold new_dict at 1. unfold alloc at 1. cbv beta iota.
    unfold bind at 1. fold h0.
    destruct (create_dockerfile specification h0) as [[dockerfile error] h1|e h1].
    - destruct dockerfile; reflexivity.
    - destruct e; reflexivity. }
  split; [|split].
  - intros msg h'. rewrite Hrun.
    destruct (create_dockerfile specification h0) as [[dockerfile error] h1|e h1].
    + destruct (is_None dockerfile); discriminate.
    + destruct e; simpl; discriminate.
  - intros msg h1 Hc. rewrite Hrun, Hc. reflexivity.
  - intros dockerfile error h1 Hc. rewrite Hrun, Hc. reflexivity.
Qed.

Lemma post_generate_dockerfile_answers_witness :
  post_generate_dockerfile (fun _ => raise (ScriptObtainingError "no script")) VNone []
  = Ok (VRef 1%nat, 400)
       [ODict [("specification", VNone)];
        ODict [("parameters", VRef 0%nat); ("error", VStr "no script")]].
Proof.
  apply (proj1 (proj2 (post_generate_dockerfile_answers
                         (fun _ => raise (ScriptObtainingError "no script")) VNone []))
           "no script" [ODict [("specification", VNone)]]).
  reflexivity.
Defined.

(** X12: when the Dockerfile generator raises [ScriptObtainingError], or
    returns [None] for the Dockerfile, [post_inspection] answers status 400
    with the caller's specification under the key "parameters:" (with the
    colon) and the message under "error"; the clock and the scheduler are not
    used, and no name is looked up in the module's namespace. *)
Theorem post_inspection_generator_failure
    create_dockerfile now schedule globals fuel specification h error h1 :
  (create_dockerfile specification h = Ok (VNone, error) h1 \/
   exists msg, error = VStr msg /\
               create_dockerfile specification h = Raise (ScriptObtainingError msg) h1) ->
  post_inspection create_dockerfile now schedule globals fuel specification h =
  Ok (VRef (length h1), 400)
     (h1 ++ [ODict [("parameters:", specification); ("error", error)]]).
Proof.
  intros Hc. unfold post_inspection, post_inspection_schedule, _do_create_dockerfile,
    try_except.
  unfold bind at 1. unfold bind at 1.
  destruct Hc as [Hc|(msg & -> & Hc)]; rewrite Hc; reflexivity.
Qed.

Lemma post_inspection_generator_failure_witness :
  post_inspection (fun _ => raise (ScriptObtainingError "no script"))
    (raise (OtherError "clock")) (fun _ _ _ _ => raise (OtherError "scheduler")) []
    0%nat (VRef 0%nat) [ODict []]
  = Ok (VRef 1%nat, 400)
       [ODict []; ODict [("parameters:", VRef 0%nat); ("error", VStr "no script")]].
Proof.
  apply (post_inspection_generator_failure
           (fun _ => raise (ScriptObtainingError "no script"))
           (raise (OtherError "clock")) (fun _ _ _ _ => raise (OtherError "scheduler")) []
           0%nat (VRef 0%nat) [ODict []] (VStr "no script") [ODict []]).
  right. exists "no script". split; reflexivity.
Defined.

(** * More on the two substitutions *)

Lemma escape_str_length s : (String.length s <= String.length (escape_str s))%nat.
Proof.
  induction s as [|c rest IH]; [reflexivity|]. simpl.
  destruct (is_quote c && negb (starts_with_quote rest)); simpl; lia.
Qed.

Lemma escape_str_has_quote s : has_quote (escape_str s) = has_quote s.
Proof.
  induction s as [|c rest IH]; [reflexivity|]. simpl.
  destruct (is_quote c) eqn:Hc; simpl.
  - destruct (starts_with_quote rest); simpl; [now rewrite Hc|reflexivity].
  - now rewrite Hc, IH.
Qed.

Lemma escape_str_longer s :
  has_quote s = true -> (String.length s < String.length (escape_str s))%nat.
Proof.
  induction s as [|c rest IH]; [discriminate|]. simpl.
  destruct (is_quote c) eqn:Hc; simpl.
  - intros _. destruct (starts_with_quote rest) eqn:Hr; simpl.
    + apply -> Nat.succ_lt_mono. apply IH.
      destruct rest as [|c2 rest2]; [discriminate|]. simpl in Hr |- *. now rewrite Hr.
    + pose proof (escape_str_length rest). lia.
  - intros Hq. apply -> Nat.succ_lt_mono. now apply IH.
Qed.

Lemma escape_str_no_quote s : has_quote s = false -> escape_str s = s.
Proof.
  induction s as [|c rest IH]; [reflexivity|]. simpl.
  intros H. apply orb_false_iff in H as [Hc Hq]. rewrite Hc. simpl. now rewrite IH.
Qed.

Lemma unescape_str_no_quote s : has_quote s = false -> unescape_str s = s.
Proof.
  induction s as [|c rest IH]; [reflexivity|].
  intros H. simpl in H. apply orb_false_iff in H as [Hc Hq].
  rewrite unescape_str_other by exact Hc. now rewrite IH.
Qed.

(** X13: the escape substitution leaves a string as it is exactly when the
    string has no single quote (and then so does the unescape substitution);
    a string with a quote gets longer each time it is escaped, so escaping is
    not idempotent: a specification that is escaped twice differs from one
    that is escaped once. *)
Theorem escape_str_not_idempotent s :
  (escape_str s = s <-> has_quote s = false) /\
  (has_quote s = false -> unescape_str s = s) /\
  (has_quote s = true ->
   (String.length s < String.length (escape_str s))%nat /\
   escape_str (escape_str s) <> escape_str s).
Proof.
  split; [|split].
  - split; [|apply escape_str_no_quote].
    intros Heq. destruct (has_quote s) eqn:Hq; [|reflexivity].
    apply escape_str_longer in Hq. rewrite Heq in Hq. lia.
  - apply unescape_str_no_quote.
  - intros Hq. split; [now apply escape_str_longer|].
    intros Heq.
    assert (Hq' : has_quote (escape_str s) = true) by (now rewrite escape_str_has_quote).
    apply escape_str_longer in Hq'. rewrite Heq in Hq'. lia.
Qed.

Lemma escape_str_not_idempotent_witness :
  escape_str (escape_str "it's") <> escape_str "it's".
Proof.
  apply (proj2 (proj2 (proj2 (escape_str_not_idempotent "it's")) eq_refl)).
Defined.

(** X14: the unescape substitution undoes the plain doubling of every quote
    that [post_inspection] applies to the Dockerfile, on every string. *)
Theorem unescape_double_quotes s : unescape_str (double_quotes s) = s.
Proof.
  induction s as [|c rest IH]; [reflexivity|].
  cbn [double_quotes]. destruct (is_quote c) eqn:Hc.
  - rewrite unescape_str_pair, IH. f_equal. symmetry. now apply is_quote_true.
  - rewrite unescape_str_other by exact Hc. now rewrite IH.
Qed.

(** * [int] of [str] of an integer *)

Lemma digit_value_pretty_N_char d :
  (d < 10)%N -> digit_value (pretty_N_char d) = Some (Z.of_N d).
Proof.
  intros Hd. destruct d as [|p]; [reflexivity|].
  do 4 (try destruct p as [p|p|]); try reflexivity; lia.
Qed.

Lemma pretty_N_char_not_space d : is_space (pretty_N_char d) = false.
Proof. unfold pretty_N_char. repeat case_match; reflexivity. Qed.

Lemma parse_digits_pretty_N_go x :
  (0 < x)%N ->
  forall s, exists k : Z,
    forall acc b,
      parse_digits acc b (list_ascii_of_string (pretty_N_go x s))
      = parse_digits (k * acc + Z.of_N x) true (list_ascii_of_string s).
Proof.
  induction x as [x IH] using (well_founded_induction N.lt_wf_0). intros Hx s.
  rewrite pretty_N_go_step by exact Hx.
  assert (Hmod : (x mod 10 < 10)%N) by (apply N.mod_lt; lia).
  assert (Hdiv : x = (10 * (x / 10) + x mod 10)%N) by (apply N.div_mod; lia).
  destruct (N.eq_dec (x / 10)%N 0%N) as [H0|Hpos].
  - rewrite H0, pretty_N_go_0. exists 10. intros acc b.
    cbn [list_ascii_of_string parse_digits].
    rewrite (digit_value_pretty_N_char _ Hmod). f_equal. lia.
  - destruct (IH (x / 10)%N) with (s := String (pretty_N_char (x mod 10)) s) as [k Hk].
    + apply N.div_lt; lia.
    + lia.
    + exists (10 * k). intros acc b. rewrite Hk.
      cbn [list_ascii_of_string parse_digits].
      rewrite (digit_value_pretty_N_char _ Hmod). f_equal. lia.
Qed.

Lemma pretty_N_go_not_space x :
  forall s, Forall (fun c => is_space c = false) (list_ascii_of_string s) ->
            Forall (fun c => is_space c = false) (list_ascii_of_string (pretty_N_go x s)).
Proof.
  induction x as [x IH] using (well_founded_induction N.lt_wf_0). intros s Hs.
  destruct (N.eq_dec x 0%N) as [->|Hx]; [now rewrite pretty_N_go_0|].
  rewrite pretty_N_go_step by lia. apply IH.
  - apply N.div_lt; lia.
  - simpl. constructor; [apply pretty_N_char_not_space|exact Hs].
Qed.

Lemma lstrip_not_space cs : Forall (fun c => is_space c = false) cs -> lstrip cs = cs.
Proof. destruct 1 as [|c cs Hc _]; [reflexivity|]. simpl. now rewrite Hc. Qed.

Lemma strip_not_space cs : Forall (fun c => is_space c = false) cs -> strip cs = cs.
Proof.
  intros H. unfold strip. rewrite (lstrip_not_space cs H).
  rewrite lstrip_not_space by (now apply Forall_rev). apply rev_involutive.
Qed.

Lemma int_of_string_pretty_pos p : int_of_string (pretty (N.pos p)) = Some (Z.pos p).
Proof.
  assert (Hp : pretty (N.pos p) = pretty_N_go (N.pos p) "") by reflexivity.
  rewrite Hp. unfold int_of_string.
  rewrite strip_not_space by (apply pretty_N_go_not_space; constructor).
  destruct (parse_digits_pretty_N_go (N.pos p) eq_refl "") as [k Hk].
  pose proof (Hk 0 false) as H0. simpl (parse_digits _ true _) in H0.
  destruct (list_ascii_of_string (pretty_N_go (N.pos p) "")) as [|c rest]; [discriminate|].
  destruct (Ascii.eqb c "-") eqn:Hm.
  { apply Ascii.eqb_eq in Hm. subst c. discriminate. }
  destruct (Ascii.eqb c "+") eqn:Hplus.
  { apply Ascii.eqb_eq in Hplus. subst c. discriminate. }
  rewrite H0. f_equal. lia.
Qed.

(** [int(str(z))] is [z]. *)
Lemma int_of_string_pretty (z : Z) : int_of_string (pretty z) = Some z.
Proof.
  destruct z as [|p|p]; [reflexivity| |].
  - apply int_of_string_pretty_pos.
  - assert (Hp : pretty (Z.neg p) = String "-" (pretty_N_go (N.pos p) "")) by reflexivity.
    rewrite Hp. unfold int_of_string.
    rewrite strip_not_space.
    + cbn [list_ascii_of_string]. simpl (Ascii.eqb "-" "-").
      cbv iota.
      destruct (parse_digits_pretty_N_go (N.pos p) eq_refl "") as [k Hk].
      rewrite (Hk 0 false). simpl. do 2 f_equal. lia.
    + cbn [list_ascii_of_string]. constructor; [reflexivity|].
      apply pretty_N_go_not_space. constructor.
Qed.

(** * The walkers *)

Lemma walk_strings_on_tree f fuel h v d fp :
  tree_at h v d fp -> (depth d < fuel)%nat ->
  exists h', walk_strings f fuel v h = Ok (map_value f v) h' /\
             tree_at h' (map_value f v) (map_strings f d) fp /\
             length h' = length h /\
             (forall x, x ∉ fp -> h' !! x = h !! x).
Proof.
  intros Ht Hd.
  destruct (proj1 (walk_strings_tree f h) v d fp Ht fuel h Hd (fun x _ => eq_refl))
    as (h' & Hrun & Hlen & Hin & Hout).
  exists h'. split; [exact Hrun|]. split; [|split; assumption].
  exact (proj1 (tree_at_map f h) v d fp Ht h' Hin).
Qed.

(** X15: on a tree-shaped document nested less deeply than the recursion
    budget, each of the two quote walkers returns the object it was given (a
    string is returned substituted), having applied its substitution to
    every string leaf in place; the store keeps its size and nothing outside
    the document is touched. *)
Theorem walkers_on_trees fuel h v d fp :
  tree_at h v d fp -> (depth d < fuel)%nat ->
  (exists h', _escape_single_quotes fuel v h = Ok (map_value escape_str v) h' /\
              tree_at h' (map_value escape_str v) (map_strings escape_str d) fp /\
              length h' = length h /\
              (forall x, x ∉ fp -> h' !! x = h !! x)) /\
  (exists h', _unescape_single_quotes fuel v h = Ok (map_value unescape_str v) h' /\
              tree_at h' (map_value unescape_str v) (map_strings unescape_str d) fp /\
              length h' = length h /\
              (forall x, x ∉ fp -> h' !! x = h !! x)).
Proof.
  intros Ht Hd. split; now apply walk_strings_on_tree.
Qed.

Lemma walkers_on_trees_witness :
  exists h',
    _escape_single_quotes 2 (VRef 0%nat) [OList [VStr "it's"; VInt 1]]
    = Ok (VRef 0%nat) h' /\
    tree_at h' (VRef 0%nat) (DList [DStr "it''s"; DInt 1]) [0%nat].
Proof.
  destruct (proj1 (walkers_on_trees 2 [OList [VStr "it's"; VInt 1]] (VRef 0%nat)
                     (DList [DStr "it's"; DInt 1]) [0%nat]
                     ltac:(apply tree_list with [VStr "it's"; VInt 1];
                           [reflexivity
                           |apply (trees_cons _ _ _ [] _ _ []);
                            [constructor
                            |apply (trees_cons _ _ _ [] _ _ []);
                             [constructor | constructor
                             |intros x Hx; now apply elem_of_nil in Hx]
                            |intros x Hx; now apply elem_of_nil in Hx]
                           |apply not_elem_of_nil])
                     ltac:(simpl; lia)))
    as (h' & Hrun & Ht & _).
  exists h'. split; [exact Hrun|exact Ht].
Defined.

(** X16: the walkers have no protection against cycles: on a dictionary
    whose first value, or a list whose first item, is the container itself,
    they raise [RecursionError] whatever the recursion budget, leaving the
    store as it was. *)
Theorem walk_self_reference_raises f fuel h l :
  (exists k rest, h !! l = Some (ODict ((k, VRef l) :: rest))) \/
  (exists rest, h !! l = Some (OList (VRef l :: rest))) ->
  walk_strings f fuel (VRef l) h = Raise RecursionError h.
Proof.
  intros Hself. induction fuel as [|n IH]; [reflexivity|].
  cbn [walk_strings]. destruct Hself as [(k & rest & Hl)|(rest & Hl)]; rewrite Hl.
  - cbn [dict_keys map fst for_each_key].
    assert (Hget : py_getitem (VRef l) k h = Ok (VRef l) h).
    { unfold py_getitem. rewrite Hl. simpl. now rewrite String.eqb_refl. }
    unfold bind at 1. unfold bind at 1. rewrite Hget.
    unfold bind at 1. now rewrite IH.
  - cbn [length seq for_each_index].
    unfold bind at 1.
    assert (Hitem : list_item l 0 h = Some (VRef l)).
    { unfold list_item. now rewrite Hl. }
    rewrite Hitem. unfold bind at 1. now rewrite IH.
Qed.

Lemma walk_self_reference_raises_witness :
  _escape_single_quotes 1000 (VRef 0%nat) [ODict [("self", VRef 0%nat)]]
  = Raise RecursionError [ODict [("self", VRef 0%nat)]].
Proof.
  apply (walk_self_reference_raises escape_str 1000 [ODict [("self", VRef 0%nat)]] 0%nat).
  left. exists "self", []. reflexivity.
Defined.

(** * The codec, item by item *)

(** Two item lists with the same distinct keys and the same value under
    every key are equal. *)
Lemma items_eq_by_lookup {V} (a b : list (string * V)) :
  NoDup (map fst a) -> map fst a = map fst b ->
  (forall k, dict_lookup k a = dict_lookup k b) -> a = b.
Proof.
  revert b. induction a as [|[k v] a IH]; intros [|[k' v'] b] Hnd Hkeys Hl;
    try discriminate; [reflexivity|].
  simpl in Hkeys. injection Hkeys as <- Hkeys.
  simpl in Hnd. apply NoDup_cons in Hnd as [Hk Hnd].
  pose proof (Hl k) as Hlk. simpl in Hlk. rewrite String.eqb_refl in Hlk.
  injection Hlk as <-. f_equal. apply IH; [assumption..|].
  intros k0. specialize (Hl k0). simpl in Hl.
  destruct (String.eqb k0 k) eqn:E; [|exact Hl].
  apply String.eqb_eq in E. subst k0.
  pose proof Hk as Hk'. rewrite Hkeys in Hk'.
  apply dict_lookup_None in Hk, Hk'. congruence.
Qed.

Lemma lookup_cast_to_str_items original keys k :
  forall current,
    dict_lookup k (cast_to_str_items original current keys) =
    match dict_lookup k original with
    | Some d => if bool_decide (k ∈ keys) then Some (DStr (doc_str d))
                else dict_lookup k current
    | None => dict_lookup k current
    end.
Proof.
  induction keys as [|key keys IH]; intros current.
  - simpl. now destruct (dict_lookup k original).
  - simpl. destruct (dict_lookup key original) as [d0|] eqn:Hd0.
    + rewrite IH. destruct (dict_lookup k original) as [d|] eqn:Hd.
      * destruct (decide (k = key)) as [->|Hne].
        -- rewrite (bool_decide_eq_true_2 (key ∈ key :: keys)) by (apply elem_of_cons; now left).
           rewrite dict_lookup_assign_eq. rewrite Hd in Hd0. injection Hd0 as <-.
           now destruct (bool_decide (key ∈ keys)).
        -- rewrite dict_lookup_assign_ne by congruence.
           destruct (decide (k ∈ keys)) as [Hin|Hnin].
           ++ rewrite !bool_decide_eq_true_2; [reflexivity| |assumption].
              apply elem_of_cons. now right.
           ++ rewrite !bool_decide_eq_false_2; [reflexivity| |assumption].
              intros Hin. apply elem_of_cons in Hin as [?|?]; contradiction.
      * apply dict_lookup_assign_ne. intros ->. congruence.
    + rewrite IH. destruct (dict_lookup k original) as [d|] eqn:Hd; [|reflexivity].
      assert (Hne : k <> key) by (intros ->; congruence).
      destruct (decide (k ∈ keys)) as [Hin|Hnin].
      * rewrite !bool_decide_eq_true_2; [reflexivity| |assumption].
        apply elem_of_cons. now right.
      * rewrite !bool_decide_eq_false_2; [reflexivity| |assumption].
        intros Hin. apply elem_of_cons in Hin as [?|?]; contradiction.
Qed.

Lemma lookup_cast_to_int_items original keys k :
  forall current items',
    map fst current = map fst original ->
    cast_to_int_items original current keys = inl items' ->
    match dict_lookup k original with
    | Some d =>
        if bool_decide (k ∈ keys)
        then exists z, doc_int d = inl z /\ dict_lookup k items' = Some (DInt z)
        else dict_lookup k items' = dict_lookup k current
    | None => dict_lookup k items' = dict_lookup k current
    end.
Proof.
  induction keys as [|key keys IH]; intros current items' Hkeys H.
  - simpl in H. injection H as <-. now destruct (dict_lookup k original).
  - simpl in H. rewrite (has_key_keys key current original Hkeys) in H.
    destruct (has_key key original) eqn:Hkey.
    + destruct (has_key_lookup _ _ Hkey) as [d0 Hd0]. rewrite Hd0 in H.
      destruct (doc_int d0) as [z0|e] eqn:Hz0; [|discriminate].
      assert (Hkeys' : map fst (dict_assign key (DInt z0) current) = map fst original).
      { rewrite dict_assign_keys_present; [assumption|].
        rewrite Hkeys. now apply has_key_true. }
      specialize (IH _ _ Hkeys' H).
      destruct (dict_lookup k original) as [d|] eqn:Hd.
      * destruct (decide (k = key)) as [->|Hne].
        -- rewrite (bool_decide_eq_true_2 (key ∈ key :: keys)) by (apply elem_of_cons; now left).
           rewrite Hd in Hd0. injection Hd0 as <-.
           destruct (bool_decide (key ∈ keys)); [exact IH|].
           exists z0. split; [exact Hz0|]. rewrite IH. apply dict_lookup_assign_eq.
        -- rewrite dict_lookup_assign_ne in IH by congruence.
           destruct (decide (k ∈ keys)) as [Hin|Hnin].
           ++ rewrite bool_decide_eq_true_2 in IH by assumption.
              rewrite bool_decide_eq_true_2; [exact IH|]. apply elem_of_cons. now right.
           ++ rewrite bool_decide_eq_false_2 in IH by assumption.
              rewrite bool_decide_eq_false_2; [exact IH|].
              intros Hin. apply elem_of_cons in Hin as [?|?]; contradiction.
      * rewrite IH. apply dict_lookup_assign_ne. intros ->. congruence.
    + specialize (IH _ _ Hkeys H).
      destruct (dict_lookup k original) as [d|] eqn:Hd; [|exact IH].
      assert (Hne : k <> key).
      { intros ->. unfold has_key in Hkey. now rewrite Hd in Hkey. }
      destruct (decide (k ∈ keys)) as [Hin|Hnin].
      * rewrite bool_decide_eq_true_2 in IH by assumption.
        rewrite bool_decide_eq_true_2; [exact IH|]. apply elem_of_cons. now right.
      * rewrite bool_decide_eq_false_2 in IH by assumption.
        rewrite bool_decide_eq_false_2; [exact IH|].
        intros Hin. apply elem_of_cons in Hin as [?|?]; contradiction.
Qed.

Lemma lookup_default_item k key (items : list (string * doc)) :
  dict_lookup k (default_item key items) =
  match dict_lookup k items with
  | Some d => Some d
  | None => if String.eqb k key then Some (DDict []) else None
  end.
Proof.
  unfold default_item. destruct (has_key key items) eqn:Hkey.
  - destruct (dict_lookup k items) as [d|] eqn:Hd; [reflexivity|].
    destruct (String.eqb k key) eqn:E; [|reflexivity].
    apply String.eqb_eq in E. subst. unfold has_key in Hkey. now rewrite Hd in Hkey.
  - destruct (String.eqb k key) eqn:E.
    + apply String.eqb_eq in E. subst. rewrite dict_lookup_assign_eq.
      unfold has_key in Hkey. now destruct (dict_lookup key items).
    + apply String.eqb_neq in E. rewrite dict_lookup_assign_ne by congruence.
      now destruct (dict_lookup k items).
Qed.

Lemma default_item_keys key (a b : list (string * doc)) :
  map fst a = map fst b -> map fst (default_item key a) = map fst (default_item key b).
Proof.
  intros H. unfold default_item. rewrite (has_key_keys key a b H).
  destruct (has_key key b) eqn:Hk; [exact H|].
  apply has_key_false in Hk.
  rewrite !dict_assign_new; [| assumption | now rewrite H].
  rewrite !map_app. now rewrite H.
Qed.

Lemma default_item_NoDup key (items : list (string * doc)) :
  NoDup (map fst items) -> NoDup (map fst (default_item key items)).
Proof.
  intros H. unfold default_item. destruct (has_key key items); [exact H|].
  now apply dict_assign_NoDup.
Qed.

Lemma parse_items_keys (items : list (string * doc)) :
  map fst (parse_items items) = map fst (default_item "run" (default_item "build" items)).
Proof.
  unfold parse_items. do 2 apply default_item_keys.
  rewrite cast_to_str_items_keys by (now rewrite !map_fst_map_items).
  apply map_fst_map_items.
Qed.

Lemma default_items_keys (items : list (string * doc)) :
  map fst (default_item "run" (default_item "build" items)) =
  map fst items ++ (if has_key "build" items then [] else ["build"])
                ++ (if has_key "run" items then [] else ["run"]).
Proof.
  assert (Hrun : has_key "run" (default_item "build" items) = has_key "run" items).
  { rewrite has_key_default_item. simpl (String.eqb "run" "build"). apply orb_false_r. }
  unfold default_item at 1. rewrite Hrun.
  assert (Hb : map fst (default_item "build" items) =
               map fst items ++ (if has_key "build" items then [] else ["build"])).
  { unfold default_item. destruct (has_key "build" items) eqn:Hb.
    - now rewrite app_nil_r.
    - rewrite dict_assign_new by (now apply has_key_false). now rewrite map_app. }
  destruct (has_key "run" items) eqn:Hr.
  - rewrite Hb. now rewrite app_nil_r.
  - rewrite dict_assign_new by (apply has_key_false; now rewrite Hrun).
    rewrite map_app, Hb, <- app_assoc. reflexivity.
Qed.

Lemma lookup_parse_items (items : list (string * doc)) k :
  dict_lookup k (parse_items items) =
  match dict_lookup k items with
  | Some d => Some (if bool_decide (k ∈ int_to_str)
                    then DStr (doc_str (shared_after escape_str d))
                    else map_strings escape_str d)
  | None => if String.eqb k "build" || String.eqb k "run" then Some (DDict []) else None
  end.
Proof.
  unfold parse_items. rewrite !lookup_default_item, lookup_cast_to_str_items.
  rewrite !dict_lookup_map_items.
  destruct (dict_lookup k items) as [d|]; simpl.
  - now destruct (bool_decide (k ∈ int_to_str)).
  - destruct (String.eqb k "build"); [reflexivity|]. now destruct (String.eqb k "run").
Qed.

(** X17: what [_parse_specification] returns, item by item.  The result is
    a new dictionary with the keys of the document in their order, followed
    by "build" and "run" where they were missing, each with an empty
    dictionary.  Under allowed_failures, batch_size and parallelism it holds
    a string, which is [str] of the caller's value, given here whenever that
    value is a string (copied as it is, not escaped) or has ASCII text only;
    under every other key it holds the value with its strings escaped. *)
Theorem parse_specification_items fuel h spec items fp :
  tree_at h spec (DDict items) fp ->
  (depth (DDict items) < fuel)%nat ->
  exists h' fp' items',
    _parse_specification fuel spec h = Ok (VRef (length h)) h' /\
    tree_at h' (VRef (length h)) (DDict items') fp' /\
    map fst items' =
      map fst items ++ (if has_key "build" items then [] else ["build"])
                    ++ (if has_key "run" items then [] else ["run"]) /\
    (forall k d, dict_lookup k items = Some d ->
       if bool_decide (k ∈ int_to_str)
       then (exists s, dict_lookup k items' = Some (DStr s)) /\
            (str_modelled d = true ->
             dict_lookup k items' = Some (DStr (doc_str (shared_after escape_str d))))
       else dict_lookup k items' = Some (map_strings escape_str d)) /\
    (forall k, k = "build" \/ k = "run" -> dict_lookup k items = None ->
       dict_lookup k items' = Some (DDict [])).
Proof.
  intros Ht Hd.
  destruct (parse_specification_tree fuel h spec items fp Ht Hd) as (h' & fp' & Hp & Ht' & _).
  exists h', fp', (parse_items items).
  split; [exact Hp|]. split; [exact Ht'|]. split; [|split].
  - rewrite parse_items_keys. apply default_items_keys.
  - intros k d Hk. rewrite lookup_parse_items, Hk.
    destruct (bool_decide (k ∈ int_to_str)); [|reflexivity]. split; eauto.
  - intros k Hk Habs. rewrite lookup_parse_items, Habs.
    now destruct Hk as [->| ->].
Qed.

Lemma parse_specification_items_witness :
  exists h' fp' items',
    _parse_specification 2 (VRef 0%nat)
      [ODict [("batch_size", VStr "it's"); ("note", VStr "it's")]]
    = Ok (VRef 1%nat) h' /\
    tree_at h' (VRef 1%nat) (DDict items') fp' /\
    map fst items' = ["batch_size"; "note"; "build"; "run"] /\
    dict_lookup "batch_size" items' = Some (DStr "it's") /\
    dict_lookup "note" items' = Some (DStr "it''s").
Proof.
  assert (Ht : tree_at [ODict [("batch_size", VStr "it's"); ("note", VStr "it's")]]
                 (VRef 0%nat) (DDict [("batch_size", DStr "it's"); ("note", DStr "it's")])
                 [0%nat]).
  { apply tree_dict with [("batch_size", VStr "it's"); ("note", VStr "it's")];
      [reflexivity | reflexivity | solve_NoDup | | apply not_elem_of_nil].
    repeat (apply (trees_cons _ _ _ [] _ _ []);
            [constructor | | intros x Hx; now apply elem_of_nil in Hx]).
    constructor. }
  destruct (parse_specification_items 2 _ _ _ _ Ht ltac:(simpl; lia))
    as (h' & fp' & items' & Hp & Ht' & Hkeys & Hl & _).
  exists h', fp', items'. split; [exact Hp|]. split; [exact Ht'|]. split; [exact Hkeys|].
  split; [exact (proj2 (Hl "batch_size" _ eq_refl) eq_refl) | exact (Hl "note" _ eq_refl)].
Defined.

(** X18: what [_unparse_specification] returns, item by item, when every one
    of allowed_failures, batch_size and parallelism that is present can be
    cast by [int].  The result is a new dictionary with exactly the keys of
    the document, in their order (no "build" or "run" is added); under the
    three integer keys it holds [int] of the caller's value, under every
    other key the value with its strings unescaped. *)
Theorem unparse_specification_items fuel h spec items fp :
  tree_at h spec (DDict items) fp ->
  (depth (DDict items) < fuel)%nat ->
  (forall k d, k ∈ str_to_int -> dict_lookup k items = Some d ->
     exists z, doc_int d = inl z) ->
  exists h' fp' items',
    _unparse_specification fuel spec h = Ok (VRef (length h)) h' /\
    tree_at h' (VRef (length h)) (DDict items') fp' /\
    map fst items' = map fst items /\
    (forall k d, dict_lookup k items = Some d ->
       if bool_decide (k ∈ str_to_int)
       then exists z, doc_int d = inl z /\ dict_lookup k items' = Some (DInt z)
       else dict_lookup k items' = Some (map_strings unescape_str d)).
Proof.
  intros Ht Hd Hint.
  pose proof (unparse_specification_tree fuel h spec items fp Ht Hd) as Hu.
  unfold unparse_items in Hu.
  destruct (cast_to_int_items_total (map_items (shared_after unescape_str) items) str_to_int)
    with (current := map_items (map_strings unescape_str) items) as [items' Hc].
  { intros key d Hin Hl. rewrite dict_lookup_map_items in Hl.
    destruct (dict_lookup key items) as [d0|] eqn:Hd0; [|discriminate].
    simpl in Hl. injection Hl as <-. rewrite doc_int_shared_after.
    now apply (Hint key d0). }
  { now rewrite !map_fst_map_items. }
  rewrite Hc in Hu. destruct Hu as (h' & fp' & Hu & Ht' & _).
  exists h', fp', items'. split; [exact Hu|]. split; [exact Ht'|]. split.
  - rewrite (cast_to_int_items_keys _ _ _ _ Hc). apply map_fst_map_items.
  - intros k d Hk.
    assert (Hkeys : map fst (map_items (map_strings unescape_str) items)
                    = map fst (map_items (shared_after unescape_str) items))
      by (now rewrite !map_fst_map_items).
    pose proof (lookup_cast_to_int_items _ str_to_int k _ _ Hkeys Hc) as Hl.
    rewrite !dict_lookup_map_items, Hk in Hl. simpl in Hl.
    rewrite doc_int_shared_after in Hl. exact Hl.
Qed.

Lemma unparse_specification_items_witness :
  exists h' fp' items',
    _unparse_specification 2 (VRef 0%nat)
      [ODict [("batch_size", VStr " 4 "); ("note", VStr "it''s")]]
    = Ok (VRef 1%nat) h' /\
    tree_at h' (VRef 1%nat) (DDict items') fp' /\
    map fst items' = ["batch_size"; "note"] /\
    dict_lookup "note" items' = Some (DStr "it's").
Proof.
  assert (Ht : tree_at [ODict [("batch_size", VStr " 4 "); ("note", VStr "it''s")]]
                 (VRef 0%nat) (DDict [("batch_size", DStr " 4 "); ("note", DStr "it''s")])
                 [0%nat]).
  { apply tree_dict with [("batch_size", VStr " 4 "); ("note", VStr "it''s")];
      [reflexivity | reflexivity | solve_NoDup | | apply not_elem_of_nil].
    repeat (apply (trees_cons _ _ _ [] _ _ []);
            [constructor | | intros x Hx; now apply elem_of_nil in Hx]).
    constructor. }
  destruct (unparse_specification_items 2 _ _ _ _ Ht ltac:(simpl; lia))
    as (h' & fp' & items' & Hp & Ht' & Hkeys & Hl).
  - intros k d Hk Hd. unfold str_to_int in Hk. rewrite !elem_of_cons in Hk.
    destruct Hk as [->|[->|[->|Hk]]]; try discriminate Hd;
      [|now apply elem_of_nil in Hk].
    injection Hd as <-. exists 4. reflexivity.
  - exists h', fp', items'. split; [exact Hp|]. split; [exact Ht'|]. split; [exact Hkeys|].
    exact (Hl "note" _ eq_refl).
Defined.

(** * The round trip with integer fields *)

Lemma depth_dict_assign_str k s (items : list (string * doc)) :
  (depth (DDict (dict_assign k (DStr s) items)) <= depth (DDict items))%nat.
Proof.
  simpl. apply le_n_S. induction items as [|[k0 d0] items IH]; simpl; [lia|].
  destruct (String.eqb k k0); simpl; lia.
Qed.

Lemma depth_cast_to_str_items original keys :
  forall current,
    (depth (DDict (cast_to_str_items original current keys)) <= depth (DDict current))%nat.
Proof.
  induction keys as [|key keys IH]; intros current; [reflexivity|].
  cbn [cast_to_str_items]. destruct (dict_lookup key original) as [d|]; [|apply IH].
  etransitivity; [apply IH|]. apply depth_dict_assign_str.
Qed.

Lemma depth_parse_items (items : list (string * doc)) :
  (depth (DDict (parse_items items)) <= S (depth (DDict items)))%nat.
Proof.
  unfold parse_items.
  pose proof (depth_default_items
                (cast_to_str_items (map_items (shared_after escape_str) items)
                   (map_items (map_strings escape_str) items) int_to_str)) as Hle.
  pose proof (depth_cast_to_str_items (map_items (shared_after escape_str) items)
                int_to_str (map_items (map_strings escape_str) items)) as Hle'.
  rewrite (depth_map_items _ _ (depth_map_strings escape_str)) in Hle'. lia.
Qed.

Lemma in_int_to_str_cases k (P : Prop) :
  k ∈ int_to_str ->
  (k = "allowed_failures" \/ k = "batch_size" \/ k = "parallelism" -> P) -> P.
Proof.
  unfold int_to_str. rewrite !elem_of_cons. intros [->|[->|[->|Hk]]] HP;
    [apply HP; tauto..|now apply elem_of_nil in Hk].
Qed.

(** Unparsing what was parsed, on a document with distinct keys whose
    integer fields hold integers and whose strings have no three quotes in
    a row. *)
Lemma unparse_parse_items_int (items : list (string * doc)) :
  NoDup (map fst items) ->
  (forall k d, k ∈ int_to_str -> dict_lookup k items = Some d -> exists z, d = DInt z) ->
  all_strings no_triple_quote (DDict items) = true ->
  unparse_items (parse_items items) =
  inl (default_item "run" (default_item "build" items)).
Proof.
  intros Hnd Hint Hq. unfold unparse_items.
  set (P := parse_items items).
  assert (Hkeys : map fst (map_items (map_strings unescape_str) P)
                  = map fst (map_items (shared_after unescape_str) P))
    by (now rewrite !map_fst_map_items).
  destruct (cast_to_int_items_total (map_items (shared_after unescape_str) P) str_to_int)
    with (current := map_items (map_strings unescape_str) P) as [R HR];
    [|exact Hkeys|].
  { intros key d Hin Hl. rewrite dict_lookup_map_items in Hl. unfold P in Hl.
    rewrite lookup_parse_items in Hl.
    destruct (dict_lookup key items) as [d0|] eqn:Hd0.
    - rewrite bool_decide_eq_true_2 in Hl by exact Hin.
      destruct (Hint key d0 Hin Hd0) as [z ->]. simpl in Hl. injection Hl as <-.
      exists z. simpl. now rewrite int_of_string_pretty.
    - apply (in_int_to_str_cases key); [exact Hin|].
      intros [->|[->| ->]]; discriminate Hl. }
  rewrite HR. f_equal.
  apply items_eq_by_lookup.
  - rewrite (cast_to_int_items_keys _ _ _ _ HR), map_fst_map_items.
    unfold P. rewrite parse_items_keys. now do 2 apply default_item_NoDup.
  - rewrite (cast_to_int_items_keys _ _ _ _ HR), map_fst_map_items.
    apply parse_items_keys.
  - intros k.
    pose proof (lookup_cast_to_int_items _ str_to_int k _ _ Hkeys HR) as Hl.
    rewrite !dict_lookup_map_items in Hl. unfold P in Hl.
    rewrite lookup_parse_items in Hl.
    rewrite !lookup_default_item.
    destruct (dict_lookup k items) as [d|] eqn:Hd.
    + simpl in Hl. change str_to_int with int_to_str in Hl.
      destruct (bool_decide (k ∈ int_to_str)) eqn:Hk.
      * apply bool_decide_eq_true_1 in Hk.
        destruct (Hint k d Hk Hd) as [z ->]. simpl in Hl.
        destruct Hl as (z' & Hz & Hl). rewrite int_of_string_pretty in Hz.
        injection Hz as <-. exact Hl.
      * rewrite Hl. f_equal. apply map_strings_roundtrip.
        apply (all_strings_items _ _ _ _ Hq Hd).
    + assert (Hl' : dict_lookup k R =
                    option_map (map_strings unescape_str)
                      (if String.eqb k "build" || String.eqb k "run"
                       then Some (DDict []) else None)).
      { destruct (String.eqb k "build" || String.eqb k "run") eqn:E; simpl in Hl |- *.
        - destruct (bool_decide (k ∈ str_to_int)) eqn:Hk; [|exact Hl].
          apply bool_decide_eq_true_1 in Hk. exfalso.
          apply (in_int_to_str_cases k); [exact Hk|].
          intros [->|[->| ->]]; discriminate E.
        - exact Hl. }
      rewrite Hl'.
      destruct (String.eqb k "build"); [reflexivity|].
      now destruct (String.eqb k "run").
Qed.

Lemma tree_dict_keys_NoDup h v items fp :
  tree_at h v (DDict items) fp -> NoDup (map fst items).
Proof.
  intros Ht. apply tree_dict_inv in Ht as (l & hitems & fp0 & _ & _ & _ & Hk & Hnd & _).
  now rewrite Hk.
Qed.

(** X19: on a tree-shaped document in which each of allowed_failures,
    batch_size and parallelism that is present holds an integer, and in
    whose strings no three single quotes occur in a row,
    [_unparse_specification] applied to the result of
    [_parse_specification] gives the document back, integers included, with
    empty "build" and "run" added where they were missing. *)
Theorem unparse_parse_roundtrip_int_fields fuel h spec items fp :
  tree_at h spec (DDict items) fp ->
  (S (depth (DDict items)) < fuel)%nat ->
  (forall k d, k ∈ int_to_str -> dict_lookup k items = Some d -> exists z, d = DInt z) ->
  all_strings no_triple_quote (DDict items) = true ->
  exists result h' fp',
    bind (_parse_specification fuel spec) (_unparse_specification fuel) h = Ok result h' /\
    tree_at h' result (DDict (default_item "run" (default_item "build" items))) fp'.
Proof.
  intros Ht Hd Hint Hq.
  destruct (parse_specification_tree fuel h spec items fp Ht) as (h1 & fp1 & Hp & Ht1 & _);
    [lia|].
  assert (Hd1 : (depth (DDict (parse_items items)) < fuel)%nat).
  { pose proof (depth_parse_items items). lia. }
  pose proof (unparse_specification_tree fuel h1 _ _ fp1 Ht1 Hd1) as Hu.
  rewrite (unparse_parse_items_int items (tree_dict_keys_NoDup _ _ _ _ Ht) Hint Hq) in Hu.
  destruct Hu as (h2 & fp2 & Hu & Ht2 & _).
  exists (VRef (length h1)), h2, fp2. split; [|exact Ht2].
  now rewrite (bind_ok _ _ _ _ _ Hp).
Qed.

Lemma unparse_parse_roundtrip_int_fields_witness :
  exists result h' fp',
    bind (_parse_specification 3 (VRef 0%nat)) (_unparse_specification 3)
      [ODict [("batch_size", VInt (-12)); ("note", VStr "it's")]] = Ok result h' /\
    tree_at h' result
      (DDict [("batch_size", DInt (-12)); ("note", DStr "it's");
              ("build", DDict []); ("run", DDict [])]) fp'.
Proof.
  apply (unparse_parse_roundtrip_int_fields 3
           [ODict [("batch_size", VInt (-12)); ("note", VStr "it's")]] (VRef 0%nat)
           [("batch_size", DInt (-12)); ("note", DStr "it's")] [0%nat]).
  - apply tree_dict with [("batch_size", VInt (-12)); ("note", VStr "it's")];
      [reflexivity | reflexivity | solve_NoDup | | apply not_elem_of_nil].
    repeat (apply (trees_cons _ _ _ [] _ _ []);
            [constructor | | intros x Hx; now apply elem_of_nil in Hx]).
    constructor.
  - simpl. lia.
  - intros k d Hk Hd. unfold int_to_str in Hk. rewrite !elem_of_cons in Hk.
    destruct Hk as [->|[->|[->|Hk]]]; try discriminate Hd;
      [|now apply elem_of_nil in Hk].
    injection Hd as <-. now exists (-12).
  - reflexivity.
Defined.

(** X20: [_parse_specification] accepts anything in an integer field, but
    what it makes of [None], of a boolean or of a string that is not a
    number (ASCII text that [int] rejects) cannot be unparsed: on the parsed
    document [_unparse_specification] raises [ValueError]. *)
Theorem unparse_rejects_parsed_non_integer fuel h spec items fp k d :
  tree_at h spec (DDict items) fp ->
  (S (depth (DDict items)) < fuel)%nat ->
  k ∈ int_to_str ->
  dict_lookup k items = Some d ->
  d = DNone \/ (exists b, d = DBool b) \/
  (exists s, d = DStr s /\ is_ascii s = true /\ int_of_string s = None) ->
  exists h1,
    _parse_specification fuel spec h = Ok (VRef (length h)) h1 /\
    exists h2, _unparse_specification fuel (VRef (length h)) h1 = Raise ValueError h2.
Proof.
  intros Ht Hd Hk Hkd Hbad.
  destruct (parse_specification_tree fuel h spec items fp Ht) as (h1 & fp1 & Hp & Ht1 & _);
    [lia|].
  exists h1. split; [exact Hp|].
  assert (Hd1 : (depth (DDict (parse_items items)) < fuel)%nat).
  { pose proof (depth_parse_items items). lia. }
  pose proof (unparse_specification_tree fuel h1 _ _ fp1 Ht1 Hd1) as Hu.
  unfold unparse_items in Hu.
  assert (Hs : exists s, dict_lookup k (parse_items items) = Some (DStr s) /\
                         int_of_string s = None).
  { rewrite lookup_parse_items, Hkd, bool_decide_eq_true_2 by exact Hk.
    destruct Hbad as [->|[[b ->]|(s & -> & _ & Hs)]].
    - exists "None". split; reflexivity.
    - destruct b; [exists "True"|exists "False"]; split; reflexivity.
    - exists s. split; [reflexivity|exact Hs]. }
  destruct Hs as (s & Hks & Hs).
  destruct (cast_to_int_items_raises
              (map_items (shared_after unescape_str) (parse_items items))
              str_to_int k s Hk (lookup_shared_after_str _ _ _ _ Hks) Hs
              (map_items (map_strings unescape_str) (parse_items items)))
    as (e & He & _ & Hstr).
  { now rewrite !map_fst_map_items. }
  rewrite He in Hu. destruct Hu as [h2 Hu]. exists h2.
  rewrite <- (Hstr ltac:(
    intros key d0 Hin Hl; rewrite dict_lookup_map_items in Hl;
    destruct (dict_lookup key (parse_items items)) as [d1|] eqn:Hd1';
      [|discriminate Hl];
    destruct (parse_items_int_fields_strings items key d1 Hin Hd1') as [s' ->];
    simpl in Hl; injection Hl as <-; eauto)).
  exact Hu.
Qed.

Lemma unparse_rejects_parsed_non_integer_witness :
  exists h1,
    _parse_specification 3 (VRef 0%nat) [ODict [("parallelism", VBool true)]]
    = Ok (VRef 1%nat) h1 /\
    exists h2, _unparse_specification 3 (VRef 1%nat) h1 = Raise ValueError h2.
Proof.
  apply (unparse_rejects_parsed_non_integer 3 [ODict [("parallelism", VBool true)]]
           (VRef 0%nat) [("parallelism", DBool true)] [0%nat] "parallelism" (DBool true)).
  - apply tree_dict with [("parallelism", VBool true)]; solve_tree_one_scalar.
  - simpl. lia.
  - unfold int_to_str. rewrite !elem_of_cons. tauto.
  - reflexivity.
  - right. left. now exists true.
Defined.

(** * [NotFoundException] in the log handlers *)

Lemma load_pod_logs_no_not_found json_loads pod_logs :
  (forall log, json_loads log <> inr NotFoundException) ->
  load_pod_logs json_loads pod_logs <> Throw NotFoundException.
Proof.
  intros Hj. induction pod_logs as [|log logs IH]; [discriminate|].
  cbn [load_pod_logs]. specialize (Hj log).
  destruct (json_loads log) as [d|e]; simpl.
  - destruct (load_pod_logs json_loads logs) as [ds|r|e']; simpl; congruence.
  - destruct (is_JSONDecodeError e) eqn:He; simpl.
    + destruct (load_pod_logs json_loads logs) as [ds|r|e']; simpl; congruence.
    + intros [= ->]. congruence.
Qed.

(** X21: [get_inspection_build_log] never lets a [NotFoundException]
    escape, and neither does [get_inspection_job_logs] as long as
    [json.loads] does not raise one: every [NotFoundException] of the
    orchestrator client is answered with a response. *)
Theorem log_handlers_catch_not_found
    get_pod_log get_workflow get_pod_status_report get_job_status_report
    get_pod_ids_from_job json_loads inspection_id :
  get_inspection_build_log get_pod_log inspection_id <> Throw NotFoundException /\
  ((forall log, json_loads log <> inr NotFoundException) ->
   get_inspection_job_logs get_pod_log get_workflow get_pod_status_report
     get_job_status_report get_pod_ids_from_job json_loads inspection_id
   <> Throw NotFoundException).
Proof.
  split.
  - unfold get_inspection_build_log.
    destruct (get_pod_log _) as [log|e]; simpl; [discriminate|].
    destruct (is_NotFoundException e) eqn:He; simpl; [discriminate|].
    intros [= ->]. discriminate.
  - intros Hj. unfold get_inspection_job_logs.
    pose proof (get_inspection_status_catches get_workflow get_pod_status_report
                  get_job_status_report inspection_id) as Hs.
    destruct (get_inspection_status _ _ _ _) as [d|[r status]|e]; simpl;
      [discriminate| |congruence].
    destruct (doc_getitem r "status") as [st|e] eqn:Hst; simpl.
    2:{ destruct r; simpl in Hst; try (injection Hst as <-; discriminate).
        destruct (dict_lookup "status" items); [discriminate|].
        injection Hst as <-. discriminate. }
    destruct (doc_getitem st "build") as [b|e] eqn:Hb; simpl.
    2:{ destruct st; simpl in Hb; try (injection Hb as <-; discriminate).
        destruct (dict_lookup "build" items); [discriminate|].
        injection Hb as <-. discriminate. }
    destruct (doc_get b "state") as [state|e] eqn:Hstate; simpl.
    2:{ destruct b; simpl in Hstate; try (injection Hstate as <-; discriminate).
        destruct (dict_lookup "state" items); discriminate. }
    destruct (doc_is_str state "terminated"); simpl; [|discriminate].
    destruct (get_pod_ids_from_job inspection_id) as [pod_ids|e]; simpl.
    + destruct (collect_pod_logs get_pod_log pod_ids) as [logs|r'|e]; simpl.
      * pose proof (load_pod_logs_no_not_found json_loads logs Hj) as Hl.
        destruct (load_pod_logs json_loads logs) as [ds|r'|e]; simpl.
        -- destruct (existsb doc_truthy ds); simpl; discriminate.
        -- discriminate.
        -- congruence.
      * discriminate.
      * destruct (is_NotFoundException e) eqn:He; simpl; [discriminate|].
        intros [= ->]. discriminate.
    + destruct (is_NotFoundException e) eqn:He; simpl; [discriminate|].
      intros [= ->]. discriminate.
Qed.

Lemma log_handlers_catch_not_found_witness :
  get_inspection_job_logs (fun _ => inr NotFoundException)
    (fun _ => inl (DDict [("status", DStr "Succeeded")]))
    (fun _ => inl (DDict [("state", DStr "terminated")]))
    (fun _ => inr NotFoundException)
    (fun _ => inl ["pod-1"]) (fun _ => inl DNone) "inspection-1"
  <> Throw NotFoundException.
Proof.
  apply (proj2 (log_handlers_catch_not_found
                  (fun _ => inr NotFoundException)
                  (fun _ => inl (DDict [("status", DStr "Succeeded")]))
                  (fun _ => inl (DDict [("state", DStr "terminated")]))
                  (fun _ => inr NotFoundException)
                  (fun _ => inl ["pod-1"]) (fun _ => inl DNone) "inspection-1")).
  intros log. discriminate.
Defined.

(** * What the codec does to its argument *)

Lemma map_strings_fixed f p :
  (forall s, f s = s <-> p s = true) ->
  forall d, map_strings f d = d <-> all_strings p d = true.
Proof.
  intros Hf. induction d as [| | |s|elts IH|items IH] using doc_ind'; simpl;
    try (split; reflexivity).
  - rewrite <- Hf. split; [now intros [= ->]|now intros ->].
  - induction IH as [|d elts Hd _ IHe]; simpl; [split; reflexivity|].
    rewrite andb_true_iff, <- Hd, <- IHe.
    split; [intros [= H1 H2]; split; [assumption|now f_equal]|].
    intros [H1 [= H2]]. now rewrite H1, H2.
  - induction IH as [|[k d] items Hd _ IHe]; simpl; [split; reflexivity|].
    simpl in Hd. rewrite andb_true_iff, <- Hd, <- IHe.
    split; [intros [= H1 H2]; split; [assumption|now f_equal]|].
    intros [H1 [= H2]]. now rewrite H1, H2.
Qed.

Lemma escape_str_fixed s : escape_str s = s <-> negb (has_quote s) = true.
Proof.
  rewrite negb_true_iff. split; [|apply escape_str_no_quote].
  intros Heq. destruct (has_quote s) eqn:Hq; [|reflexivity].
  apply escape_str_longer in Hq. rewrite Heq in Hq. lia.
Qed.

Lemma shared_after_escape_fixed (items : list (string * doc)) :
  map_items (shared_after escape_str) items = items <->
  forallb (fun kd => nested_quote_free (snd kd)) items = true.
Proof.
  induction items as [|[k d] items IH]; simpl; [split; reflexivity|].
  rewrite andb_true_iff, <- IH.
  assert (Hd : shared_after escape_str d = d <-> nested_quote_free d = true).
  { destruct d; try (split; reflexivity);
      apply (map_strings_fixed escape_str _ escape_str_fixed). }
  rewrite <- Hd. unfold map_items.
  split; [intros [= H1 H2]; split; assumption|].
  intros [H1 H2]. unfold map_items in H2. now rewrite H1, H2.
Qed.

(** X22: what [_parse_specification] does to the caller's document, in
    general.  After the call the caller's dictionary still holds its own
    string items, but every nested container has been escaped in place;
    nothing else that existed in the store is changed.  So the caller's
    document is left as it was exactly when no string inside a nested
    container has a single quote. *)
Theorem parse_specification_callers_document fuel h spec items fp :
  tree_at h spec (DDict items) fp ->
  (depth (DDict items) < fuel)%nat ->
  exists h',
    _parse_specification fuel spec h = Ok (VRef (length h)) h' /\
    tree_at h' spec (DDict (map_items (shared_after escape_str) items)) fp /\
    (forall x, (x < length h)%nat -> x ∉ fp -> h' !! x = h !! x) /\
    (map_items (shared_after escape_str) items = items <->
     forallb (fun kd => nested_quote_free (snd kd)) items = true).
Proof.
  intros Ht Hd.
  destruct (parse_specification_tree fuel h spec items fp Ht Hd)
    as (h' & fp' & Hp & _ & Hcaller & Hframe).
  exists h'. split; [exact Hp|]. split; [exact Hcaller|]. split; [exact Hframe|].
  apply shared_after_escape_fixed.
Qed.

Lemma parse_specification_callers_document_witness :
  exists h',
    _parse_specification 3 (VRef 0%nat)
      [ODict [("note", VStr "it's"); ("tags", VRef 1%nat)]; OList [VStr "it's"]]
    = Ok (VRef 2%nat) h' /\
    tree_at h' (VRef 0%nat)
      (DDict [("note", DStr "it's"); ("tags", DList [DStr "it''s"])]) [0%nat; 1%nat].
Proof.
  destruct (parse_specification_callers_document 3
              [ODict [("note", VStr "it's"); ("tags", VRef 1%nat)]; OList [VStr "it's"]]
              (VRef 0%nat) [("note", DStr "it's"); ("tags", DList [DStr "it's"])]
              [0%nat; 1%nat])
    as (h' & Hp & Ht & _).
  - apply tree_dict with [("note", VStr "it's"); ("tags", VRef 1%nat)];
      [reflexivity | reflexivity | solve_NoDup | | ].
    + apply (trees_cons _ _ _ [] _ _ [1%nat]);
        [constructor | | intros x Hx; now apply elem_of_nil in Hx].
      apply (trees_cons _ _ _ [1%nat] _ _ []);
        [ | constructor | intros x _; apply not_elem_of_nil].
      apply tree_list with [VStr "it's"]; [reflexivity | | apply not_elem_of_nil].
      apply (trees_cons _ _ _ [] _ _ []);
        [constructor | constructor | intros x Hx; now apply elem_of_nil in Hx].
    + intros Hx. apply elem_of_cons in Hx as [Hx|Hx]; [discriminate|].
      now apply elem_of_nil in Hx.
  - simpl. lia.
  - exists h'. split; [exact Hp|exact Ht].
Defined.

(** X23: [_unparse_specification] changes its argument in the same way:
    whenever it returns, the dictionary it was given still holds its own
    string items, but every nested container has been unescaped in place;
    nothing else that existed in the store is changed. *)
Theorem unparse_specification_callers_document fuel h spec items fp r h' :
  tree_at h spec (DDict items) fp ->
  (depth (DDict items) < fuel)%nat ->
  _unparse_specification fuel spec h = Ok r h' ->
  r = VRef (length h) /\
  tree_at h' spec (DDict (map_items (shared_after unescape_str) items)) fp /\
  (forall x, (x < length h)%nat -> x ∉ fp -> h' !! x = h !! x).
Proof.
  intros Ht Hd Hr.
  pose proof (unparse_specification_tree fuel h spec items fp Ht Hd) as Hu.
  destruct (unparse_items items) as [items'|e].
  - destruct Hu as (h2 & fp2 & Hu & _ & Hcaller & Hframe).
    rewrite Hu in Hr. injection Hr as <- <-. auto.
  - destruct Hu as (h2 & Hu). congruence.
Qed.

Lemma unparse_specification_callers_document_witness :
  exists h',
    _unparse_specification 3 (VRef 0%nat)
      [ODict [("note", VStr "it''s"); ("tags", VRef 1%nat)]; OList [VStr "it''s"]]
    = Ok (VRef 2%nat) h' /\
    tree_at h' (VRef 0%nat)
      (DDict [("note", DStr "it''s"); ("tags", DList [DStr "it's"])]) [0%nat; 1%nat].
Proof.
  eexists. split; [reflexivity|].
  apply (unparse_specification_callers_document 3
           [ODict [("note", VStr "it''s"); ("tags", VRef 1%nat)]; OList [VStr "it''s"]]
           (VRef 0%nat) [("note", DStr "it''s"); ("tags", DList [DStr "it''s"])]
           [0%nat; 1%nat] (VRef 2%nat)).
  - apply tree_dict with [("note", VStr "it''s"); ("tags", VRef 1%nat)];
      [reflexivity | reflexivity | solve_NoDup | | ].
    + apply (trees_cons _ _ _ [] _ _ [1%nat]);
        [constructor | | intros x Hx; now apply elem_of_nil in Hx].
      apply (trees_cons _ _ _ [1%nat] _ _ []);
        [ | constructor | intros x _; apply not_elem_of_nil].
      apply tree_list with [VStr "it''s"]; [reflexivity | | apply not_elem_of_nil].
      apply (trees_cons _ _ _ [] _ _ []);
        [constructor | constructor | intros x Hx; now apply elem_of_nil in Hx].
    + intros Hx. apply elem_of_cons in Hx as [Hx|Hx]; [discriminate|].
      now apply elem_of_nil in Hx.
  - simpl. lia.
  - reflexivity.
Defined.

(** * Reading a specification back *)

Lemma dict_remove_keys {V W} k (a : list (string * V)) (b : list (string * W)) :
  map fst a = map fst b -> map fst (dict_remove k a) = map fst (dict_remove k b).
Proof.
  revert b. induction a as [|[k0 v0] a IH]; intros [|[k1 w1] b] H; try discriminate;
    [reflexivity|].
  simpl in H. injection H as -> H. simpl.
  destruct (String.eqb k k1); [exact H|]. simpl. now rewrite (IH b H).
Qed.

Lemma dict_remove_subset {V} k (items : list (string * V)) x :
  x ∈ map fst (dict_remove k items) -> x ∈ map fst items.
Proof.
  induction items as [|[k0 v0] items IH]; simpl; [auto|].
  destruct (String.eqb k k0); simpl; intros Hx.
  - apply elem_of_cons. now right.
  - apply elem_of_cons in Hx as [->|Hx]; apply elem_of_cons; [now left|right; auto].
Qed.

Lemma dict_remove_NoDup {V} k (items : list (string * V)) :
  NoDup (map fst items) -> NoDup (map fst (dict_remove k items)).
Proof.
  induction items as [|[k0 v0] items IH]; simpl; [auto|].
  intros Hnd. apply NoDup_cons in Hnd as [Hk Hnd].
  destruct (String.eqb k k0); [exact Hnd|]. simpl.
  apply NoDup_cons. split; [|now apply IH].
  intros Hx. apply Hk. now apply dict_remove_subset in Hx.
Qed.

(** Removing an item from the children of a dictionary. *)
Lemma items_remove h k :
  forall (items : list (string * value)) (ditems : list (string * doc)) fp,
    map fst ditems = map fst items ->
    trees_at h (map snd items) (map snd ditems) fp ->
    exists fp',
      trees_at h (map snd (dict_remove k items)) (map snd (dict_remove k ditems)) fp' /\
      (forall x, x ∈ fp' -> x ∈ fp).
Proof.
  induction items as [|[k0 v0] items IH]; intros [|[k1 d1] ditems] fp Hk Ht;
    try discriminate.
  - exists []. split; [constructor|]. intros x Hx. now apply elem_of_nil in Hx.
  - simpl in Hk. injection Hk as -> Hk.
    simpl in Ht. inversion Ht as [|v' d' fp0 vs' ds' fps Htv0 Hts Hdj]; subst. simpl.
    destruct (String.eqb k k0).
    + exists fps. split; [exact Hts|]. intros x Hx. apply elem_of_app. now right.
    + destruct (IH ditems fps Hk Hts) as (fp' & Ht' & Hsub).
      exists (fp0 ++ fp'). simpl. split.
      * constructor; [assumption..|].
        intros x Hx Hx'. apply (Hdj x Hx). now apply Hsub.
      * intros x Hx. apply elem_of_app in Hx as [Hx|Hx]; apply elem_of_app;
          [now left|right; now apply Hsub].
Qed.

(** [pop] on a tree-shaped dictionary that has the key. *)
Lemma tree_pop h l ditems fp k d :
  tree_at h (VRef l) (DDict ditems) fp ->
  dict_lookup k ditems = Some d ->
  exists v fpv fp',
    py_pop (VRef l) k h = Ok v (<[l := ODict (dict_remove k
                                   match h !! l with
                                   | Some (ODict items) => items
                                   | _ => []
                                   end)]> h) /\
    tree_at (<[l := ODict (dict_remove k match h !! l with
                                         | Some (ODict items) => items
                                         | _ => []
                                         end)]> h)
      (VRef l) (DDict (dict_remove k ditems)) fp' /\
    tree_at (<[l := ODict (dict_remove k match h !! l with
                                         | Some (ODict items) => items
                                         | _ => []
                                         end)]> h) v d fpv.
Proof.
  intros H Hd.
  apply tree_dict_inv in H as (l' & items & fps & [= <-] & -> & Hl & Hk & Hnd & Ht & Hnin).
  destruct (items_lookup h k d items ditems fps Hk Ht Hd) as (v & fpv & Hv & Htv & Hsub).
  destruct (items_remove h k items ditems fps Hk Ht) as (fp' & Ht' & Hsub').
  assert (Hllt : (l < length h)%nat) by (now apply lookup_lt_Some in Hl).
  rewrite Hl. exists v, fpv, (l :: fp'). split; [|split].
  - unfold py_pop. now rewrite Hl, Hv.
  - apply tree_dict with (dict_remove k items).
    + now apply list_lookup_insert_eq.
    + now apply dict_remove_keys.
    + now apply dict_remove_NoDup.
    + apply (proj2 (tree_at_frame h) _ _ _ Ht').
      intros x Hx. apply list_lookup_insert_ne. intros ->. apply Hnin. now apply Hsub'.
    + intros Hx. apply Hnin. now apply Hsub'.
  - apply (proj1 (tree_at_frame h) _ _ _ Htv).
    intros x Hx. apply list_lookup_insert_ne. intros ->. apply Hnin. now apply Hsub.
Qed.

Lemma unpack_one_others h found candidates :
  Forall (other_parameter h) candidates ->
  unpack_one found candidates h = unpack_one found [] h.
Proof.
  induction 1 as [|p ps (l & items & name & -> & Hl & Hname & Hother) _ IH];
    [reflexivity|].
  cbn [unpack_one].
  assert (Hget : py_getitem (VRef l) "name" h = Ok name h).
  { unfold py_getitem. now rewrite Hl, Hname. }
  rewrite (bind_ok _ _ _ _ _ Hget), Hother. exact IH.
Qed.

Lemma unpack_one_unique h before p pitems after :
  Forall (other_parameter h) before ->
  Forall (other_parameter h) after ->
  h !! p = Some (ODict pitems) ->
  dict_lookup "name" pitems = Some (VStr "specification") ->
  unpack_one None (before ++ VRef p :: after) h = Ok (VRef p) h.
Proof.
  intros Hb Ha Hp Hname.
  induction Hb as [|q qs (l & items & name & -> & Hl & Hn & Hother) _ IH].
  - cbn [app unpack_one].
    assert (Hget : py_getitem (VRef p) "name" h = Ok (VStr "specification") h).
    { unfold py_getitem. now rewrite Hp, Hname. }
    rewrite (bind_ok _ _ _ _ _ Hget).
    change (is_specification (VStr "specification")) with true. cbv iota.
    now rewrite (unpack_one_others h _ after Ha).
  - cbn [app unpack_one].
    assert (Hget : py_getitem (VRef l) "name" h = Ok name h).
    { unfold py_getitem. now rewrite Hl, Hn. }
    rewrite (bind_ok _ _ _ _ _ Hget), Hother. exact IH.
Qed.

Lemma get_inspection_specification_run
    get_workflow json_loads fuel inspection_id h
    wf h1 spec_ arguments pl before p pitems after s specification h2 jitems fp uitems c :
  get_workflow ("inspection_id=" ++ inspection_id)%string
    (h ++ [ODict [("inspection_id", VStr inspection_id)]]) = Ok wf h1 ->
  py_getitem wf "spec" h1 = Ok spec_ h1 ->
  py_getitem spec_ "arguments" h1 = Ok arguments h1 ->
  py_getitem arguments "parameters" h1 = Ok (VRef pl) h1 ->
  h1 !! pl = Some (OList (before ++ VRef p :: after)) ->
  Forall (other_parameter h1) before ->
  Forall (other_parameter h1) after ->
  h1 !! p = Some (ODict pitems) ->
  dict_lookup "name" pitems = Some (VStr "specification") ->
  dict_lookup "value" pitems = Some (VStr s) ->
  json_loads s h1 = Ok specification h2 ->
  tree_at h2 specification (DDict jitems) fp ->
  (depth (DDict jitems) < fuel)%nat ->
  unparse_items jitems = inl uitems ->
  dict_lookup "@created" uitems = Some c ->
  exists h' r created fps fpc,
    get_inspection_specification get_workflow json_loads fuel inspection_id h
    = Ok (VRef r) h' /\
    h' !! r = Some (ODict [("parameters", VRef pl);
                           ("specification", VRef (length h2));
                           ("created", created)]) /\
    tree_at h' (VRef (length h2)) (DDict (dict_remove "@created" uitems)) fps /\
    tree_at h' created c fpc.
Proof.
  intros Hwf Hspec Hargs Hparams Hpl Hb Ha Hp Hname Hvalue Hjson Ht Hd Hu Hc.
  pose proof (unparse_specification_tree fuel h2 specification jitems fp Ht Hd) as Hun.
  rewrite Hu in Hun. destruct Hun as (h3 & fp3 & Hun & Ht3 & _).
  destruct (tree_pop h3 (length h2) uitems fp3 "@created" c Ht3 Hc)
    as (created & fpc & fps & Hpop & Hts & Htc).
  set (h4 := <[length h2 := ODict (dict_remove "@created"
                                     match h3 !! length h2 with
                                     | Some (ODict items) => items
                                     | _ => []
                                     end)]> h3) in *.
  exists (h4 ++ [ODict [("parameters", VRef pl); ("specification", VRef (length h2));
                        ("created", created)]]),
    (length h4), created, fps, fpc.
  split; [|split; [|split]].
  - unfold get_inspection_specification.
    unfold bind at 1. unfold new_dict at 1. unfold alloc at 1. cbv beta iota.
    unfold bind at 1. unfold try_except. unfold bind at 1. rewrite Hwf.
    cbv beta iota. unfold ret at 1. cbv beta iota.
    rewrite (bind_ok _ _ _ _ _ Hspec), (bind_ok _ _ _ _ _ Hargs),
      (bind_ok _ _ _ _ _ Hparams).
    assert (Hiter : py_iter (VRef pl) h1 = Ok (before ++ VRef p :: after) h1).
    { unfold py_iter. now rewrite Hpl. }
    rewrite (bind_ok _ _ _ _ _ Hiter).
    rewrite (bind_ok _ _ _ _ _ (unpack_one_unique h1 before p pitems after Hb Ha Hp Hname)).
    assert (Hval : py_getitem (VRef p) "value" h1 = Ok (VStr s) h1).
    { unfold py_getitem. now rewrite Hp, Hvalue. }
    rewrite (bind_ok _ _ _ _ _ Hval).
    assert (Hload : py_json_loads json_loads (VStr s) h1 = Ok specification h2)
      by exact Hjson.
    rewrite (bind_ok _ _ _ _ _ Hload), (bind_ok _ _ _ _ _ Hun), (bind_ok _ _ _ _ _ Hpop).
    reflexivity.
  - rewrite lookup_app_r by lia. now rewrite Nat.sub_diag.
  - now apply tree_at_alloc.
  - now apply tree_at_alloc.
Qed.

(** X24: [get_inspection_specification] on a workflow that is found and
    whose parameter list has exactly one parameter named "specification",
    the others being dictionaries with other names.  When the value of that
    parameter decodes to a tree-shaped dictionary that can be unparsed and
    holds "@created", the answer is a new dictionary with the workflow's own
    parameter list under "parameters", the unparsed specification without
    its "@created" item under "specification", and the popped value under
    "created". *)
Theorem get_inspection_specification_answer
    get_workflow json_loads fuel inspection_id h
    wf h1 spec_ arguments pl before p pitems after s specification h2 jitems fp uitems c :
  get_workflow ("inspection_id=" ++ inspection_id)%string
    (h ++ [ODict [("inspection_id", VStr inspection_id)]]) = Ok wf h1 ->
  py_getitem wf "spec" h1 = Ok spec_ h1 ->
  py_getitem spec_ "arguments" h1 = Ok arguments h1 ->
  py_getitem arguments "parameters" h1 = Ok (VRef pl) h1 ->
  h1 !! pl = Some (OList (before ++ VRef p :: after)) ->
  Forall (other_parameter h1) before ->
  Forall (other_parameter h1) after ->
  h1 !! p = Some (ODict pitems) ->
  dict_lookup "name" pitems = Some (VStr "specification") ->
  dict_lookup "value" pitems = Some (VStr s) ->
  json_loads s h1 = Ok specification h2 ->
  tree_at h2 specification (DDict jitems) fp ->
  (depth (DDict jitems) < fuel)%nat ->
  unparse_items jitems = inl uitems ->
  dict_lookup "@created" uitems = Some c ->
  exists h' r created fps fpc,
    get_inspection_specification get_workflow json_loads fuel inspection_id h
    = Ok (VRef r) h' /\
    h' !! r = Some (ODict [("parameters", VRef pl);
                           ("specification", VRef (length h2));
                           ("created", created)]) /\
    tree_at h' (VRef (length h2)) (DDict (dict_remove "@created" uitems)) fps /\
    tree_at h' created c fpc.
Proof.
  exact (get_inspection_specification_run get_workflow json_loads fuel inspection_id h
           wf h1 spec_ arguments pl before p pitems after s specification h2 jitems fp
           uitems c).
Qed.

Lemma get_inspection_specification_answer_witness :
  exists h' r created fps fpc,
    get_inspection_specification
      (fun _ h => Ok (VRef 1%nat)
                    (h ++ [ODict [("spec", VRef 2%nat)];
                           ODict [("arguments", VRef 3%nat)];
                           ODict [("parameters", VRef 4%nat)];
                           OList [VRef 5%nat; VRef 6%nat];
                           ODict [("name", VStr "dockerfile"); ("value", VStr "FROM fedora")];
                           ODict [("name", VStr "specification"); ("value", VStr "{...}")]]))
      (fun _ h => Ok (VRef (length h))
                    (h ++ [ODict [("batch_size", VStr "4"); ("note", VStr "it''s");
                                  ("@created", VStr "2020-01-01")]]))
      2 "inspection-1" []
    = Ok (VRef r) h' /\
    h' !! r = Some (ODict [("parameters", VRef 4%nat); ("specification", VRef 8%nat);
                           ("created", created)]) /\
    tree_at h' (VRef 8%nat) (DDict [("batch_size", DInt 4); ("note", DStr "it's")]) fps /\
    tree_at h' created (DStr "2020-01-01") fpc.
Proof.
  apply (get_inspection_specification_answer _ _ 2 "inspection-1" []
           (VRef 1%nat)
           [ODict [("inspection_id", VStr "inspection-1")];
            ODict [("spec", VRef 2%nat)];
            ODict [("arguments", VRef 3%nat)];
            ODict [("parameters", VRef 4%nat)];
            OList [VRef 5%nat; VRef 6%nat];
            ODict [("name", VStr "dockerfile"); ("value", VStr "FROM fedora")];
            ODict [("name", VStr "specification"); ("value", VStr "{...}")]]
           (VRef 2%nat) (VRef 3%nat) 4%nat [VRef 5%nat] 6%nat
           [("name", VStr "specification"); ("value", VStr "{...}")] [] "{...}"
           (VRef 7%nat)
           [ODict [("inspection_id", VStr "inspection-1")];
            ODict [("spec", VRef 2%nat)];
            ODict [("arguments", VRef 3%nat)];
            ODict [("parameters", VRef 4%nat)];
            OList [VRef 5%nat; VRef 6%nat];
            ODict [("name", VStr "dockerfile"); ("value", VStr "FROM fedora")];
            ODict [("name", VStr "specification"); ("value", VStr "{...}")];
            ODict [("batch_size", VStr "4"); ("note", VStr "it''s");
                   ("@created", VStr "2020-01-01")]]
           [("batch_size", DStr "4"); ("note", DStr "it''s");
            ("@created", DStr "2020-01-01")]
           [7%nat]
           [("batch_size", DInt 4); ("note", DStr "it's"); ("@created", DStr "2020-01-01")]
           (DStr "2020-01-01"));
    try reflexivity.
  - constructor; [|constructor].
    exists 5%nat, [("name", VStr "dockerfile"); ("value", VStr "FROM fedora")],
      (VStr "dockerfile").
    repeat split; reflexivity.
  - constructor.
  - apply tree_dict with [("batch_size", VStr "4"); ("note", VStr "it''s");
                          ("@created", VStr "2020-01-01")];
      [reflexivity | reflexivity | solve_NoDup | | apply not_elem_of_nil].
    repeat (apply (trees_cons _ _ _ [] _ _ []);
            [constructor | | intros x Hx; now apply elem_of_nil in Hx]).
    constructor.
  - simpl. lia.
Defined.

Lemma unpack_one_filter h candidates :
  Forall (named_parameter h) candidates ->
  forall found,
    unpack_one found candidates h =
    match found, List.filter (specification_named h) candidates with
    | None, [p] => Ok p h
    | Some p, [] => Ok p h
    | _, _ => Raise ValueError h
    end.
Proof.
  induction 1 as [|p ps (l & items & name & -> & Hl & Hname) _ IH]; intros found.
  - now destruct found.
  - cbn [unpack_one List.filter].
    assert (Hget : py_getitem (VRef l) "name" h = Ok name h).
    { unfold py_getitem. now rewrite Hl, Hname. }
    rewrite (bind_ok _ _ _ _ _ Hget).
    assert (Hs : specification_named h (VRef l) = is_specification name).
    { unfold specification_named. now rewrite Hl, Hname. }
    rewrite Hs. destruct (is_specification name).
    + destruct found as [q|]; [reflexivity|].
      rewrite IH. now destruct (List.filter (specification_named h) ps).
    + apply IH.
Qed.

(** X25: unless exactly one parameter of the workflow is named
    "specification", [get_inspection_specification] raises [ValueError]
    (from unpacking the filter into one name): with none, and with two or
    more.  The workflow is found and its parameters are dictionaries with a
    "name". *)
Theorem get_inspection_specification_not_one
    get_workflow json_loads fuel inspection_id h wf h1 spec_ arguments pl candidates :
  get_workflow ("inspection_id=" ++ inspection_id)%string
    (h ++ [ODict [("inspection_id", VStr inspection_id)]]) = Ok wf h1 ->
  py_getitem wf "spec" h1 = Ok spec_ h1 ->
  py_getitem spec_ "arguments" h1 = Ok arguments h1 ->
  py_getitem arguments "parameters" h1 = Ok (VRef pl) h1 ->
  h1 !! pl = Some (OList candidates) ->
  Forall (named_parameter h1) candidates ->
  length (List.filter (specification_named h1) candidates) <> 1%nat ->
  get_inspection_specification get_workflow json_loads fuel inspection_id h
  = Raise ValueError h1.
Proof.
  intros Hwf Hspec Hargs Hparams Hpl Hnamed Hcount.
  unfold get_inspection_specification.
  unfold bind at 1. unfold new_dict at 1. unfold alloc at 1. cbv beta iota.
  unfold bind at 1. unfold try_except. unfold bind at 1. rewrite Hwf.
  cbv beta iota. unfold ret at 1. cbv beta iota.
  rewrite (bind_ok _ _ _ _ _ Hspec), (bind_ok _ _ _ _ _ Hargs),
    (bind_ok _ _ _ _ _ Hparams).
  assert (Hiter : py_iter (VRef pl) h1 = Ok candidates h1).
  { unfold py_iter. now rewrite Hpl. }
  rewrite (bind_ok _ _ _ _ _ Hiter).
  apply bind_raise. rewrite (unpack_one_filter h1 candidates Hnamed None).
  destruct (List.filter (specification_named h1) candidates) as [|p [|q rest]];
    [reflexivity| |reflexivity].
  now destruct Hcount.
Qed.

Lemma get_inspection_specification_not_one_witness :
  get_inspection_specification
    (fun _ h => Ok (VRef 1%nat)
                  (h ++ [ODict [("spec", VRef 2%nat)];
                         ODict [("arguments", VRef 3%nat)];
                         ODict [("parameters", VRef 4%nat)];
                         OList [VRef 5%nat];
                         ODict [("name", VStr "dockerfile"); ("value", VStr "FROM fedora")]]))
    (fun _ => raise (OtherError "unused")) 2 "inspection-1" []
  = Raise ValueError
      [ODict [("inspection_id", VStr "inspection-1")];
       ODict [("spec", VRef 2%nat)];
       ODict [("arguments", VRef 3%nat)];
       ODict [("parameters", VRef 4%nat)];
       OList [VRef 5%nat];
       ODict [("name", VStr "dockerfile"); ("value", VStr "FROM fedora")]].
Proof.
  apply (get_inspection_specification_not_one _ _ 2 "inspection-1" []
           (VRef 1%nat) _ (VRef 2%nat) (VRef 3%nat) 4%nat [VRef 5%nat]);
    try reflexivity.
  - constructor; [|constructor].
    exists 5%nat, [("name", VStr "dockerfile"); ("value", VStr "FROM fedora")],
      (VStr "dockerfile").
    repeat split; reflexivity.
  - simpl. lia.
Defined.

Lemma tree_pop_missing h l ditems fp k :
  tree_at h (VRef l) (DDict ditems) fp ->
  dict_lookup k ditems = None ->
  py_pop (VRef l) k h = Raise KeyError h.
Proof.
  intros H Hd.
  apply tree_dict_inv in H as (l' & items & fps & [= <-] & -> & Hl & Hk & _).
  unfold py_pop. rewrite Hl.
  apply dict_lookup_None in Hd. rewrite Hk in Hd. apply dict_lookup_None in Hd.
  now rewrite Hd.
Qed.

(** X26: when the stored specification can be unparsed but has no
    "@created" item, [get_inspection_specification] raises [KeyError]; and
    when the workflow is not found it raises nothing and answers a
    dictionary without a status code, holding the error message and the
    inspection id. *)
Theorem get_inspection_specification_failures
    get_workflow json_loads fuel inspection_id h :
  (forall h1,
     get_workflow ("inspection_id=" ++ inspection_id)%string
       (h ++ [ODict [("inspection_id", VStr inspection_id)]]) = Raise NotFoundException h1 ->
     get_inspection_specification get_workflow json_loads fuel inspection_id h
     = Ok (VRef (length h1))
          (h1 ++ [ODict [("error",
                          VStr "A Workflow for the given inspection id as not found");
                         ("parameters", VRef (length h))]])) /\
  (forall wf h1 spec_ arguments pl before p pitems after s specification h2 jitems fp uitems,
     get_workflow ("inspection_id=" ++ inspection_id)%string
       (h ++ [ODict [("inspection_id", VStr inspection_id)]]) = Ok wf h1 ->
     py_getitem wf "spec" h1 = Ok spec_ h1 ->
     py_getitem spec_ "arguments" h1 = Ok arguments h1 ->
     py_getitem arguments "parameters" h1 = Ok (VRef pl) h1 ->
     h1 !! pl = Some (OList (before ++ VRef p :: after)) ->
     Forall (other_parameter h1) before ->
     Forall (other_parameter h1) after ->
     h1 !! p = Some (ODict pitems) ->
     dict_lookup "name" pitems = Some (VStr "specification") ->
     dict_lookup "value" pitems = Some (VStr s) ->
     json_loads s h1 = Ok specification h2 ->
     tree_at h2 specification (DDict jitems) fp ->
     (depth (DDict jitems) < fuel)%nat ->
     unparse_items jitems = inl uitems ->
     dict_lookup "@created" jitems = None ->
     exists h',
       get_inspection_specification get_workflow json_loads fuel inspection_id h
       = Raise KeyError h').
Proof.
  split.
  - intros h1 Hwf. unfold get_inspection_specification.
    unfold bind at 1. unfold new_dict at 1. unfold alloc at 1. cbv beta iota.
    unfold bind at 1. unfold try_except. unfold bind at 1. rewrite Hwf. reflexivity.
  - intros wf h1 spec_ arguments pl before p pitems after s specification h2 jitems fp
      uitems Hwf Hspec Hargs Hparams Hpl Hb Ha Hp Hname Hvalue Hjson Ht Hd Hu Hc.
    pose proof (unparse_specification_tree fuel h2 specification jitems fp Ht Hd) as Hun.
    rewrite Hu in Hun. destruct Hun as (h3 & fp3 & Hun & Ht3 & _).
    assert (Hc3 : dict_lookup "@created" uitems = None).
    { apply dict_lookup_None.
      rewrite (cast_to_int_items_keys _ _ _ _ Hu), map_fst_map_items.
      now apply dict_lookup_None. }
    exists h3. unfold get_inspection_specification.
    unfold bind at 1. unfold new_dict at 1. unfold alloc at 1. cbv beta iota.
    unfold bind at 1. unfold try_except. unfold bind at 1. rewrite Hwf.
    cbv beta iota. unfold ret at 1. cbv beta iota.
    rewrite (bind_ok _ _ _ _ _ Hspec), (bind_ok _ _ _ _ _ Hargs),
      (bind_ok _ _ _ _ _ Hparams).
    assert (Hiter : py_iter (VRef pl) h1 = Ok (before ++ VRef p :: after) h1).
    { unfold py_iter. now rewrite Hpl. }
    rewrite (bind_ok _ _ _ _ _ Hiter).
    rewrite (bind_ok _ _ _ _ _ (unpack_one_unique h1 before p pitems after Hb Ha Hp Hname)).
    assert (Hval : py_getitem (VRef p) "value" h1 = Ok (VStr s) h1).
    { unfold py_getitem. now rewrite Hp, Hvalue. }
    rewrite (bind_ok _ _ _ _ _ Hval).
    assert (Hload : py_json_loads json_loads (VStr s) h1 = Ok specification h2)
      by exact Hjson.
    rewrite (bind_ok _ _ _ _ _ Hload), (bind_ok _ _ _ _ _ Hun).
    apply bind_raise. now apply (tree_pop_missing h3 _ uitems fp3).
Qed.

Lemma get_inspection_specification_failures_witness :
  get_inspection_specification (fun _ => raise NotFoundException)
    (fun _ => raise (OtherError "unused")) 2 "inspection-1" []
  = Ok (VRef 1%nat)
       [ODict [("inspection_id", VStr "inspection-1")];
        ODict [("error", VStr "A Workflow for the given inspection id as not found");
               ("parameters", VRef 0%nat)]].
Proof.
  apply (proj1 (get_inspection_specification_failures
                  (fun _ => raise NotFoundException)
                  (fun _ => raise (OtherError "unused")) 2 "inspection-1" [])
           [ODict [("inspection_id", VStr "inspection-1")]]).
  reflexivity.
Defined.

(** * Default requests on tree-shaped documents *)

Lemma trees_at_length h vs ds fp : trees_at h vs ds fp -> length vs = length ds.
Proof. induction 1; simpl; congruence. Qed.

Lemma tree_truth_value h v d fp : tree_at h v d fp -> truth_value h v = doc_truthy d.
Proof.
  intros H. inversion H as [| | | |l elts ds fp0 Hl Hts _|l items ditems fp0 Hl Hk _ _ _];
    subst; simpl; try reflexivity.
  - rewrite Hl. apply trees_at_length in Hts. now rewrite Hts.
  - rewrite Hl. f_equal. f_equal.
    rewrite <- (length_map fst items), <- Hk. apply length_map.
Qed.

(** A child of a dictionary that is updated in place: the dictionary holds
    the document with the child replaced. *)
Lemma items_update h k d :
  forall (items : list (string * value)) (ditems : list (string * doc)) fp,
    map fst ditems = map fst items ->
    trees_at h (map snd items) (map snd ditems) fp ->
    dict_lookup k ditems = Some d ->
    exists v fpv,
      dict_lookup k items = Some v /\ tree_at h v d fpv /\
      (forall x, x ∈ fpv -> x ∈ fp) /\
      forall h' d' fpv',
        tree_at h' v d' fpv' ->
        (forall x, x ∈ fp -> x ∉ fpv -> h' !! x = h !! x) ->
        (forall x, x ∈ fpv' -> x ∈ fpv \/ x ∉ fp) ->
        exists fp',
          trees_at h' (map snd items) (map snd (dict_assign k d' ditems)) fp' /\
          (forall x, x ∈ fp' -> x ∈ fp \/ x ∈ fpv').
Proof.
  induction items as [|[k0 v0] items IH]; intros [|[k1 d1] ditems] fp Hk Ht Hd;
    try discriminate.
  simpl in Hk. injection Hk as -> Hk.
  simpl in Ht. inversion Ht as [|v' d0 fp0 vs' ds' fps Htv0 Hts Hdj]; subst.
  simpl in Hd |- *. destruct (String.eqb k k0) eqn:E.
  - injection Hd as ->. exists v0, fp0. split; [reflexivity|]. split; [assumption|].
    split; [intros x Hx; apply elem_of_app; now left|].
    intros h' d' fpv' Hv' Hagree Hnew.
    exists (fpv' ++ fps). split.
    + simpl. constructor; [assumption| |].
      * apply (proj2 (tree_at_frame h) _ _ _ Hts). intros x Hx. apply Hagree.
        -- apply elem_of_app. now right.
        -- intros Hx0. now apply (Hdj x Hx0).
      * intros x Hx Hx'. destruct (Hnew x Hx) as [Hx0|Hx0].
        -- now apply (Hdj x Hx0).
        -- apply Hx0. apply elem_of_app. now right.
    + intros x Hx. apply elem_of_app in Hx as [Hx|Hx]; [now right|].
      left. apply elem_of_app. now right.
  - destruct (IH ditems fps Hk Hts Hd) as (v & fpv & Hv & Htv & Hsub & Hupd).
    exists v, fpv. split; [assumption|]. split; [assumption|].
    split; [intros x Hx; apply elem_of_app; right; now apply Hsub|].
    intros h' d' fpv' Hv' Hagree Hnew.
    destruct (Hupd h' d' fpv' Hv') as (fp' & Ht' & Hsub').
    { intros x Hx Hx'. apply Hagree; [|assumption]. apply elem_of_app. now right. }
    { intros x Hx. destruct (Hnew x Hx) as [Hx0|Hx0]; [now left|].
      right. intros Hx1. apply Hx0. apply elem_of_app. now right. }
    exists (fp0 ++ fp'). split.
    + simpl. constructor; [| assumption |].
      * apply (proj1 (tree_at_frame h) _ _ _ Htv0). intros x Hx. apply Hagree.
        -- apply elem_of_app. now left.
        -- intros Hx0. apply (Hdj x Hx). now apply Hsub.
      * intros x Hx Hx'. destruct (Hsub' x Hx') as [Hx0|Hx0].
        -- now apply (Hdj x Hx).
        -- destruct (Hnew x Hx0) as [Hx1|Hx1].
           ++ apply (Hdj x Hx). now apply Hsub.
           ++ apply Hx1. apply elem_of_app. now left.
    + intros x Hx. apply elem_of_app in Hx as [Hx|Hx].
      * left. apply elem_of_app. now left.
      * destruct (Hsub' x Hx) as [Hx0|Hx0]; [|now right].
        left. apply elem_of_app. now right.
Qed.

Lemma tree_update_child h l ditems fp k d :
  tree_at h (VRef l) (DDict ditems) fp ->
  dict_lookup k ditems = Some d ->
  exists v fpv,
    py_getitem (VRef l) k h = Ok v h /\ tree_at h v d fpv /\
    (forall x, x ∈ fpv -> x ∈ fp /\ x <> l) /\
    forall h' d' fpv',
      tree_at h' v d' fpv' ->
      (forall x, x ∈ fp -> x ∉ fpv -> h' !! x = h !! x) ->
      (forall x, x ∈ fpv' -> x ∈ fpv \/ x ∉ fp) ->
      exists fp',
        tree_at h' (VRef l) (DDict (dict_assign k d' ditems)) fp' /\
        (forall x, x ∈ fp' -> x ∈ fp \/ x ∈ fpv').
Proof.
  intros H Hd.
  apply tree_dict_inv in H as (l' & items & fps & [= <-] & -> & Hl & Hk & Hnd & Ht & Hnin).
  destruct (items_update h k d items ditems fps Hk Ht Hd)
    as (v & fpv & Hv & Htv & Hsub & Hupd).
  assert (Hlv : l ∉ fpv) by (intros Hx; apply Hnin; now apply Hsub).
  exists v, fpv. split; [|split; [|split]].
  - unfold py_getitem. now rewrite Hl, Hv.
  - assumption.
  - intros x Hx. split; [apply elem_of_cons; right; now apply Hsub|].
    intros ->. contradiction.
  - intros h' d' fpv' Hv' Hagree Hnew.
    destruct (Hupd h' d' fpv' Hv') as (fp' & Ht' & Hsub').
    { intros x Hx Hx'. apply Hagree; [|assumption]. apply elem_of_cons. now right. }
    { intros x Hx. destruct (Hnew x Hx) as [Hx0|Hx0]; [now left|].
      right. intros Hx1. apply Hx0. apply elem_of_cons. now right. }
    assert (Hl' : l ∉ fp').
    { intros Hx. destruct (Hsub' l Hx) as [Hx0|Hx0]; [contradiction|].
      destruct (Hnew l Hx0) as [Hx1|Hx1]; [contradiction|].
      apply Hx1. apply elem_of_cons. now left. }
    exists (l :: fp'). split.
    + apply tree_dict with items.
      * rewrite Hagree; [assumption|apply elem_of_cons; now left|assumption].
      * rewrite <- Hk. apply dict_assign_keys_present. apply has_key_true.
        unfold has_key. now rewrite Hd.
      * assumption.
      * assumption.
      * assumption.
    + intros x Hx. apply elem_of_cons in Hx as [->|Hx].
      * left. apply elem_of_cons. now left.
      * destruct (Hsub' x Hx) as [Hx0|Hx0]; [|now right].
        left. apply elem_of_cons. now right.
Qed.

Lemma dict_assign_twice {V} k (v v' : V) items :
  dict_assign k v' (dict_assign k v items) = dict_assign k v' items.
Proof.
  induction items as [|[k0 v0] items IH]; simpl.
  - now rewrite String.eqb_refl.
  - destruct (String.eqb k k0) eqn:E; simpl; rewrite ?String.eqb_refl, ?E;
      [reflexivity|now rewrite IH].
Qed.

(** One of the two assignments, on a tree-shaped dictionary whose
    "requests" is a dictionary. *)
Lemma tree_assign_request_default h l ditems fp requests k default :
  tree_at h (VRef l) (DDict ditems) fp ->
  dict_lookup "requests" ditems = Some (DDict requests) ->
  dict_lookup k _DEFAULT_REQUESTS = Some (VStr default) ->
  exists h' fp',
    assign_request_default (VRef l) k h = Ok tt h' /\
    tree_at h' (VRef l)
      (DDict (dict_assign "requests"
                (DDict (dict_assign k (or_default_doc (dict_lookup k requests) default)
                          requests)) ditems)) fp' /\
    (forall x, x ∈ fp' -> x ∈ fp) /\
    length h' = length h /\
    (forall x, x ∉ fp -> h' !! x = h !! x).
Proof.
  intros Ht Hreq Hdef.
  destruct (tree_update_child h l ditems fp "requests" _ Ht Hreq)
    as (v & fpv & Hget & Htv & Hsub & Hupd).
  pose proof Ht as Ht0.
  apply tree_dict_inv in Ht0 as (l' & items & fps & [= <-] & -> & Hl & Hk & _).
  pose proof Htv as Htv0.
  apply tree_dict_inv in Htv0 as (r & ritems & fpr & -> & -> & Hr & Hrk & Hrnd & Hrt & Hrnin).
  assert (Hlreq : dict_lookup "requests" items = Some (VRef r)).
  { unfold py_getitem in Hget. rewrite Hl in Hget.
    destruct (dict_lookup "requests" items); [now injection Hget as ->|discriminate]. }
  rewrite (assign_request_default_run h l items r ritems k (VStr default) Hl Hlreq Hr Hdef).
  assert (Hrfp : r ∈ l :: fps) by (apply Hsub, elem_of_cons; now left).
  destruct (dict_lookup k requests) as [d|] eqn:Hd.
  - destruct (items_lookup h k d ritems requests fpr Hrk Hrt Hd)
      as (vk & fpk & Hvk & Htk & Hsubk).
    rewrite Hvk. unfold or_default, or_default_doc.
    rewrite (tree_truth_value h vk d fpk Htk).
    destruct (doc_truthy d); cbv iota.
    + (* the value is kept: nothing changes *)
      replace (<[r := ODict (dict_assign k vk ritems)]> h) with h
        by (rewrite (dict_assign_same k vk ritems Hvk); symmetry; now apply list_insert_id).
      rewrite (dict_assign_same k d requests Hd).
      rewrite (dict_assign_same "requests" (DDict requests) ditems Hreq).
      exists h, (l :: fps). repeat split; auto.
    + destruct (tree_setitem h r requests (r :: fpr) k (VStr default) (DStr default) []
                  Htv (tree_str h default))
        as (h' & fp' & Hset & Ht' & Hsub' & Hlen' & Hout').
      { intros x Hx. now apply elem_of_nil in Hx. }
      assert (Hh' : h' = <[r := ODict (dict_assign k (VStr default) ritems)]> h).
      { unfold py_setitem in Hset. rewrite Hr in Hset. now injection Hset as <-. }
      rewrite <- Hh'.
      destruct (Hupd h' _ fp' Ht') as (fp'' & Ht'' & Hsub'').
      { intros x Hx Hx'. apply Hout'. intros ->. apply Hx'. apply elem_of_cons. now left. }
      { intros x Hx. left. destruct (Hsub' x Hx) as [Hx0|Hx0]; [assumption|].
        now apply elem_of_nil in Hx0. }
      exists h', fp''. split; [reflexivity|]. split; [exact Ht''|].
      split; [|split; [exact Hlen'|]].
      * intros x Hx. destruct (Hsub'' x Hx) as [Hx0|Hx0]; [assumption|].
        destruct (Hsub' x Hx0) as [Hx1|Hx1]; [now apply Hsub|].
        now apply elem_of_nil in Hx1.
      * intros x Hx. apply Hout'. intros ->. contradiction.
  - assert (Hvk : dict_lookup k ritems = None).
    { apply dict_lookup_None. rewrite <- Hrk. now apply dict_lookup_None. }
    rewrite Hvk. unfold or_default, or_default_doc.
    destruct (tree_setitem h r requests (r :: fpr) k (VStr default) (DStr default) []
                Htv (tree_str h default))
      as (h' & fp' & Hset & Ht' & Hsub' & Hlen' & Hout').
    { intros x Hx. now apply elem_of_nil in Hx. }
    assert (Hh' : h' = <[r := ODict (dict_assign k (VStr default) ritems)]> h).
    { unfold py_setitem in Hset. rewrite Hr in Hset. now injection Hset as <-. }
    rewrite <- Hh'.
    destruct (Hupd h' _ fp' Ht') as (fp'' & Ht'' & Hsub'').
    { intros x Hx Hx'. apply Hout'. intros ->. apply Hx'. apply elem_of_cons. now left. }
    { intros x Hx. left. destruct (Hsub' x Hx) as [Hx0|Hx0]; [assumption|].
      now apply elem_of_nil in Hx0. }
    exists h', fp''. split; [reflexivity|]. split; [exact Ht''|].
    split; [|split; [exact Hlen'|]].
    + intros x Hx. destruct (Hsub'' x Hx) as [Hx0|Hx0]; [assumption|].
      destruct (Hsub' x Hx0) as [Hx1|Hx1]; [now apply Hsub|].
      now apply elem_of_nil in Hx1.
    + intros x Hx. apply Hout'. intros ->. contradiction.
Qed.

(** [_adjust_default_requests] on a tree-shaped dictionary: the outcome is
    that of [adjust_items]. *)
Lemma tree_adjust_default_requests h l ditems fp :
  tree_at h (VRef l) (DDict ditems) fp ->
  match adjust_items ditems with
  | inl items' =>
      exists h' fp',
        _adjust_default_requests (VRef l) h = Ok tt h' /\
        tree_at h' (VRef l) (DDict items') fp' /\
        (forall x, x ∈ fp' -> x ∈ fp \/ x = length h) /\
        (length h <= length h')%nat /\
        (forall x, (x < length h)%nat -> x ∉ fp -> h' !! x = h !! x)
  | inr e => _adjust_default_requests (VRef l) h = Raise e h
  end.
Proof.
  intros Ht. unfold adjust_items.
  assert (Hlfp : l ∈ fp).
  { apply tree_dict_inv in Ht as (l' & items & fps & [= <-] & -> & _).
    apply elem_of_cons. now left. }
  destruct (dict_lookup "requests" (default_item "requests" ditems)) as [d|] eqn:Hreq.
  2:{ exfalso.
      assert (Hk : has_key "requests" (default_item "requests" ditems) = true).
      { rewrite has_key_default_item, String.eqb_refl. apply orb_true_r. }
      unfold has_key in Hk. now rewrite Hreq in Hk. }
  assert (Hcases : (exists requests, d = DDict requests) \/
                   (dict_lookup "requests" ditems = Some d /\
                    forall requests, d <> DDict requests)).
  { rewrite lookup_default_item in Hreq.
    destruct (dict_lookup "requests" ditems) as [d0|].
    - injection Hreq as ->. destruct d; eauto; right; split; congruence.
    - rewrite String.eqb_refl in Hreq. injection Hreq as <-. eauto. }
  destruct Hcases as [[requests ->]|[Hlookup Hnot]].
  - destruct (tree_default_to_empty_dict h l ditems fp "requests" Ht)
      as (h1 & fp1 & Hdef & Ht1 & Hsub1 & Hlen1 & Hout1).
    destruct (tree_assign_request_default h1 l _ fp1 requests "cpu" "500m" Ht1 Hreq eq_refl)
      as (h2 & fp2 & Hcpu & Ht2 & Hsub2 & Hlen2 & Hout2).
    destruct (tree_assign_request_default h2 l _ fp2 _ "memory" "256Mi" Ht2
                (dict_lookup_assign_eq _ _ _) eq_refl)
      as (h3 & fp3 & Hmem & Ht3 & Hsub3 & Hlen3 & Hout3).
    rewrite dict_assign_twice in Ht3.
    exists h3, fp3. split; [|split; [|split; [|split]]].
    + unfold _adjust_default_requests.
      now rewrite (bind_ok _ _ _ _ _ Hdef), (bind_ok _ _ _ _ _ Hcpu).
    + exact Ht3.
    + intros x Hx. apply Hsub1, Hsub2, Hsub3, Hx.
    + lia.
    + intros x Hx Hxfp.
      assert (Hx1 : x ∉ fp1).
      { intros Hx1. destruct (Hsub1 x Hx1) as [Hx2|Hx2]; [contradiction|lia]. }
      rewrite Hout3 by (intros Hx3; apply Hx1; now apply Hsub2).
      rewrite Hout2 by assumption.
      apply Hout1; [|assumption]. intros ->. contradiction.
  - assert (Hdef : default_to_empty_dict "requests" (VRef l) h = Ok tt h).
    { unfold default_to_empty_dict.
      rewrite (bind_ok _ _ _ _ _ (tree_contains _ _ _ _ "requests" Ht)).
      unfold has_key. now rewrite Hlookup. }
    destruct d as [| | | | |requests]; [| | | | |now destruct (Hnot requests)];
      (destruct (tree_getitem h l ditems fp "requests" _ Ht Hlookup)
         as (v & fpv & Hget & Htv & _);
       unfold _adjust_default_requests, assign_request_default;
       rewrite (bind_ok _ _ _ _ _ Hdef);
       unfold bind at 1; unfold bind at 1; rewrite Hget;
       unfold bind at 1; unfold py_get;
       inversion Htv; subst; try reflexivity).
    match goal with H : h !! _ = Some (OList _) |- _ => now rewrite H end.
Qed.

(** X27: on a tree-shaped dictionary, [_adjust_default_requests] computes
    [adjust_items]: "requests" becomes a dictionary in which "cpu" and
    "memory" keep a value that is true and are set to "500m" and "256Mi"
    otherwise, every other item of the dictionary and of "requests" staying
    as it is and in its place; nothing outside the dictionary changes.  When
    "requests" holds something that is not a dictionary the call raises
    [AttributeError] and changes nothing. *)
Theorem adjust_default_requests_on_documents h l ditems fp :
  tree_at h (VRef l) (DDict ditems) fp ->
  match adjust_items ditems with
  | inl items' =>
      exists h' fp',
        _adjust_default_requests (VRef l) h = Ok tt h' /\
        tree_at h' (VRef l) (DDict items') fp' /\
        (forall x, x ∈ fp' -> x ∈ fp \/ x = length h) /\
        (length h <= length h')%nat /\
        (forall x, (x < length h)%nat -> x ∉ fp -> h' !! x = h !! x)
  | inr e => _adjust_default_requests (VRef l) h = Raise e h
  end.
Proof. exact (tree_adjust_default_requests h l ditems fp). Qed.

Lemma adjust_default_requests_on_documents_witness :
  exists h' fp',
    _adjust_default_requests (VRef 0%nat)
      [ODict [("requests", VRef 1%nat)]; ODict [("memory", VStr "1Gi"); ("cpu", VInt 0)]]
    = Ok tt h' /\
    tree_at h' (VRef 0%nat)
      (DDict [("requests", DDict [("memory", DStr "1Gi"); ("cpu", DStr "500m")])]) fp'.
Proof.
  destruct (adjust_default_requests_on_documents
              [ODict [("requests", VRef 1%nat)];
               ODict [("memory", VStr "1Gi"); ("cpu", VInt 0)]]
              0%nat [("requests", DDict [("memory", DStr "1Gi"); ("cpu", DInt 0)])]
              [0%nat; 1%nat])
    as (h' & fp' & Hrun & Ht & _).
  - apply tree_dict with [("requests", VRef 1%nat)];
      [reflexivity | reflexivity | solve_NoDup | | ].
    + apply (trees_cons _ _ _ [1%nat] _ _ []);
        [ | constructor | intros x _; apply not_elem_of_nil].
      apply tree_dict with [("memory", VStr "1Gi"); ("cpu", VInt 0)];
        [reflexivity | reflexivity | solve_NoDup | | apply not_elem_of_nil].
      repeat (apply (trees_cons _ _ _ [] _ _ []);
              [constructor | | intros x Hx; now apply elem_of_nil in Hx]).
      constructor.
    + intros Hx. apply elem_of_cons in Hx as [Hx|Hx]; [discriminate|].
      now apply elem_of_nil in Hx.
  - exists h', fp'. split; [exact Hrun|exact Ht].
Defined.

(** * What [post_inspection] schedules *)

(** [_adjust_default_requests(specification[key])] on a tree-shaped
    specification. *)
Lemma tree_adjust_key h lc items fp key items' :
  tree_at h (VRef lc) (DDict items) fp ->
  adjust_key key items = inl items' ->
  exists v h' fp',
    py_getitem (VRef lc) key h = Ok v h /\
    _adjust_default_requests v h = Ok tt h' /\
    tree_at h' (VRef lc) (DDict items') fp' /\
    (forall x, x ∈ fp' -> x ∈ fp \/ x = length h) /\
    (length h <= length h')%nat /\
    (forall x, (x < length h)%nat -> x ∉ fp -> h' !! x = h !! x).
Proof.
  intros Ht Hadj. unfold adjust_key in Hadj.
  destruct (dict_lookup key items) as [d|] eqn:Hd; [|discriminate].
  destruct d as [| | | | |sub]; try discriminate.
  destruct (adjust_items sub) as [sub'|e] eqn:Hsub; [|discriminate].
  injection Hadj as <-.
  destruct (tree_update_child h lc items fp key _ Ht Hd)
    as (v & fpv & Hget & Htv & Hin & Hupd).
  pose proof Htv as Htv0.
  apply tree_dict_inv in Htv0 as (r & ritems & fpr & -> & -> & _).
  pose proof (tree_adjust_default_requests h r sub (r :: fpr) Htv) as Hrun.
  rewrite Hsub in Hrun.
  destruct Hrun as (h' & fp' & Hrun & Ht' & Hsub' & Hlen' & Hout').
  assert (Hfplt : forall x, x ∈ fp -> (x < length h)%nat).
  { apply (proj1 (tree_at_allocated h) _ _ _ Ht). }
  destruct (Hupd h' (DDict sub') fp' Ht') as (fp'' & Ht'' & Hsub'').
  { intros x Hx Hx'. apply Hout'; [now apply Hfplt|assumption]. }
  { intros x Hx. destruct (Hsub' x Hx) as [Hx0|Hx0]; [now left|]. subst x.
    right. intros Hx1. apply Hfplt in Hx1. lia. }
  exists (VRef r), h', fp''. split; [exact Hget|]. split; [|split; [|split; [|split]]].
  - exact Hrun.
  - exact Ht''.
  - intros x Hx. destruct (Hsub'' x Hx) as [Hx0|Hx0]; [now left|].
    destruct (Hsub' x Hx0) as [Hx1|Hx1]; [|now right].
    left. now apply Hin.
  - exact Hlen'.
  - intros x Hx Hxfp. apply Hout'; [assumption|].
    intros Hx0. apply Hxfp. now apply Hin.
Qed.

(** The values collected from a hardware dictionary are the trees of the
    corresponding documents. *)
Lemma hardware_items_trees h (hitems : list (string * value)) (hw : list (string * doc)) fp :
  map fst hw = map fst hitems ->
  trees_at h (map snd hitems) (map snd hw) fp ->
  map fst (hardware_items hitems) = map fst (hardware_items hw) /\
  Forall2 (fun v d => exists fpv, tree_at h v d fpv /\ forall x, x ∈ fpv -> x ∈ fp)
    (map snd (hardware_items hitems)) (map snd (hardware_items hw)).
Proof.
  intros Hk Ht. unfold hardware_items.
  induction hardware_parameters as [|[key name] kns [IHk IHt]]; [split; constructor|].
  cbn [omap list_omap fst snd].
  destruct (dict_lookup key hw) as [d|] eqn:Hd.
  - destruct (items_lookup h key d hitems hw fp Hk Ht Hd) as (v & fpv & Hv & Htv & Hsub).
    rewrite Hv. simpl. split; [now f_equal|].
    constructor; [|exact IHt]. exists fpv. split; assumption.
  - assert (Hv : dict_lookup key hitems = None).
    { apply dict_lookup_None. rewrite <- Hk. now apply dict_lookup_None. }
    rewrite Hv. simpl. split; assumption.
Qed.

(** [_construct_parameters_dict] on a tree-shaped build specification whose
    "requests" is a dictionary and whose hardware requests, if any, are a
    dictionary. *)
Lemma tree_construct_parameters h lb bitems fpb requests pdoc :
  tree_at h (VRef lb) (DDict bitems) fpb ->
  dict_lookup "requests" bitems = Some (DDict requests) ->
  hardware_parameters_of (dict_lookup "hardware" requests) = Some pdoc ->
  exists pitems flag more,
    _construct_parameters_dict (VRef lb) h
    = Ok (VRef (length h), flag) (h ++ ODict pitems :: more) /\
    map fst pitems = map fst pdoc /\
    Forall2 (fun v d => exists fpv, tree_at h v d fpv /\
                                    forall x, x ∈ fpv -> x ∈ fpb /\ x <> lb)
      (map snd pitems) (map snd pdoc).
Proof.
  intros Ht Hreq Hhw.
  destruct (tree_getitem h lb bitems fpb "requests" _ Ht Hreq)
    as (vr & fpr & Hgetr & Htr & Hsubr).
  pose proof Ht as Ht0.
  apply tree_dict_inv in Ht0 as (l' & items & fps & [= <-] & -> & Hl & _).
  pose proof Htr as Htr0.
  apply tree_dict_inv in Htr0 as (r & ritems & fpr0 & -> & -> & Hr & Hrk & _ & Hrt & _).
  assert (Hlreq : dict_lookup "requests" items = Some (VRef r)).
  { unfold py_getitem in Hgetr. rewrite Hl in Hgetr.
    destruct (dict_lookup "requests" items); [now injection Hgetr as ->|discriminate]. }
  destruct (dict_lookup "hardware" requests) as [hd|] eqn:Hhd.
  - destruct hd as [| | | | |hw]; try discriminate. injection Hhw as <-.
    destruct (items_lookup h "hardware" _ ritems requests fpr0 Hrk Hrt Hhd)
      as (vh & fph & Hvh & Hth & Hsubh).
    pose proof Hth as Hth0.
    apply tree_dict_inv in Hth0 as (w & hitems & fpw & -> & -> & Hw & Hwk & _ & Hwt & _).
    destruct (hardware_items_trees h hitems hw fpw Hwk Hwt) as [Hkeys Htrees].
    exists (hardware_items hitems), true, [ODict []; ODict []; ODict []].
    split; [|split; [exact Hkeys|]].
    + exact (construct_parameters_hardware_run h lb items r ritems w hitems
               Hl Hlreq Hr Hvh Hw).
    + eapply Forall2_impl; [exact Htrees|].
      intros v d (fpv & Htv & Hsub). exists fpv. split; [exact Htv|].
      intros x Hx. apply Hsubr. apply elem_of_cons. right. apply Hsubh.
      apply elem_of_cons. right. now apply Hsub.
  - injection Hhw as <-.
    assert (Hvh : dict_lookup "hardware" ritems = None).
    { apply dict_lookup_None. rewrite <- Hrk. now apply dict_lookup_None. }
    exists [], false, [ODict []]. split; [|split; constructor].
    apply (construct_parameters_no_hardware_run h lb items Hl).
    right. exists r, ritems. auto.
Qed.

Lemma py_get_present c k v default h :
  py_getitem c k h = Ok v h -> py_get c k default h = Ok v h.
Proof.
  unfold py_getitem, py_get. destruct c as [| | | |l]; try discriminate.
  destruct (h !! l) as [[items|elts]|]; try discriminate.
  destruct (dict_lookup k items); [auto|discriminate].
Qed.

Lemma adjust_key_result key items items' :
  adjust_key key items = inl items' ->
  exists sub requests,
    dict_lookup key items' = Some (DDict sub) /\
    dict_lookup "requests" sub = Some (DDict requests).
Proof.
  unfold adjust_key. destruct (dict_lookup key items) as [[| | | | |sub]|]; try discriminate.
  unfold adjust_items.
  destruct (dict_lookup "requests" (default_item "requests" sub)) as [[| | | | |q]|];
    try discriminate.
  intros [= <-]. eexists _, _. split; apply dict_lookup_assign_eq.
Qed.

(** The success path of [post_inspection], up to the scheduling call. *)
Lemma post_inspection_reaches_scheduler
    create_dockerfile now schedule globals fuel specification h
    dockerfile run_job h0 items fp created sitems pdoc :
  create_dockerfile specification h = Ok (VStr dockerfile, run_job) h0 ->
  tree_at h0 specification (DDict items) fp ->
  (depth (DDict items) < fuel)%nat ->
  (forall h, now h = Ok created h) ->
  scheduled_items created items = inl sitems ->
  hardware_parameters_of (build_hardware sitems) = Some pdoc ->
  exists hc lc p pitems fps,
    let target := if truth_value hc run_job
                  then "inspection-run-result" else "inspection-build" in
    post_inspection create_dockerfile now schedule globals fuel specification h
    = (let! workflow_id :=
         schedule (VStr (double_quotes dockerfile)) (VRef lc) target (VRef p) in
       success_response globals (VRef lc) workflow_id target) hc /\
    tree_at hc (VRef lc) (DDict sitems) fps /\
    hc !! p = Some (ODict pitems) /\
    map fst pitems = map fst pdoc /\
    Forall2 (fun v d => exists fpv, tree_at hc v d fpv) (map snd pitems) (map snd pdoc).
Proof.
  intros Hcd Ht Hd Hnow Hs Hhw.
  unfold scheduled_items in Hs.
  destruct (adjust_key "run" (parse_items items)) as [A|] eqn:HA; [|discriminate].
  destruct (adjust_key "build" A) as [B|] eqn:HB; [|discriminate].
  injection Hs as <-.
  destruct (parse_specification_tree fuel h0 specification items fp Ht Hd)
    as (h1 & fp1 & Hp & Ht1 & _).
  set (lc := length h0) in *.
  destruct (tree_adjust_key h1 lc _ fp1 "run" A Ht1 HA)
    as (vrun & h2 & fp2 & Hgetrun & Hrun & Ht2 & Hsub2 & Hlen2 & Hout2).
  destruct (tree_adjust_key h2 lc _ fp2 "build" B Ht2 HB)
    as (vbuild & h3 & fp3 & Hgetbuild & Hbuild & Ht3 & Hsub3 & Hlen3 & Hout3).
  destruct (adjust_key_result "build" A B HB) as (bsub & requests & Hb & Hreq).
  assert (Hhw' : hardware_parameters_of (dict_lookup "hardware" requests) = Some pdoc).
  { unfold build_hardware in Hhw.
    rewrite dict_lookup_assign_ne in Hhw by discriminate.
    now rewrite Hb, Hreq in Hhw. }
  set (h3' := h3 ++ [ODict []]).
  assert (Ht3' : tree_at h3' (VRef lc) (DDict B) fp3) by (now apply tree_at_alloc).
  destruct (tree_getitem h3' lc B fp3 "build" _ Ht3' Hb)
    as (vb & fpb & Hgetb & Htb & Hsubb).
  pose proof Htb as Htb0.
  apply tree_dict_inv in Htb0 as (lb & bitems & fpb0 & -> & -> & _).
  destruct (tree_construct_parameters h3' lb bsub (lb :: fpb0) requests pdoc Htb Hreq Hhw')
    as (pitems & flag & more & Hcons & Hkeys & Htrees).
  set (h4 := h3' ++ ODict pitems :: more) in *.
  assert (Hfp3 : forall x, x ∈ fp3 -> (x < length h3')%nat).
  { apply (proj1 (tree_at_allocated h3') _ _ _ Ht3'). }
  assert (Ht4 : tree_at h4 (VRef lc) (DDict B) fp3).
  { apply (proj1 (tree_at_frame h3') _ _ _ Ht3').
    intros x Hx. unfold h4. apply lookup_app_l. now apply Hfp3. }
  destruct (tree_setitem h4 lc B fp3 "@created" (VStr created) (DStr created) []
              Ht4 (tree_str h4 created))
    as (h5 & fp5 & Hset & Ht5 & _ & Hlen5 & Hout5).
  { intros x Hx. now apply elem_of_nil in Hx. }
  assert (Hlc : (lc < length h3')%nat).
  { apply Hfp3. apply tree_dict_inv in Ht3' as (l' & its & fps' & [= <-] & -> & _).
    apply elem_of_cons. now left. }
  exists h5, lc, (length h3'), pitems, fp5. cbv zeta.
  split; [|split; [exact Ht5|split; [|split; [exact Hkeys|]]]].
  - unfold post_inspection, post_inspection_schedule.
    assert (Hdo : _do_create_dockerfile create_dockerfile specification h
                  = Ok (VStr dockerfile, run_job) h0).
    { unfold _do_create_dockerfile, try_except. now rewrite Hcd. }
    unfold bind at 1. unfold bind at 1. rewrite Hdo. cbv beta iota delta [is_None].
    unfold bind at 1. rewrite Hp. cbv beta iota.
    unfold bind at 1. rewrite Hgetrun. cbv beta iota.
    unfold bind at 1. rewrite Hrun. cbv beta iota.
    unfold bind at 1. rewrite Hgetbuild. cbv beta iota.
    unfold bind at 1. rewrite Hbuild. cbv beta iota.
    unfold bind at 1. unfold new_dict at 1. unfold alloc at 1. cbv beta iota.
    fold h3'.
    unfold bind at 1. rewrite (py_get_present _ _ _ (VRef (length h3)) _ Hgetb).
    cbv beta iota.
    unfold bind at 1. rewrite Hcons. cbv beta iota. fold h4.
    unfold bind at 1. rewrite Hnow. cbv beta iota.
    unfold bind at 1. rewrite Hset. cbv beta iota.
    unfold bind at 1. unfold truthy at 1. cbv beta iota.
    unfold bind at 1. unfold replace_quotes at 1. unfold ret at 1. cbv beta iota.
    unfold bind.
    destruct (schedule _ _ _ _ h5) as [workflow_id h6|e h6]; reflexivity.
  - rewrite Hout5 by lia. unfold h4. rewrite lookup_app_r by lia.
    now rewrite Nat.sub_diag.
  - eapply Forall2_impl; [exact Htrees|].
    intros v d (fpv & Htv & Hsub). exists fpv.
    apply (proj1 (tree_at_frame h3') _ _ _ Htv).
    intros x Hx.
    assert (Hxfp : x ∈ fp3 /\ x <> lc).
    { apply Hsubb. now apply Hsub. }
    rewrite Hout5 by tauto. unfold h4. apply lookup_app_l. apply Hfp3. tauto.
Qed.

(** X28: the success path of [post_inspection].  When the generator returns
    a Dockerfile (a string) and the specification is a tree-shaped
    dictionary whose "run" and "build" (and their "requests", and the
    hardware requests of the build) are dictionaries where present, the
    handler calls the scheduler with the Dockerfile with every quote
    doubled, with the target chosen by the truth of what the generator
    returned second, with a new dictionary holding the parsed specification
    completed with the default requests of "run" and "build" and with
    "@created", and with the parameters built from the hardware requests;
    what follows is the scheduler's outcome and the response built from
    it.  What stands in an integer field is a string or has ASCII text only,
    so that [str] of it is within the model. *)
Theorem post_inspection_schedules
    create_dockerfile now schedule globals fuel specification h
    dockerfile run_job h0 items fp created sitems pdoc :
  create_dockerfile specification h = Ok (VStr dockerfile, run_job) h0 ->
  tree_at h0 specification (DDict items) fp ->
  (depth (DDict items) < fuel)%nat ->
  (forall h, now h = Ok created h) ->
  (forall k d, k ∈ int_to_str -> dict_lookup k items = Some d -> str_modelled d = true) ->
  scheduled_items created items = inl sitems ->
  hardware_parameters_of (build_hardware sitems) = Some pdoc ->
  exists hc lc p pitems fps,
    let target := if truth_value hc run_job
                  then "inspection-run-result" else "inspection-build" in
    post_inspection create_dockerfile now schedule globals fuel specification h
    = (let! workflow_id :=
         schedule (VStr (double_quotes dockerfile)) (VRef lc) target (VRef p) in
       success_response globals (VRef lc) workflow_id target) hc /\
    tree_at hc (VRef lc) (DDict sitems) fps /\
    hc !! p = Some (ODict pitems) /\
    map fst pitems = map fst pdoc /\
    Forall2 (fun v d => exists fpv, tree_at hc v d fpv) (map snd pitems) (map snd pdoc).
Proof.
  intros Hcd Ht Hd Hnow _.
  exact (post_inspection_reaches_scheduler create_dockerfile now schedule globals fuel
           specification h dockerfile run_job h0 items fp created sitems pdoc
           Hcd Ht Hd Hnow).
Qed.

Lemma post_inspection_schedules_witness :
  exists hc lc p pitems fps,
    post_inspection (fun _ => ret (VStr "RUN echo 'hi'", VBool true)) (ret "2020-01-01")
      (fun _ _ _ _ => ret (VStr "workflow-1")) [] 3 (VRef 0%nat)
      [ODict [("base", VStr "fedora:31"); ("batch_size", VInt 2)]]
    = (let! workflow_id :=
         (fun _ _ _ _ => ret (VStr "workflow-1"))
           (VStr "RUN echo ''hi''") (VRef lc) "inspection-run-result" (VRef p) in
       success_response [] (VRef lc) workflow_id "inspection-run-result") hc /\
    tree_at hc (VRef lc)
      (DDict [("base", DStr "fedora:31"); ("batch_size", DStr "2");
              ("build", DDict [("requests", DDict [("cpu", DStr "500m");
                                                    ("memory", DStr "256Mi")])]);
              ("run", DDict [("requests", DDict [("cpu", DStr "500m");
                                                  ("memory", DStr "256Mi")])]);
              ("@created", DStr "2020-01-01")]) fps /\
    hc !! p = Some (ODict pitems) /\
    map fst pitems = [] /\
    Forall2 (fun v d => exists fpv, tree_at hc v d fpv) (map snd pitems) [].
Proof.
  apply (post_inspection_schedules
           (fun _ => ret (VStr "RUN echo 'hi'", VBool true)) (ret "2020-01-01")
           (fun _ _ _ _ => ret (VStr "workflow-1")) [] 3 (VRef 0%nat)
           [ODict [("base", VStr "fedora:31"); ("batch_size", VInt 2)]]
           "RUN echo 'hi'" (VBool true)
           [ODict [("base", VStr "fedora:31"); ("batch_size", VInt 2)]]
           [("base", DStr "fedora:31"); ("batch_size", DInt 2)] [0%nat] "2020-01-01"
           _ []).
  - reflexivity.
  - apply tree_dict with [("base", VStr "fedora:31"); ("batch_size", VInt 2)];
      [reflexivity | reflexivity | solve_NoDup | | apply not_elem_of_nil].
    repeat (apply (trees_cons _ _ _ [] _ _ []);
            [constructor | | intros x Hx; now apply elem_of_nil in Hx]).
    constructor.
  - simpl. lia.
  - reflexivity.
  - intros k d Hk Hd. unfold int_to_str in Hk. rewrite !elem_of_cons in Hk.
    destruct Hk as [->|[->|[->|Hk]]]; try discriminate Hd;
      [|now apply elem_of_nil in Hk].
    injection Hd as <-. reflexivity.
  - reflexivity.
  - reflexivity.
Defined.

(** * From [post_inspection] to [get_inspection_specification] *)

Lemma map_items_dict_assign g k d (items : list (string * doc)) :
  map_items g (dict_assign k d items) = dict_assign k (g d) (map_items g items).
Proof.
  induction items as [|[k0 d0] items IH]; simpl; [reflexivity|].
  destruct (String.eqb k k0); simpl; [reflexivity|]. f_equal. exact IH.
Qed.

Lemma dict_assign_comm {V} k1 k2 (v1 v2 : V) items :
  k1 <> k2 -> has_key k1 items = true ->
  dict_assign k1 v1 (dict_assign k2 v2 items) = dict_assign k2 v2 (dict_assign k1 v1 items).
Proof.
  intros Hne. induction items as [|[k0 v0] items IH]; [discriminate|].
  unfold has_key. simpl.
  destruct (String.eqb k1 k0) eqn:E1, (String.eqb k2 k0) eqn:E2; simpl.
  - apply String.eqb_eq in E1, E2. congruence.
  - intros _. rewrite E1. simpl.
    assert (E3 : String.eqb k2 k1 = false).
    { apply String.eqb_neq. congruence. }
    now rewrite E3.
  - intros Hk. rewrite E2. simpl.
    assert (E3 : String.eqb k1 k2 = false) by (now apply String.eqb_neq).
    now rewrite E3.
  - intros Hk. rewrite E1, E2. f_equal. apply IH. exact Hk.
Qed.

Lemma has_key_dict_assign {V} k k' (v : V) items :
  has_key k (dict_assign k' v items) = has_key k items || String.eqb k k'.
Proof.
  unfold has_key. destruct (String.eqb k k') eqn:E.
  - apply String.eqb_eq in E. subst. rewrite dict_lookup_assign_eq. now rewrite orb_true_r.
  - apply String.eqb_neq in E. rewrite dict_lookup_assign_ne by congruence.
    now rewrite orb_false_r.
Qed.

(** Casting commutes with an assignment to a key that is not cast. *)
Lemma cast_to_int_items_assign k o c original keys :
  k ∉ keys ->
  forall current result,
    cast_to_int_items original current keys = inl result ->
    cast_to_int_items (dict_assign k o original) (dict_assign k c current) keys
    = inl (dict_assign k c result).
Proof.
  intros Hk. induction keys as [|key keys IH]; intros current result H.
  - simpl in H |- *. now injection H as <-.
  - apply not_elem_of_cons in Hk as [Hne Hk]. simpl in H |- *.
    assert (E : String.eqb key k = false) by (apply String.eqb_neq; congruence).
    rewrite has_key_dict_assign, E, orb_false_r.
    destruct (has_key key current) eqn:Hkey; [|now apply IH].
    rewrite dict_lookup_assign_ne by congruence.
    destruct (dict_lookup key original) as [d|]; [|discriminate].
    destruct (doc_int d) as [z|e]; [|discriminate].
    rewrite (dict_assign_comm key k) by (congruence || assumption).
    now apply IH.
Qed.

Lemma unparse_items_assign k d items result :
  k ∉ str_to_int ->
  unparse_items items = inl result ->
  unparse_items (dict_assign k d items)
  = inl (dict_assign k (map_strings unescape_str d) result).
Proof.
  intros Hk H. unfold unparse_items in H |- *.
  rewrite !map_items_dict_assign. now apply cast_to_int_items_assign.
Qed.

Lemma escape_str_empty s : String.eqb (escape_str s) "" = String.eqb s "".
Proof.
  destruct s as [|c rest]; [reflexivity|].
  simpl. now destruct (is_quote c && negb (starts_with_quote rest)).
Qed.

Lemma doc_truthy_escape d : doc_truthy (map_strings escape_str d) = doc_truthy d.
Proof.
  destruct d; simpl; try reflexivity.
  - now rewrite escape_str_empty.
  - now rewrite length_map.
  - now rewrite length_map.
Qed.

Lemma or_default_doc_escape current default :
  escape_str default = default ->
  map_strings escape_str (or_default_doc current default)
  = or_default_doc (option_map (map_strings escape_str) current) default.
Proof.
  intros Hdef. unfold or_default_doc. destruct current as [d|]; simpl.
  - rewrite doc_truthy_escape. destruct (doc_truthy d); [reflexivity|].
    simpl. now rewrite Hdef.
  - now rewrite Hdef.
Qed.

Lemma adjust_requests_escape (requests : list (string * doc)) :
  adjust_requests (map_items (map_strings escape_str) requests)
  = map_items (map_strings escape_str) (adjust_requests requests).
Proof.
  unfold adjust_requests.
  rewrite !map_items_dict_assign, !or_default_doc_escape by reflexivity.
  rewrite <- !dict_lookup_map_items, !map_items_dict_assign.
  now rewrite !or_default_doc_escape, <- !dict_lookup_map_items by reflexivity.
Qed.

Lemma adjust_items_escape (items : list (string * doc)) :
  adjust_items (map_items (map_strings escape_str) items)
  = match adjust_items items with
    | inl items' => inl (map_items (map_strings escape_str) items')
    | inr e => inr e
    end.
Proof.
  unfold adjust_items.
  rewrite <- (map_items_default_item (map_strings escape_str)) by reflexivity.
  rewrite dict_lookup_map_items.
  destruct (dict_lookup "requests" (default_item "requests" items)) as [d|]; [|reflexivity].
  destruct d as [| | | | |requests]; try reflexivity. simpl.
  rewrite map_items_dict_assign. simpl. do 3 f_equal.
  apply adjust_requests_escape.
Qed.

Lemma all_strings_dict_assign p k d (items : list (string * doc)) :
  all_strings p (DDict items) = true -> all_strings p d = true ->
  all_strings p (DDict (dict_assign k d items)) = true.
Proof.
  simpl. intros H Hd. induction items as [|[k0 d0] items IH]; simpl.
  - now rewrite Hd.
  - simpl in H. apply andb_true_iff in H as [H0 H].
    destruct (String.eqb k k0); simpl.
    + now rewrite Hd.
    + now rewrite H0, IH.
Qed.

Lemma all_strings_or_default p (items : list (string * doc)) k default :
  all_strings p (DDict items) = true -> p default = true ->
  all_strings p (or_default_doc (dict_lookup k items) default) = true.
Proof.
  intros H Hd. unfold or_default_doc.
  destruct (dict_lookup k items) as [d|] eqn:Hk; [|exact Hd].
  destruct (doc_truthy d); [|exact Hd].
  now apply (all_strings_items p items k d).
Qed.

Lemma all_strings_default_item p key (items : list (string * doc)) :
  all_strings p (DDict items) = true ->
  all_strings p (DDict (default_item key items)) = true.
Proof.
  intros H. unfold default_item. destruct (has_key key items); [exact H|].
  now apply all_strings_dict_assign.
Qed.

Lemma all_strings_adjust_items (items items' : list (string * doc)) :
  all_strings no_triple_quote (DDict items) = true ->
  adjust_items items = inl items' ->
  all_strings no_triple_quote (DDict items') = true.
Proof.
  intros H. unfold adjust_items.
  destruct (dict_lookup "requests" (default_item "requests" items)) as [d|] eqn:Hd;
    [|discriminate].
  destruct d as [| | | | |requests]; try discriminate. intros [= <-].
  pose proof (all_strings_default_item _ "requests" _ H) as H1.
  pose proof (all_strings_items _ _ _ _ H1 Hd) as Hq.
  apply all_strings_dict_assign; [exact H1|].
  unfold adjust_requests.
  apply all_strings_dict_assign.
  - apply all_strings_dict_assign; [exact Hq|].
    now apply all_strings_or_default.
  - apply all_strings_or_default; [|reflexivity].
    apply all_strings_dict_assign; [exact Hq|].
    now apply all_strings_or_default.
Qed.

Lemma lookup_parse_default (items : list (string * doc)) k :
  k ∉ int_to_str ->
  dict_lookup k (parse_items items)
  = option_map (map_strings escape_str)
      (dict_lookup k (default_item "run" (default_item "build" items))).
Proof.
  intros Hk. rewrite lookup_parse_items, !lookup_default_item.
  rewrite (bool_decide_eq_false_2 _ Hk).
  destruct (dict_lookup k items) as [d|]; [reflexivity|].
  destruct (String.eqb k "build"); [reflexivity|].
  now destruct (String.eqb k "run").
Qed.

(** [adjust_key] on the parsed items is [adjust_key] on the items with the
    result escaped. *)
Lemma adjust_key_escaped key (D P P' : list (string * doc)) :
  dict_lookup key P = option_map (map_strings escape_str) (dict_lookup key D) ->
  adjust_key key P = inl P' ->
  exists sub,
    adjust_key key D = inl (dict_assign key (DDict sub) D) /\
    P' = dict_assign key (DDict (map_items (map_strings escape_str) sub)) P /\
    (all_strings no_triple_quote (DDict D) = true ->
     all_strings no_triple_quote (DDict sub) = true).
Proof.
  intros Hl. unfold adjust_key. rewrite Hl.
  destruct (dict_lookup key D) as [d|] eqn:Hd; [|discriminate].
  destruct d as [| | | | |sub0]; try discriminate. simpl.
  change (map (fun kd : string * doc => (fst kd, map_strings escape_str (snd kd))) sub0)
    with (map_items (map_strings escape_str) sub0).
  rewrite adjust_items_escape.
  destruct (adjust_items sub0) as [sub|e] eqn:Hsub; [|discriminate].
  intros [= <-]. exists sub. split; [reflexivity|]. split; [reflexivity|].
  intros Hall. apply (all_strings_adjust_items sub0 sub); [|exact Hsub].
  now apply (all_strings_items _ _ _ _ Hall Hd).
Qed.

Lemma not_int_field k : k = "run" \/ k = "build" \/ k = "@created" -> k ∉ int_to_str.
Proof.
  intros Hk Hin. apply (in_int_to_str_cases k); [exact Hin|].
  intros [->|[->| ->]]; destruct Hk as [?|[?|?]]; discriminate.
Qed.

Lemma roundtrip_dict (sub : list (string * doc)) :
  all_strings no_triple_quote (DDict sub) = true ->
  map_strings unescape_str (DDict (map_items (map_strings escape_str) sub)) = DDict sub.
Proof. intros H. exact (map_strings_roundtrip (DDict sub) H). Qed.

(** Unparsing what [post_inspection] schedules gives the submitted
    specification with its defaults, and the creation time. *)
Lemma unparse_scheduled_items created (items sitems : list (string * doc)) :
  NoDup (map fst items) ->
  (forall k d, k ∈ int_to_str -> dict_lookup k items = Some d -> exists z, d = DInt z) ->
  all_strings no_triple_quote (DDict items) = true ->
  has_quote created = false ->
  scheduled_items created items = inl sitems ->
  exists ritems,
    with_default_requests items = inl ritems /\
    map fst ritems = map fst (default_item "run" (default_item "build" items)) /\
    unparse_items sitems = inl (dict_assign "@created" (DStr created) ritems).
Proof.
  intros Hnd Hint Hq Hc Hs. unfold scheduled_items in Hs.
  destruct (adjust_key "run" (parse_items items)) as [A|] eqn:HA; [|discriminate].
  destruct (adjust_key "build" A) as [B|] eqn:HB; [|discriminate].
  injection Hs as <-.
  set (D := default_item "run" (default_item "build" items)).
  assert (HqD : all_strings no_triple_quote (DDict D) = true).
  { unfold D. now do 2 apply all_strings_default_item. }
  destruct (adjust_key_escaped "run" D _ A
              (lookup_parse_default items "run" (not_int_field _ (or_introl eq_refl))) HA)
    as (rsub & HrD & -> & Hrq).
  specialize (Hrq HqD).
  assert (HqD1 : all_strings no_triple_quote (DDict (dict_assign "run" (DDict rsub) D)) = true)
    by (now apply all_strings_dict_assign).
  assert (Hlb : dict_lookup "build"
                  (dict_assign "run" (DDict (map_items (map_strings escape_str) rsub))
                     (parse_items items))
                = option_map (map_strings escape_str)
                    (dict_lookup "build" (dict_assign "run" (DDict rsub) D))).
  { rewrite !dict_lookup_assign_ne by discriminate.
    apply lookup_parse_default. apply not_int_field. tauto. }
  destruct (adjust_key_escaped "build" (dict_assign "run" (DDict rsub) D) _ B Hlb HB)
    as (bsub & HbD & -> & Hbq).
  specialize (Hbq HqD1).
  exists (dict_assign "build" (DDict bsub) (dict_assign "run" (DDict rsub) D)).
  split; [|split].
  - unfold with_default_requests. fold D. now rewrite HrD.
  - assert (Hpresent : forall k (d : doc) X, has_key k X = true ->
                                             map fst (dict_assign k d X) = map fst X).
    { intros k d X Hk. apply dict_assign_keys_present. now apply has_key_true. }
    rewrite !Hpresent; [reflexivity| |].
    + unfold D. rewrite has_key_default_item. apply orb_true_r.
    + rewrite has_key_dict_assign. unfold D. rewrite !has_key_default_item.
      now rewrite orb_true_r.
  - rewrite (unparse_items_assign "@created" _ _ _
               (not_int_field "@created" (or_intror (or_intror eq_refl)))
               (unparse_items_assign "build" _ _ _
                  (not_int_field "build" (or_intror (or_introl eq_refl)))
                  (unparse_items_assign "run" _ _ _
                     (not_int_field "run" (or_introl eq_refl))
                     (unparse_parse_items_int items Hnd Hint Hq)))).
    rewrite (roundtrip_dict rsub Hrq), (roundtrip_dict bsub Hbq).
    simpl (map_strings unescape_str (DStr created)).
    now rewrite (unescape_str_no_quote created Hc).
Qed.

Lemma dict_remove_assign_new {V} k (v : V) items :
  has_key k items = false -> dict_remove k (dict_assign k v items) = items.
Proof.
  unfold has_key. induction items as [|[k0 v0] items IH]; simpl.
  - now rewrite String.eqb_refl.
  - destruct (String.eqb k k0) eqn:E; [discriminate|]. simpl. rewrite E.
    intros H. now rewrite IH.
Qed.

(** X29: from [post_inspection] to [get_inspection_specification].  When
    the stored specification decodes to the document that [post_inspection]
    schedules for a submitted document with distinct keys, integers in its
    integer fields, no three quotes in a row in its strings and no
    "@created" of its own, [get_inspection_specification] gives back the
    submitted document, completed with "build" and "run" and their default
    requests, and the creation time under "created". *)
Theorem specification_read_back
    get_workflow json_loads fuel inspection_id h
    wf h1 spec_ arguments pl before p pitems after s specification h2 fp
    created items sitems :
  get_workflow ("inspection_id=" ++ inspection_id)%string
    (h ++ [ODict [("inspection_id", VStr inspection_id)]]) = Ok wf h1 ->
  py_getitem wf "spec" h1 = Ok spec_ h1 ->
  py_getitem spec_ "arguments" h1 = Ok arguments h1 ->
  py_getitem arguments "parameters" h1 = Ok (VRef pl) h1 ->
  h1 !! pl = Some (OList (before ++ VRef p :: after)) ->
  Forall (other_parameter h1) before ->
  Forall (other_parameter h1) after ->
  h1 !! p = Some (ODict pitems) ->
  dict_lookup "name" pitems = Some (VStr "specification") ->
  dict_lookup "value" pitems = Some (VStr s) ->
  json_loads s h1 = Ok specification h2 ->
  tree_at h2 specification (DDict sitems) fp ->
  (depth (DDict sitems) < fuel)%nat ->
  scheduled_items created items = inl sitems ->
  NoDup (map fst items) ->
  (forall k d, k ∈ int_to_str -> dict_lookup k items = Some d -> exists z, d = DInt z) ->
  all_strings no_triple_quote (DDict items) = true ->
  has_quote created = false ->
  has_key "@created" items = false ->
  exists ritems h' r created_value fps fpc,
    with_default_requests items = inl ritems /\
    get_inspection_specification get_workflow json_loads fuel inspection_id h
    = Ok (VRef r) h' /\
    h' !! r = Some (ODict [("parameters", VRef pl);
                           ("specification", VRef (length h2));
                           ("created", created_value)]) /\
    tree_at h' (VRef (length h2)) (DDict ritems) fps /\
    tree_at h' created_value (DStr created) fpc.
Proof.
  intros Hwf Hspec Hargs Hparams Hpl Hb Ha Hp Hname Hvalue Hjson Ht Hd Hs
    Hnd Hint Hq Hc Hcreated.
  destruct (unparse_scheduled_items created items sitems Hnd Hint Hq Hc Hs)
    as (ritems & Hr & Hkeys & Hu).
  assert (Hnew : has_key "@created" ritems = false).
  { rewrite (has_key_keys _ _ _ Hkeys), !has_key_default_item, Hcreated. reflexivity. }
  destruct (get_inspection_specification_run get_workflow json_loads fuel inspection_id h
              wf h1 spec_ arguments pl before p pitems after s specification h2 sitems fp
              _ (DStr created)
              Hwf Hspec Hargs Hparams Hpl Hb Ha Hp Hname Hvalue Hjson Ht Hd Hu
              (dict_lookup_assign_eq _ _ _))
    as (h' & r & cv & fps & fpc & Hrun & Hres & Hts & Htc).
  rewrite (dict_remove_assign_new _ _ _ Hnew) in Hts.
  exists ritems, h', r, cv, fps, fpc. auto.
Qed.

Lemma specification_read_back_witness :
  exists ritems h' r created_value fps fpc,
    with_default_requests [("base", DStr "fedora:31"); ("batch_size", DInt 2)]
    = inl ritems /\
    get_inspection_specification
      (fun _ h => Ok (VRef 1%nat)
                    (h ++ [ODict [("spec", VRef 2%nat)];
                           ODict [("arguments", VRef 3%nat)];
                           ODict [("parameters", VRef 4%nat)];
                           OList [VRef 5%nat];
                           ODict [("name", VStr "specification"); ("value", VStr "{...}")]]))
      (fun _ h => Ok (VRef 6%nat)
                    (h ++ [ODict [("base", VStr "fedora:31"); ("batch_size", VStr "2");
                                  ("build", VRef 7%nat); ("run", VRef 9%nat);
                                  ("@created", VStr "2020-01-01")];
                           ODict [("requests", VRef 8%nat)];
                           ODict [("cpu", VStr "500m"); ("memory", VStr "256Mi")];
                           ODict [("requests", VRef 10%nat)];
                           ODict [("cpu", VStr "500m"); ("memory", VStr "256Mi")]]))
      4 "inspection-1" []
    = Ok (VRef r) h' /\
    h' !! r = Some (ODict [("parameters", VRef 4%nat); ("specification", VRef 11%nat);
                           ("created", created_value)]) /\
    tree_at h' (VRef 11%nat) (DDict ritems) fps /\
    tree_at h' created_value (DStr "2020-01-01") fpc.
Proof.
  eapply (specification_read_back _ _ 4 "inspection-1" []
            (VRef 1%nat)
            [ODict [("inspection_id", VStr "inspection-1")];
             ODict [("spec", VRef 2%nat)];
             ODict [("arguments", VRef 3%nat)];
             ODict [("parameters", VRef 4%nat)];
             OList [VRef 5%nat];
             ODict [("name", VStr "specification"); ("value", VStr "{...}")]]
            (VRef 2%nat) (VRef 3%nat) 4%nat [] 5%nat
            [("name", VStr "specification"); ("value", VStr "{...}")] [] "{...}"
            (VRef 6%nat)
            [ODict [("inspection_id", VStr "inspection-1")];
             ODict [("spec", VRef 2%nat)];
             ODict [("arguments", VRef 3%nat)];
             ODict [("parameters", VRef 4%nat)];
             OList [VRef 5%nat];
             ODict [("name", VStr "specification"); ("value", VStr "{...}")];
             ODict [("base", VStr "fedora:31"); ("batch_size", VStr "2");
                    ("build", VRef 7%nat); ("run", VRef 9%nat);
                    ("@created", VStr "2020-01-01")];
             ODict [("requests", VRef 8%nat)];
             ODict [("cpu", VStr "500m"); ("memory", VStr "256Mi")];
             ODict [("requests", VRef 10%nat)];
             ODict [("cpu", VStr "500m"); ("memory", VStr "256Mi")]]
            _ "2020-01-01"
            [("base", DStr "fedora:31"); ("batch_size", DInt 2)]).
  14: (cbv; reflexivity).
  - reflexivity.
  - reflexivity.
  - reflexivity.
  - reflexivity.
  - reflexivity.
  - constructor.
  - constructor.
  - reflexivity.
  - reflexivity.
  - reflexivity.
  - reflexivity.
  - solve_tree.
  - simpl. lia.
  - apply (bool_decide_unpack _); vm_compute; exact I.
  - intros k d Hk Hd. unfold int_to_str in Hk. rewrite !elem_of_cons in Hk.
    destruct Hk as [->|[->|[->|Hk]]]; try discriminate Hd;
      [|now apply elem_of_nil in Hk].
    injection Hd as <-. now exists 2.
  - reflexivity.
  - reflexivity.
  - reflexivity.
Defined.

(** X30: on strings, unescaping undoes escaping exactly when the string has
    no three single quotes in a row; every other string comes back
    shorter. *)
Theorem escape_roundtrip_exactly s :
  (unescape_str (escape_str s) = s <-> no_triple_quote s = true) /\
  (no_triple_quote s = false ->
   (String.length (unescape_str (escape_str s)) < String.length s)%nat).
Proof.
  split; [apply unescape_escape_str_iff|apply unescape_escape_length].
Qed.

Lemma escape_roundtrip_exactly_witness :
  (String.length (unescape_str (escape_str "''''")) < String.length "''''")%nat.
Proof.
  apply (proj2 (escape_roundtrip_exactly "''''")). reflexivity.
Defined.
